(** * Secret of Evermore world (worlds/soe/__init__.py)

    A shallow embedding of the world-integration layer: the catalog
    mappings between native (type, index) pairs and numeric ids, the
    access-rule compiler, the event wiring, the output pipeline with its
    cleanup, and the connect-name handoff.

    Python values are modelled as follows.
    - [int] is [Z].
    - [str] is a list of Unicode code points, each a [Z]; the literal
      ['Done'] is written [py "Done"].
    - [bytes] is a list of byte values, each a [Z].
    - [dict] is a [gmap]; a missing key raises [KeyError].
    - A raised exception is the [Raise] constructor of [result]. *)

From Stdlib Require Import String Ascii DecimalString DecimalZ DecimalPos.
From Stdlib Require Import ZArith List Lia.
From stdpp Require Import base option list gmap.

Local Open Scope Z_scope.

(** ** Python runtime *)

Module Py.

Abbreviation str := (list Z).
Abbreviation bytes := (list Z).

(** A string literal of the source, as code points. *)
Definition py (s : String.string) : str :=
  map (fun a => Z.of_N (N_of_ascii a)) (list_ascii_of_string s).

(** [f'{n}'] for an [int]: decimal digits, with a leading minus sign
    for negative numbers. *)
Definition str_of_Z (n : Z) : str :=
  py (NilZero.string_of_int (Z.to_int n)).

(** The newline of [f'...\n']. *)
Definition nl : str := [10].

Inductive exn : Set :=
| KeyError
| TypeError
| AttributeError
| UnicodeEncodeError
| FileNotFoundError
| RuntimeError.

Inductive result (A : Type) : Type :=
| Ok (a : A)
| Raise (e : exn).
Arguments Ok {A} a.
Arguments Raise {A} e.

Definition rbind {A B} (m : result A) (k : A -> result B) : result B :=
  match m with
  | Ok a => k a
  | Raise e => Raise e
  end.

(** [d[k]] on a dict. *)
Definition getitem `{Countable K} {V} (d : gmap K V) (k : K) : result V :=
  match d !! k with
  | Some v => Ok v
  | None => Raise KeyError
  end.

(** [s[:stop]] on a sequence. *)
Definition slice_to {A} (stop : Z) (s : list A) : list A :=
  if stop <? 0
  then take (Z.to_nat (Z.of_nat (length s) + stop)) s
  else take (Z.to_nat stop) s.

(** [c.encode('utf-8')] for a single code point.  Surrogates
    (U+D800..U+DFFF) are not encodable under the default strict error
    handler; code points above U+10FFFF are not characters. *)
Definition utf8_char (c : Z) : option bytes :=
  if c <? 0 then None
  else if c <? 0x80 then Some [c]
  else if c <? 0x800 then
    Some [Z.lor 0xC0 (Z.shiftr c 6); Z.lor 0x80 (Z.land c 0x3F)]
  else if c <? 0x10000 then
    if (0xD800 <=? c) && (c <=? 0xDFFF) then None
    else Some [Z.lor 0xE0 (Z.shiftr c 12);
               Z.lor 0x80 (Z.land (Z.shiftr c 6) 0x3F);
               Z.lor 0x80 (Z.land c 0x3F)]
  else if c <? 0x110000 then
    Some [Z.lor 0xF0 (Z.shiftr c 18);
          Z.lor 0x80 (Z.land (Z.shiftr c 12) 0x3F);
          Z.lor 0x80 (Z.land (Z.shiftr c 6) 0x3F);
          Z.lor 0x80 (Z.land c 0x3F)]
  else None.

(** [s.encode('utf-8')]; [None] stands for [UnicodeEncodeError]. *)
Fixpoint utf8 (s : str) : option bytes :=
  match s with
  | [] => Some []
  | c :: s' =>
      match utf8_char c, utf8 s' with
      | Some b, Some bs => Some (b ++ bs)
      | _, _ => None
      end
  end.

Definition encode (s : str) : result bytes :=
  match utf8 s with
  | Some b => Ok b
  | None => Raise UnicodeEncodeError
  end.

End Py.
Import Py.

Notation "'let*' x ':=' m 'in' k" := (rbind m (fun x => k))
  (at level 10, x pattern, m at level 100, k at level 200, only parsing).

(** The file system seen by the output pipeline: path to contents. *)
Abbreviation FS := (gmap str bytes).

(** ** pyevermizer: the native catalog and build tool

    The package is not part of the sources; its constants, its catalog
    and its [main] entry point are fields of an interface record that
    every definition below takes as a parameter. *)

Module RawItem.
Record t := mk {
  type : Z;
  index : Z;
  name : str;
  progression : bool
}.
End RawItem.

Module RawLocation.
Record t := mk {
  type : Z;
  index : Z;
  name : str;
  requires : list (Z * Z)
}.

Definition with_name (n : str) (l : t) : t :=
  mk (type l) (index l) n (requires l).
End RawLocation.

Module pyevermizer.
Record main_args := mk_args {
  rom_file : str;
  out_file : str;
  placement_file : str;
  seed_name : str;
  connect_name : str;
  seed : Z;
  flags : str;
  money : Z;
  exp : Z
}.

Record t := mk {
  CHECK_NONE : Z;
  CHECK_ALCHEMY : Z;
  CHECK_BOSS : Z;
  CHECK_GOURD : Z;
  CHECK_NPC : Z;
  P_FINAL_BOSS : Z;
  get_items : list RawItem.t;
  get_locations : list RawLocation.t;
  main : main_args -> FS -> FS * Z
}.
End pyevermizer.

(** ** The randomization engine (BaseClasses, generic.Rules, Logic) *)

Module CollectionState.
(** Modelled from the spec: the accumulated player state of the engine
    with the Logic mixin, which is not part of the sources.  The spec
    treats it as an opaque oracle: [has name player] is "state contains
    the named item for the player", and [_soe_has progress player count]
    is "owns at least [count] progression units tagged [progress]". *)
Record t := mk {
  has : str -> Z -> bool;
  _soe_has : Z -> Z -> Z -> bool
}.

(** Modelled from the spec: the [count] argument of [_soe_has], declared
    in the missing Logic mixin, defaults to 1 ("satisfies the final-boss
    unlock token with count 1"). *)
Definition _soe_has_default (state : t) (progress player : Z) : bool :=
  _soe_has state progress player 1.
End CollectionState.

Module Item.
(** Modelled from the spec: BaseClasses.Item, a PlaceableItem
    [{name, is_progression_override, numeric_id: optional, owning_player}]. *)
Record t := mk {
  name : str;
  advancement : bool;
  code : option Z;
  player : Z
}.
End Item.

Module Location.
(** Modelled from the spec: BaseClasses.Location, a PlaceableLocation
    [{name, numeric_id: optional, owning_player, event_flag}] together
    with the item it holds, the locked binding, its access rule and its
    item filter. *)
Record t := mk {
  player : Z;
  name : str;
  address : option Z;
  event : bool;
  item : option Item.t;
  locked : bool;
  access_rule : CollectionState.t -> bool;
  item_rule : Item.t -> result bool
}.

(** Modelled from the spec: generic.Rules.set_rule replaces the access
    rule of a location. *)
Definition set_rule (rule : CollectionState.t -> bool) (l : t) : t :=
  mk (player l) (name l) (address l) (event l) (item l) (locked l)
     rule (item_rule l).

(** Modelled from the spec: generic.Rules.add_item_rule installs an
    additional filter; a candidate must pass the new filter and the one
    already installed ([rule(item) and old_rule(item)]). *)
Definition add_item_rule (rule : Item.t -> result bool) (l : t) : t :=
  mk (player l) (name l) (address l) (event l) (item l) (locked l)
     (access_rule l)
     (fun candidate =>
        let* b := rule candidate in
        if b then item_rule l candidate else Ok false).

(** Modelled from the spec: BaseClasses.Location.place_locked_item binds
    the item to the location and locks the binding. *)
Definition place_locked_item (it : Item.t) (l : t) : t :=
  mk (player l) (name l) (address l) (event l) (Some it) true
     (access_rule l) (item_rule l).
End Location.

Module Entrance.
(** Modelled from the spec: BaseClasses.Entrance, an outward connection
    of a region with its own access rule. *)
Record t := mk {
  player : Z;
  name : str;
  access_rule : CollectionState.t -> bool;
  connected_region : option str
}.

Definition set_rule (rule : CollectionState.t -> bool) (e : t) : t :=
  mk (player e) (name e) rule (connected_region e).

Definition connect (region : str) (e : t) : t :=
  mk (player e) (name e) (access_rule e) (Some region).
End Entrance.

Module Region.
(** Modelled from the spec: BaseClasses.Region, a named region of one
    player with its exits and the locations it contains. *)
Record t := mk {
  name : str;
  player : Z;
  exits : list Entrance.t;
  locations : list Location.t
}.
End Region.

Module OptionValue.
(** Modelled from the spec: a configured option of a player; it has a
    value and may define a flag-encoding contribution [to_flag]. *)
Record t := mk {
  value : Z;
  to_flag : option str
}.
End OptionValue.

Module MultiWorld.
(** Modelled from the spec: BaseClasses.MultiWorld, the shared state of
    the engine as far as this world reads and writes it.  [options] holds
    the option attributes of the world, each a dict from player to
    option object; [random] holds the values the engine's generator
    draws next. *)
Record t := mk {
  regions : list Region.t;
  completion_condition : gmap Z (CollectionState.t -> bool);
  player_name : gmap Z str;
  seed_name : str;
  options : gmap str (gmap Z OptionValue.t);
  random : list Z
}.

Definition with_regions (rs : list Region.t) (w : t) : t :=
  mk rs (completion_condition w) (player_name w) (seed_name w)
     (options w) (random w).

Definition with_completion_condition
    (c : gmap Z (CollectionState.t -> bool)) (w : t) : t :=
  mk (regions w) c (player_name w) (seed_name w) (options w) (random w).

Definition with_random (r : list Z) (w : t) : t :=
  mk (regions w) (completion_condition w) (player_name w) (seed_name w)
     (options w) r.

(** [getattr(world, name)[player]], and [world.<name>[player]] for a
    name written out: a world without the attribute raises
    [AttributeError], a dict without the player [KeyError]. *)
Definition get_option (name : str) (player : Z) (w : t)
  : result OptionValue.t :=
  match options w !! name with
  | Some per_player => getitem per_player player
  | None => Raise AttributeError
  end.

(** Modelled from the spec: [world.get_locations()] is every location of
    every region, in order. *)
Definition get_locations (w : t) : list Location.t :=
  concat (map Region.locations (regions w)).

Definition get_entrances (w : t) : list Entrance.t :=
  concat (map Region.exits (regions w)).

Definition is_location (name : str) (player : Z) (l : Location.t) : bool :=
  bool_decide (Location.name l = name) && (Location.player l =? player).

Definition is_entrance (name : str) (player : Z) (e : Entrance.t) : bool :=
  bool_decide (Entrance.name e = name) && (Entrance.player e =? player).

Definition is_region (name : str) (player : Z) (r : Region.t) : bool :=
  bool_decide (Region.name r = name) && (Region.player r =? player).

(** Modelled from the spec: [world.get_location(name, player)] is the
    location of that name and player; a missing one raises. *)
Definition get_location (name : str) (player : Z) (w : t)
  : result Location.t :=
  match find (is_location name player) (get_locations w) with
  | Some l => Ok l
  | None => Raise KeyError
  end.

(** Modelled from the spec: [world.get_region(name, player)], as the
    name of the region found. *)
Definition get_region (name : str) (player : Z) (w : t) : result str :=
  match find (is_region name player) (regions w) with
  | Some r => Ok (Region.name r)
  | None => Raise KeyError
  end.

(** Mutation of the first element that satisfies [P]; [None] when there
    is none. *)
Fixpoint alter_first {A} (P : A -> bool) (f : A -> A) (l : list A)
  : option (list A) :=
  match l with
  | [] => None
  | x :: l' =>
      if P x then Some (f x :: l')
      else match alter_first P f l' with
           | Some l'' => Some (x :: l'')
           | None => None
           end
  end.

Fixpoint alter_location (P : Location.t -> bool)
    (f : Location.t -> Location.t) (rs : list Region.t)
  : option (list Region.t) :=
  match rs with
  | [] => None
  | r :: rs' =>
      match alter_first P f (Region.locations r) with
      | Some ls =>
          Some (Region.mk (Region.name r) (Region.player r)
                          (Region.exits r) ls :: rs')
      | None =>
          match alter_location P f rs' with
          | Some rs'' => Some (r :: rs'')
          | None => None
          end
      end
  end.

Fixpoint alter_entrance (P : Entrance.t -> bool)
    (f : Entrance.t -> Entrance.t) (rs : list Region.t)
  : option (list Region.t) :=
  match rs with
  | [] => None
  | r :: rs' =>
      match alter_first P f (Region.exits r) with
      | Some es =>
          Some (Region.mk (Region.name r) (Region.player r)
                          es (Region.locations r) :: rs')
      | None =>
          match alter_entrance P f rs' with
          | Some rs'' => Some (r :: rs'')
          | None => None
          end
      end
  end.

(** Modelled from the spec: a mutation [f] applied to the object that
    [world.get_location(name, player)] returns. *)
Definition update_location (name : str) (player : Z)
    (f : Location.t -> Location.t) (w : t) : result t :=
  match alter_location (is_location name player) f (regions w) with
  | Some rs => Ok (with_regions rs w)
  | None => Raise KeyError
  end.

(** Modelled from the spec: a mutation [f] applied to the object that
    [world.get_entrance(name, player)] returns. *)
Definition update_entrance (name : str) (player : Z)
    (f : Entrance.t -> Entrance.t) (w : t) : result t :=
  match alter_entrance (is_entrance name player) f (regions w) with
  | Some rs => Ok (with_regions rs w)
  | None => Raise KeyError
  end.

(** Modelled from the spec: [world.get_player_name(player)] is the name
    the engine registered for the player, [world.player_name[player]]. *)
Definition get_player_name (player : Z) (w : t) : result str :=
  getitem (player_name w) player.

(** Modelled from the spec: [world.random.randint(lo, hi)] draws the
    next value of the generator into the range. *)
Definition randint (lo hi : Z) (w : t) : Z * t :=
  match random w with
  | [] => (lo, w)
  | x :: r => (lo + x mod (hi - lo + 1), with_random r w)
  end.
End MultiWorld.

Module ItemPool.
(** Modelled from the spec: the item pool of the engine and its
    pre-collected items ([world.itempool], [world.precollected_items]);
    the latter is a list for all players or a dict from player to list. *)
Record t := mk {
  itempool : list Item.t;
  precollected_items : list Item.t + gmap Z (list Item.t)
}.
End ItemPool.

(** The defaults of a freshly constructed location and entrance: no
    item, not locked, always accessible, every item allowed. *)
Definition new_location (player : Z) (name : str) (address : option Z)
    (event : bool) : Location.t :=
  Location.mk player name address event None false
              (fun _ => true) (fun _ => Ok true).

Definition new_entrance (player : Z) (name : str) : Entrance.t :=
  Entrance.mk player name (fun _ => true) None.

(** ** The host: settings and helpers outside the world sources *)

Module Host.
Record t := mk {
  (** the keys of [Options.soe_options], in iteration order *)
  soe_options : list str;
  (** [get_options()['soe_options']['rom_file']] *)
  rom_file : result str;
  (** [Utils.output_path] *)
  output_path : str -> str -> str;
  (** the compressor behind [lzma.LZMAFile] *)
  lzma_compress : bytes -> bytes
}.
End Host.

(** ** The output pipeline's effects

    Output generation reads and writes files and may raise at every
    step; its local variables [placement_file] and [out_file] are read
    again by the cleanup.  A computation takes the state and returns the
    outcome together with the new state: an exception keeps the state
    reached so far. *)

Module Pipeline.
Record state := mk {
  fs : FS;
  placement_file : option str;
  out_file : option str
}.

Definition M (A : Type) : Type := state -> result A * state.

Definition ret {A} (a : A) : M A := fun s => (Ok a, s).

Definition bind {A B} (m : M A) (k : A -> M B) : M B :=
  fun s =>
    match m s with
    | (Ok a, s') => k a s'
    | (Raise e, s') => (Raise e, s')
    end.

Definition lift {A} (r : result A) : M A := fun s => (r, s).

Definition raise {A} (e : exn) : M A := fun s => (Raise e, s).

(** [try: body finally: fin]: [fin] runs on every exit of [body]; the
    outcome of [body] stands unless [fin] itself raises. *)
Definition try_finally {A} (body : M A) (fin : M unit) : M A :=
  fun s =>
    let '(r, s1) := body s in
    match fin s1 with
    | (Ok _, s2) => (r, s2)
    | (Raise e, s2) => (Raise e, s2)
    end.

(** [try: body except: pass]. *)
Definition try_except_pass (body : M unit) : M unit :=
  fun s => (Ok tt, snd (body s)).

Definition get_placement_file : M (option str) :=
  fun s => (Ok (placement_file s), s).

Definition get_out_file : M (option str) :=
  fun s => (Ok (out_file s), s).

Definition set_placement_file (p : str) : M unit :=
  fun s => (Ok tt, mk (fs s) (Some p) (out_file s)).

Definition set_out_file (p : str) : M unit :=
  fun s => (Ok tt, mk (fs s) (placement_file s) (Some p)).

Definition with_fs (f : FS) (s : state) : state :=
  mk f (placement_file s) (out_file s).

(** [open(path, 'wb')]: the file is created or truncated. *)
Definition open_wb (path : str) : M unit :=
  fun s => (Ok tt, with_fs (<[path := []]> (fs s)) s).

(** [f.write(data)] on a file opened for writing. *)
Definition write (path : str) (data : bytes) : M unit :=
  fun s =>
    (Ok tt, with_fs (<[path := default [] (fs s !! path) ++ data]> (fs s)) s).

(** The contents of an existing file. *)
Definition read (path : str) : M bytes :=
  fun s =>
    match fs s !! path with
    | Some data => (Ok data, s)
    | None => (Raise FileNotFoundError, s)
    end.

(** [os.unlink(path)]: [None] is not a path, and a missing file cannot
    be removed. *)
Definition unlink (path : option str) : M unit :=
  fun s =>
    match path with
    | None => (Raise TypeError, s)
    | Some p =>
        match fs s !! p with
        | Some _ => (Ok tt, with_fs (delete p (fs s)) s)
        | None => (Raise FileNotFoundError, s)
        end
    end.

(** A call of the native build tool, which works on the file system. *)
Definition call (tool : FS -> FS * Z) : M Z :=
  fun s => let '(f, status) := tool (fs s) in (Ok status, with_fs f s).
End Pipeline.

Notation "'let+' x ':=' m 'in' k" := (Pipeline.bind m (fun x => k))
  (at level 10, x pattern, m at level 100, k at level 200, only parsing).

(** ** worlds/soe/__init__.py *)

Module SoE.

Section WithEvermizer.
Context (ev : pyevermizer.t).

Definition _id_base : Z := 64000.

(** The dict display [{CHECK_ALCHEMY: ..., CHECK_BOSS: ..., ...}]: keys
    are inserted left to right. *)
Definition _id_offset : gmap Z Z :=
  <[pyevermizer.CHECK_NPC ev := _id_base + 400]>
  (<[pyevermizer.CHECK_GOURD ev := _id_base + 100]>
  (<[pyevermizer.CHECK_BOSS ev := _id_base + 50]>
  (<[pyevermizer.CHECK_ALCHEMY ev := _id_base + 0]> ∅))).

Definition _items : list RawItem.t := pyevermizer.get_items ev.

(** The fix-up of the texts: [f'{_loc.name} #{_loc.index}'] for gourds. *)
Definition fix_up (loc : RawLocation.t) : RawLocation.t :=
  if RawLocation.type loc =? pyevermizer.CHECK_GOURD ev
  then RawLocation.with_name
         (RawLocation.name loc ++ py " #" ++ str_of_Z (RawLocation.index loc))
         loc
  else loc.

Definition _locations : list RawLocation.t :=
  map fix_up (pyevermizer.get_locations ev).

(** The numeric id of a native (type, index) pair:
    [_id_offset[type] + index]. *)
Definition apid (type index : Z) : result Z :=
  let* offset := getitem _id_offset type in
  Ok (offset + index).

Fixpoint location_mapping_loop (locs : list RawLocation.t)
    (name_to_id : gmap str (option Z)) (id_to_raw : gmap Z RawLocation.t)
  : result (gmap str (option Z) * gmap Z RawLocation.t) :=
  match locs with
  | [] => Ok (name_to_id, id_to_raw)
  | loc :: locs' =>
      let* apid := apid (RawLocation.type loc) (RawLocation.index loc) in
      let id_to_raw := <[apid := loc]> id_to_raw in
      let name_to_id := <[RawLocation.name loc := Some apid]> name_to_id in
      location_mapping_loop locs' name_to_id id_to_raw
  end.

Definition _get_location_mapping
  : result (gmap str (option Z) * gmap Z RawLocation.t) :=
  let* (name_to_id, id_to_raw) := location_mapping_loop _locations ∅ ∅ in
  let name_to_id := <[py "Done" := None]> name_to_id in
  Ok (name_to_id, id_to_raw).

Fixpoint item_mapping_loop (items : list RawItem.t)
    (name_to_id : gmap str (option Z)) (id_to_raw : gmap Z RawItem.t)
  : result (gmap str (option Z) * gmap Z RawItem.t) :=
  match items with
  | [] => Ok (name_to_id, id_to_raw)
  | item :: items' =>
      match name_to_id !! RawItem.name item with
      | Some _ => item_mapping_loop items' name_to_id id_to_raw
      | None =>
          let* apid := apid (RawItem.type item) (RawItem.index item) in
          let id_to_raw := <[apid := item]> id_to_raw in
          let name_to_id := <[RawItem.name item := Some apid]> name_to_id in
          item_mapping_loop items' name_to_id id_to_raw
      end
  end.

Definition _get_item_mapping
  : result (gmap str (option Z) * gmap Z RawItem.t) :=
  let* (name_to_id, id_to_raw) := item_mapping_loop _items ∅ ∅ in
  let name_to_id := <[py "Victory" := None]> name_to_id in
  Ok (name_to_id, id_to_raw).

(** The class attributes of [SoEWorld] computed in the class body. *)
Record class_attrs := mk_class {
  item_name_to_id : gmap str (option Z);
  item_id_to_raw : gmap Z RawItem.t;
  location_name_to_id : gmap str (option Z);
  location_id_to_raw : gmap Z RawLocation.t
}.

Definition SoEWorld_class : result class_attrs :=
  let* (item_name_to_id, item_id_to_raw) := _get_item_mapping in
  let* (location_name_to_id, location_id_to_raw) := _get_location_mapping in
  Ok (mk_class item_name_to_id item_id_to_raw
               location_name_to_id location_id_to_raw).

(** The instance attributes of a [SoEWorld]; [None] is an attribute that
    has not been assigned yet, and the event is a set-once flag. *)
Record t := mk {
  player : Z;
  restrict_item_placement : bool;
  connect_name : option str;
  connect_name_available_event : bool;
  evermizer_seed : option Z
}.

(** [SoEWorld(world, player)]: the event is created unset and
    [restrict_item_placement] has its class default. *)
Definition __init__ (player : Z) : t :=
  mk player false None false None.

Definition with_connect_name (n : str) (self : t) : t :=
  mk (player self) (restrict_item_placement self) (Some n)
     (connect_name_available_event self) (evermizer_seed self).

Definition set_connect_name_available_event (self : t) : t :=
  mk (player self) (restrict_item_placement self) (connect_name self)
     true (evermizer_seed self).

Definition with_evermizer_seed (n : Z) (self : t) : t :=
  mk (player self) (restrict_item_placement self) (connect_name self)
     (connect_name_available_event self) (Some n).

Context (cls : class_attrs).

Definition create_event (self : t) (event : str) : Item.t :=
  let progression := true in
  Item.mk event progression None (player self).

(** [SoELocation(player, name, address, parent)]: [event = not address]. *)
Definition SoELocation (player : Z) (name : str) (address : option Z)
  : Location.t :=
  new_location player name address
    (match address with
     | None => true
     | Some a => a =? 0
     end).

Fixpoint create_locations (self : t) (locs : list RawLocation.t)
  : result (list Location.t) :=
  match locs with
  | [] => Ok []
  | loc :: locs' =>
      let* address := getitem (location_name_to_id cls) (RawLocation.name loc) in
      let* rest := create_locations self locs' in
      Ok (SoELocation (player self) (RawLocation.name loc) address :: rest)
  end.

Definition create_regions (self : t) (w : MultiWorld.t)
  : result MultiWorld.t :=
  let r := Region.mk (py "Menu") (player self)
                     [new_entrance (player self) (py "New Game")] [] in
  let w := MultiWorld.with_regions (MultiWorld.regions w ++ [r]) w in
  let* locations := create_locations self _locations in
  let locations := locations ++ [SoELocation (player self) (py "Done") None] in
  let r := Region.mk (py "Ingame") (player self) [] locations in
  let w := MultiWorld.with_regions (MultiWorld.regions w ++ [r]) w in
  let* ingame := MultiWorld.get_region (py "Ingame") (player self) w in
  MultiWorld.update_entrance (py "New Game") (player self)
                             (Entrance.connect ingame) w.

(** The closure [rule] returned by [make_rule]. *)
Fixpoint make_rule (self : t) (requires : list (Z * Z))
    (state : CollectionState.t) : bool :=
  match requires with
  | [] => true
  | (count, progress) :: requires' =>
      if negb (CollectionState._soe_has state progress (player self) count)
      then false
      else make_rule self requires' state
  end.

Definition make_item_type_limit_rule (self : t) (item_type : Z)
    (item : Item.t) : result bool :=
  if negb (Item.player item =? player self) then Ok true
  else
    let* raw := match Item.code item with
                | Some code => getitem (item_id_to_raw cls) code
                | None => Raise KeyError
                end in
    Ok (RawItem.type raw =? item_type).

(** The body of the loop of [set_rules] on the object [location] that
    [get_location(loc.name, self.player)] returned. *)
Definition location_rules (self : t) (loc : RawLocation.t)
    (location : Location.t) : Location.t :=
  let location :=
    Location.set_rule (make_rule self (RawLocation.requires loc)) location in
  if restrict_item_placement self
  then Location.add_item_rule
         (make_item_type_limit_rule self (RawLocation.type loc)) location
  else location.

Fixpoint set_location_rules (self : t) (locs : list RawLocation.t)
    (w : MultiWorld.t) : result MultiWorld.t :=
  match locs with
  | [] => Ok w
  | loc :: locs' =>
      let* w :=
        MultiWorld.update_location (RawLocation.name loc) (player self)
          (location_rules self loc) w in
      set_location_rules self locs' w
  end.

Definition set_rules (self : t) (w : MultiWorld.t) : result MultiWorld.t :=
  let w :=
    MultiWorld.with_completion_condition
      (<[player self := fun state =>
           CollectionState.has state (py "Victory") (player self)]>
         (MultiWorld.completion_condition w)) w in
  let* w :=
    MultiWorld.update_location (py "Done") (player self)
      (Location.set_rule
         (fun state =>
            CollectionState._soe_has_default state
              (pyevermizer.P_FINAL_BOSS ev) (player self))) w in
  let* w :=
    MultiWorld.update_entrance (py "New Game") (player self)
      (Entrance.set_rule (fun state => true)) w in
  set_location_rules self _locations w.

Definition generate_basic (self : t) (w : MultiWorld.t)
  : result (t * MultiWorld.t) :=
  let* w :=
    MultiWorld.update_location (py "Done") (player self)
      (Location.place_locked_item (create_event self (py "Victory"))) w in
  let '(n, w) := MultiWorld.randint 0 (2 ^ 16 - 1) w in
  Ok (with_evermizer_seed n self, w).

Context (host : Host.t).

(** The [while] loop of the name finalization on [self.connect_name];
    [fuel] bounds the number of tests of the loop condition, and [None]
    is a loop that has not finished within it.  The exception of
    [encode] leaves the name as the loop had it. *)
Fixpoint shrink_connect_name (fuel : nat) (connect_name : str)
  : option (result unit * str) :=
  match fuel with
  | O => None
  | S fuel' =>
      match encode connect_name with
      | Raise e => Some (Raise e, connect_name)
      | Ok b =>
          if 32 <? Z.of_nat (length b)
          then shrink_connect_name fuel' (slice_to (-1) connect_name)
          else Some (Ok tt, connect_name)
      end
  end.

(** The first statements of [generate_output], up to the signal of the
    handoff; the result is [player_name]. *)
Definition finalize_name (fuel : nat) (self : t) (w : MultiWorld.t)
  : option (result str * t) :=
  match MultiWorld.get_player_name (player self) w with
  | Raise e => Some (Raise e, self)
  | Ok player_name =>
      match shrink_connect_name fuel (slice_to 32 player_name) with
      | None => None
      | Some (Raise e, connect_name) =>
          Some (Raise e, with_connect_name connect_name self)
      | Some (Ok _, connect_name) =>
          Some (Ok player_name,
                set_connect_name_available_event
                  (with_connect_name connect_name self))
      end
  end.

(** The flag string: [flags += option.to_flag()] for every option that
    has the attribute. *)
Fixpoint flags_loop (self : t) (w : MultiWorld.t) (names : list str)
    (flags : str) : result str :=
  match names with
  | [] => Ok flags
  | option_name :: names' =>
      let* option := MultiWorld.get_option option_name (player self) w in
      match OptionValue.to_flag option with
      | Some flag => flags_loop self w names' (flags ++ flag)
      | None => flags_loop self w names' flags
      end
  end.

(** The body of the placement loop for one location of this player:
    the line to write, or [None] for a skipped event. *)
Definition placement_line (self : t) (location : Location.t)
  : result (option str) :=
  let* item := match Location.item location with
               | Some item => Ok item
               | None => Raise AttributeError
               end in
  match Item.code item with
  | None => Ok None
  | Some code =>
      let* loc := match Location.address location with
                  | Some address => getitem (location_id_to_raw cls) address
                  | None => Raise KeyError
                  end in
      if negb (Item.player item =? player self)
      then
        Ok (Some (str_of_Z (RawLocation.type loc) ++ py ","
                  ++ str_of_Z (RawLocation.index loc) ++ py ":"
                  ++ str_of_Z (pyevermizer.CHECK_NONE ev) ++ py ","
                  ++ str_of_Z code ++ py ","
                  ++ str_of_Z (Item.player item) ++ nl))
      else
        let* item := getitem (item_id_to_raw cls) code in
        Ok (Some (str_of_Z (RawLocation.type loc) ++ py ","
                  ++ str_of_Z (RawLocation.index loc) ++ py ":"
                  ++ str_of_Z (RawItem.type item) ++ py ","
                  ++ str_of_Z (RawItem.index item) ++ nl))
  end.

(** The placement loop over [world.get_locations()], writing to the
    open placement file [f]. *)
Fixpoint write_placement (self : t) (f : str) (locations : list Location.t)
  : Pipeline.M unit :=
  match locations with
  | [] => Pipeline.ret tt
  | location :: locations' =>
      if Location.player location =? player self
      then
        let+ line := Pipeline.lift (placement_line self location) in
        match line with
        | None => write_placement self f locations'
        | Some line =>
            let+ data := Pipeline.lift (encode line) in
            let+ _ := Pipeline.write f data in
            write_placement self f locations'
        end
      else write_placement self f locations'
  end.

(** Modelled from the spec: Patch.generate_patch, which is not part of
    the sources, "reads the produced output image bytes". *)
Definition generate_patch (rom_file out_file : str) : Pipeline.M bytes :=
  Pipeline.read out_file.

(** [with lzma.LZMAFile(path, 'wb') as f: f.write(data)]: the file is
    opened before [data] is computed, and closing it writes the
    compressed stream of what has been written. *)
Definition lzma_file_write (path : str) (data : Pipeline.M bytes)
  : Pipeline.M unit :=
  let+ _ := Pipeline.open_wb path in
  fun s =>
    match data s with
    | (Ok d, s') => Pipeline.write path (Host.lzma_compress host d) s'
    | (Raise e, s') =>
        (Raise e, snd (Pipeline.write path (Host.lzma_compress host []) s'))
    end.

(** An instance attribute that may not have been assigned. *)
Definition getattr {A} (a : option A) : result A :=
  match a with
  | Some x => Ok x
  | None => Raise AttributeError
  end.

(** The [try] block of [generate_output]. *)
Definition try_block (self : t) (w : MultiWorld.t)
    (output_directory player_name : str) : Pipeline.M unit :=
  let+ money :=
    Pipeline.lift
      (let* o := MultiWorld.get_option (py "money_modifier") (player self) w in
       Ok (OptionValue.value o)) in
  let+ exp :=
    Pipeline.lift
      (let* o := MultiWorld.get_option (py "exp_modifier") (player self) w in
       Ok (OptionValue.value o)) in
  let+ rom_file := Pipeline.lift (Host.rom_file host) in
  let out_base :=
    Host.output_path host output_directory
      (py "AP_" ++ MultiWorld.seed_name w ++ py "_P"
       ++ str_of_Z (player self) ++ py "_" ++ player_name) in
  let out_file := out_base ++ py ".sfc" in
  let+ _ := Pipeline.set_out_file out_file in
  let placement_file := out_base ++ py ".txt" in
  let+ _ := Pipeline.set_placement_file placement_file in
  let patch_file := out_base ++ py ".apsoe" in
  let flags := py "l" in
  let+ flags := Pipeline.lift (flags_loop self w (Host.soe_options host) flags) in
  let+ _ := Pipeline.open_wb placement_file in
  let+ _ := write_placement self placement_file (MultiWorld.get_locations w) in
  let+ connect_name := Pipeline.lift (getattr (connect_name self)) in
  let+ evermizer_seed := Pipeline.lift (getattr (evermizer_seed self)) in
  let+ status :=
    Pipeline.call
      (pyevermizer.main ev
         (pyevermizer.mk_args rom_file out_file placement_file
            (MultiWorld.seed_name w) connect_name evermizer_seed
            flags money exp)) in
  if negb (status =? 0) then Pipeline.raise RuntimeError
  else
    lzma_file_write patch_file (generate_patch rom_file out_file).

(** The [finally] block of [generate_output]: one [try] around the
    three deletions, [except: pass]. *)
Definition finally_block : Pipeline.M unit :=
  Pipeline.try_except_pass
    (let+ placement_file := Pipeline.get_placement_file in
     let+ _ := Pipeline.unlink placement_file in
     let+ out_file := Pipeline.get_out_file in
     let+ _ := Pipeline.unlink out_file in
     let+ out_file := Pipeline.get_out_file in
     let+ out_base :=
       Pipeline.lift (match out_file with
                      | Some out_file => Ok (slice_to (-4) out_file)
                      | None => Raise TypeError
                      end) in
     Pipeline.unlink (Some (out_base ++ py "_SPOILER.log"))).

(** [generate_output]: the outcome, the instance and the file system
    after the call; [None] if the name loop has not finished within
    [fuel]. *)
Definition generate_output (fuel : nat) (self : t) (w : MultiWorld.t)
    (output_directory : str) (fs : FS) : option (result unit * t * FS) :=
  match finalize_name fuel self w with
  | None => None
  | Some (Raise e, self) => Some (Raise e, self, fs)
  | Some (Ok player_name, self) =>
      let placement_file := None in
      let out_file := None in
      let '(r, s) :=
        Pipeline.try_finally
          (try_block self w output_directory player_name)
          finally_block
          (Pipeline.mk fs placement_file out_file) in
      Some (r, self, Pipeline.fs s)
  end.

(** [modify_multidata]: [None] is a [wait()] that does not return, the
    event not being set; otherwise the outcome with [multidata] after
    the call. *)
Definition modify_multidata {Payload : Type} (self : t) (w : MultiWorld.t)
    (multidata : gmap str (gmap str Payload))
  : option (result (gmap str (gmap str Payload))) :=
  if negb (connect_name_available_event self) then None
  else Some (
    let* connect_name := getattr (connect_name self) in
    let* differs :=
      if bool_decide (connect_name = []) then Ok false
      else
        let* registered := getitem (MultiWorld.player_name w) (player self) in
        Ok (negb (bool_decide (connect_name = registered))) in
    if differs then
      let* registered := getitem (MultiWorld.player_name w) (player self) in
      let* connect_names := getitem multidata (py "connect_names") in
      let* payload := getitem connect_names registered in
      let connect_names := <[connect_name := payload]> connect_names in
      let* _ := getitem connect_names registered in
      let connect_names := delete registered connect_names in
      Ok (<[py "connect_names" := connect_names]> multidata)
    else Ok multidata).

(** [create_item]: [item] is a native item or the name of one. *)
Definition create_item (self : t) (item : RawItem.t + str)
    (force_progression : bool) : result Item.t :=
  let* item :=
    match item with
    | inl item => Ok item
    | inr name =>
        let* id := getitem (item_name_to_id cls) name in
        match id with
        | Some id => getitem (item_id_to_raw cls) id
        | None => Raise KeyError
        end
    end in
  let* code := getitem (item_name_to_id cls) (RawItem.name item) in
  Ok (Item.mk (RawItem.name item)
              (force_progression || RawItem.progression item)
              code (player self)).

(** The list comprehension of [create_items] over [_items]. *)
Fixpoint create_pool_items (self : t) (items : list RawItem.t)
  : result (list Item.t) :=
  match items with
  | [] => Ok []
  | item :: items' =>
      let* created :=
        create_item self (inl item) (restrict_item_placement self) in
      let* rest := create_pool_items self items' in
      Ok (created :: rest)
  end.

(** [create_items]: the outcome and the pool after the call; the
    pre-collected items are cleared before the items are created. *)
Definition create_items (self : t) (pool : ItemPool.t)
  : result unit * ItemPool.t :=
  let precollected :=
    match ItemPool.precollected_items pool with
    | inl l => inl l
    | inr d => inr (<[player self := []]> d)
    end in
  match create_pool_items self _items with
  | Ok created =>
      (Ok tt, ItemPool.mk (ItemPool.itempool pool ++ created) precollected)
  | Raise e => (Raise e, ItemPool.mk (ItemPool.itempool pool) precollected)
  end.

(** The body of the loop of [post_fill] on one location. *)
Definition post_fill_location (self : t) (location : Location.t)
  : result Location.t :=
  let* item := getattr (Location.item location) in
  let* clear :=
    match Item.code item with
    | None => Ok false
    | Some code =>
        if code =? 0 then Ok false
        else if negb (Item.player item =? player self) then Ok false
        else
          let* raw := getitem (item_id_to_raw cls) code in
          Ok (negb (RawItem.progression raw))
    end in
  if clear
  then Ok (Location.mk (Location.player location) (Location.name location)
             (Location.address location) (Location.event location)
             (Some (Item.mk (Item.name item) false (Item.code item)
                            (Item.player item)))
             (Location.locked location) (Location.access_rule location)
             (Location.item_rule location))
  else Ok location.

(** The loop of [post_fill] over the locations of one region; an
    exception leaves the locations it has not reached as they are. *)
Fixpoint post_fill_locations (self : t) (locations : list Location.t)
  : result unit * list Location.t :=
  match locations with
  | [] => (Ok tt, [])
  | location :: locations' =>
      match post_fill_location self location with
      | Raise e => (Raise e, location :: locations')
      | Ok location =>
          let '(r, locations') := post_fill_locations self locations' in
          (r, location :: locations')
      end
  end.

Fixpoint post_fill_regions (self : t) (regions : list Region.t)
  : result unit * list Region.t :=
  match regions with
  | [] => (Ok tt, [])
  | r :: regions' =>
      match post_fill_locations self (Region.locations r) with
      | (Ok _, locations) =>
          let '(res, regions') := post_fill_regions self regions' in
          (res, Region.mk (Region.name r) (Region.player r) (Region.exits r)
                          locations :: regions')
      | (Raise e, locations) =>
          (Raise e, Region.mk (Region.name r) (Region.player r)
                              (Region.exits r) locations :: regions')
      end
  end.

(** [post_fill]: the outcome and the world after the call. *)
Definition post_fill (self : t) (w : MultiWorld.t)
  : result unit * MultiWorld.t :=
  if restrict_item_placement self
  then
    let '(r, regions) := post_fill_regions self (MultiWorld.regions w) in
    (r, MultiWorld.with_regions regions w)
  else (Ok tt, w).

End WithEvermizer.
End SoE.

(** ** Vocabulary of the statements *)

(** The UTF-8 encoding of [s] exists and is at most 32 bytes long. *)
Definition fits (s : str) : Prop :=
  exists b, utf8 s = Some b /\ (length b <= 32)%nat.

(** Every character of [s] takes two bytes in UTF-8. *)
Definition two_byte_chars (s : str) : Prop :=
  Forall (fun c => 0x80 <= c < 0x800) s.

(** The reserved sub-range of a category, as its offset from the id
    base and its number of slots: alchemy at +0 with 50 slots, bosses at
    +50 with 50, gourds at +100 with 300, NPCs at +400 with 100. *)
Definition reserved_range (ev : pyevermizer.t) (type : Z) : option (Z * Z) :=
  if type =? pyevermizer.CHECK_ALCHEMY ev then Some (0, 50)
  else if type =? pyevermizer.CHECK_BOSS ev then Some (50, 50)
  else if type =? pyevermizer.CHECK_GOURD ev then Some (100, 300)
  else if type =? pyevermizer.CHECK_NPC ev then Some (400, 100)
  else None.

(** The index of an entry lies within the slots of its category. *)
Definition in_slots (ev : pyevermizer.t) (type index : Z) : Prop :=
  exists off n, reserved_range ev type = Some (off, n) /\ 0 <= index < n.

(** Modelled from the spec: the tables behind [pyevermizer.get_items]
    and [pyevermizer.get_locations] are not part of the sources.  The
    four categories are distinct constants, every entry keeps its index
    within the slots of its category (spec 6, "Numeric id ranges"), and
    category and index are the natural key of an entry (spec 3). *)
Definition catalog_wf (ev : pyevermizer.t) : Prop :=
  NoDup [pyevermizer.CHECK_ALCHEMY ev; pyevermizer.CHECK_BOSS ev;
         pyevermizer.CHECK_GOURD ev; pyevermizer.CHECK_NPC ev]
  /\ Forall (fun i => in_slots ev (RawItem.type i) (RawItem.index i))
            (pyevermizer.get_items ev)
  /\ NoDup (map (fun i => (RawItem.type i, RawItem.index i))
               (pyevermizer.get_items ev))
  /\ Forall (fun l => in_slots ev (RawLocation.type l) (RawLocation.index l))
            (pyevermizer.get_locations ev)
  /\ NoDup (map (fun l => (RawLocation.type l, RawLocation.index l))
               (pyevermizer.get_locations ev)).

(** The numeric id the mapping loops compute for an entry. *)
Definition item_id (ev : pyevermizer.t) (i : RawItem.t) : result Z :=
  SoE.apid ev (RawItem.type i) (RawItem.index i).

Definition location_id (ev : pyevermizer.t) (l : RawLocation.t) : result Z :=
  SoE.apid ev (RawLocation.type l) (RawLocation.index l).

(** The numeric id of a (type, index) pair is the offset of the category
    plus the index, and lies in the sub-range reserved for the category:
    alchemy 64000..64049, bosses 64050..64099, gourds 64100..64399,
    NPCs 64400..64499. *)
Definition id_in_reserved_range (ev : pyevermizer.t) (type index : Z) : Prop :=
  exists offset id,
    SoE._id_offset ev !! type = Some offset
    /\ SoE.apid ev type index = Ok id
    /\ id = offset + index
    /\ ((type = pyevermizer.CHECK_ALCHEMY ev
         /\ offset = SoE._id_base + 0 /\ 64000 <= id < 64050)
        \/ (type = pyevermizer.CHECK_BOSS ev
            /\ offset = SoE._id_base + 50 /\ 64050 <= id < 64100)
        \/ (type = pyevermizer.CHECK_GOURD ev
            /\ offset = SoE._id_base + 100 /\ 64100 <= id < 64400)
        \/ (type = pyevermizer.CHECK_NPC ev
            /\ offset = SoE._id_base + 400 /\ 64400 <= id < 64500)).

(** The state of a mapping loop after the entries [done]: every name
    leads to an id whose entry bears the name, and every id is the
    numeric id of its entry and is found again under the entry's name. *)
Definition mapping_inv {E : Type} (ename : E -> str) (eid : E -> result Z)
    (done : list E) (name_to_id : gmap str (option Z)) (id_to_raw : gmap Z E)
  : Prop :=
  (forall nm v, name_to_id !! nm = Some v ->
     exists n raw, v = Some n /\ id_to_raw !! n = Some raw /\ ename raw = nm)
  /\ (forall n raw, id_to_raw !! n = Some raw ->
       name_to_id !! ename raw = Some (Some n)
       /\ eid raw = Ok n /\ raw ∈ done).

(** The placement line of a location that holds an item of its own
    player: ["<loc_type>,<loc_index>:<item_type>,<item_index>\n"]. *)
Definition same_player_line (loc : RawLocation.t) (item : RawItem.t) : str :=
  str_of_Z (RawLocation.type loc) ++ py "," ++ str_of_Z (RawLocation.index loc)
  ++ py ":" ++ str_of_Z (RawItem.type item) ++ py ","
  ++ str_of_Z (RawItem.index item) ++ nl.

(** The placement line of a location that holds an item of another
    player: ["<loc_type>,<loc_index>:<NONE>,<item_code>,<owner>\n"]. *)
Definition foreign_line (ev : pyevermizer.t) (loc : RawLocation.t)
    (code owner : Z) : str :=
  str_of_Z (RawLocation.type loc) ++ py "," ++ str_of_Z (RawLocation.index loc)
  ++ py ":" ++ str_of_Z (pyevermizer.CHECK_NONE ev) ++ py ","
  ++ str_of_Z code ++ py "," ++ str_of_Z owner ++ nl.

(** The lines a location contributes to the placement file: none for a
    location of another player and for an event item, one otherwise. *)
Inductive placement_record (ev : pyevermizer.t) (cls : SoE.class_attrs)
    (self : SoE.t) : Location.t -> list str -> Prop :=
| record_other_player location :
    Location.player location <> SoE.player self ->
    placement_record ev cls self location []
| record_event location item :
    Location.player location = SoE.player self ->
    Location.item location = Some item ->
    Item.code item = None ->
    placement_record ev cls self location []
| record_same_player location item code address loc raw :
    Location.player location = SoE.player self ->
    Location.item location = Some item ->
    Item.code item = Some code ->
    Location.address location = Some address ->
    SoE.location_id_to_raw cls !! address = Some loc ->
    Item.player item = SoE.player self ->
    SoE.item_id_to_raw cls !! code = Some raw ->
    placement_record ev cls self location [same_player_line loc raw]
| record_foreign location item code address loc :
    Location.player location = SoE.player self ->
    Location.item location = Some item ->
    Item.code item = Some code ->
    Location.address location = Some address ->
    SoE.location_id_to_raw cls !! address = Some loc ->
    Item.player item <> SoE.player self ->
    placement_record ev cls self location
      [foreign_line ev loc code (Item.player item)].

(** A location of this player is resolved: it holds an item, and unless
    the item is an event the location has a native descriptor, and so
    has the item if it belongs to this player. *)
Definition resolved (cls : SoE.class_attrs) (self : SoE.t)
    (location : Location.t) : Prop :=
  Location.player location = SoE.player self ->
  exists item,
    Location.item location = Some item
    /\ forall code,
         Item.code item = Some code ->
         (exists address loc,
            Location.address location = Some address
            /\ SoE.location_id_to_raw cls !! address = Some loc)
         /\ (Item.player item = SoE.player self ->
             is_Some (SoE.item_id_to_raw cls !! code)).

(** A line is plain ASCII and has a single newline, at its end. *)
Definition well_formed_line (line : str) : Prop :=
  exists body, line = body ++ nl /\ Forall (fun c => 44 <= c <= 58) body.

(** What [get_location] compares: the name and the player. *)
Definition location_key (x : Location.t) : str * Z :=
  (Location.name x, Location.player x).

(** The location object that [create_regions] builds for a catalog
    location. *)
Definition created_location (cls : SoE.class_attrs) (self : SoE.t)
    (loc : RawLocation.t) : Location.t :=
  SoE.SoELocation (SoE.player self) (RawLocation.name loc)
    (default None (SoE.location_name_to_id cls !! RawLocation.name loc)).

(** No location of the world belongs to the player yet. *)
Definition fresh_player (self : SoE.t) (w : MultiWorld.t) : Prop :=
  Forall (fun x => Location.player x <> SoE.player self)
         (MultiWorld.get_locations w).

(** The four categories that have an id offset. *)
Definition categories (ev : pyevermizer.t) : list Z :=
  [pyevermizer.CHECK_ALCHEMY ev; pyevermizer.CHECK_BOSS ev;
   pyevermizer.CHECK_GOURD ev; pyevermizer.CHECK_NPC ev].

(** An item of this player with a code that is not zero. *)
Definition own_coded (self : SoE.t) (it : Item.t) : Prop :=
  Item.player it = SoE.player self
  /\ exists code, Item.code it = Some code /\ code <> 0.

(** A location that [post_fill] can handle: it holds an item, and the
    code of an item of this player is known to the class. *)
Definition post_fill_ready (cls : SoE.class_attrs) (self : SoE.t)
    (l : Location.t) : Prop :=
  exists it,
    Location.item l = Some it
    /\ forall code,
         Item.code it = Some code -> code <> 0 ->
         Item.player it = SoE.player self ->
         is_Some (SoE.item_id_to_raw cls !! code).

(** What [post_fill] does to a location: only the advancement flag of
    its item can change, and only for an item of this player with a
    nonzero code, which stays an advancement item only if its native
    item is a progression item. *)
Definition post_filled (cls : SoE.class_attrs) (self : SoE.t)
    (l l' : Location.t) : Prop :=
  Location.player l' = Location.player l
  /\ Location.name l' = Location.name l
  /\ Location.address l' = Location.address l
  /\ Location.event l' = Location.event l
  /\ Location.locked l' = Location.locked l
  /\ Location.access_rule l' = Location.access_rule l
  /\ Location.item_rule l' = Location.item_rule l
  /\ exists it it',
       Location.item l = Some it /\ Location.item l' = Some it'
       /\ Item.name it' = Item.name it
       /\ Item.code it' = Item.code it
       /\ Item.player it' = Item.player it
       /\ (~ own_coded self it -> it' = it)
       /\ (forall code raw,
             own_coded self it -> Item.code it = Some code ->
             SoE.item_id_to_raw cls !! code = Some raw ->
             Item.advancement it'
             = Item.advancement it && RawItem.progression raw).

(** The base of the output paths of a player. *)
Definition out_base (host : Host.t) (w : MultiWorld.t) (self : SoE.t)
    (output_directory player_name : str) : str :=
  Host.output_path host output_directory
    (py "AP_" ++ MultiWorld.seed_name w ++ py "_P"
     ++ str_of_Z (SoE.player self) ++ py "_" ++ player_name).

(** Everything the [try] block of [generate_output] reads before it
    calls the build tool is there: the two modifiers, the ROM path, the
    options of the flag string, resolved locations, the connect name and
    the seed. *)
Definition pipeline_ready (cls : SoE.class_attrs) (host : Host.t)
    (self : SoE.t) (w : MultiWorld.t)
    (money exp : Z) (rom flags connect_name : str) (seed : Z) : Prop :=
  (exists o, MultiWorld.get_option (py "money_modifier") (SoE.player self) w
             = Ok o /\ OptionValue.value o = money)
  /\ (exists o, MultiWorld.get_option (py "exp_modifier") (SoE.player self) w
                = Ok o /\ OptionValue.value o = exp)
  /\ Host.rom_file host = Ok rom
  /\ SoE.flags_loop self w (Host.soe_options host) (py "l") = Ok flags
  /\ Forall (resolved cls self) (MultiWorld.get_locations w)
  /\ SoE.connect_name self = Some connect_name
  /\ SoE.evermizer_seed self = Some seed.

(** The arguments [generate_output] passes to the build tool. *)
Definition build_args (host : Host.t) (w : MultiWorld.t) (self : SoE.t)
    (output_directory player_name : str)
    (money exp : Z) (rom flags connect_name : str) (seed : Z)
  : pyevermizer.main_args :=
  let base := out_base host w self output_directory player_name in
  pyevermizer.mk_args rom (base ++ py ".sfc") (base ++ py ".txt")
    (MultiWorld.seed_name w) connect_name seed flags money exp.




(** ** Sample inputs *)

(** A display name of 20 characters of two bytes each (U+00E9). *)
Definition name_20 : str := repeat 0xE9 20%nat.

(** A world in which player 1 is registered under [name_20]. *)
Definition world_20 : MultiWorld.t :=
  MultiWorld.mk [] ∅ {[1 := name_20]} (py "seed") ∅ [].

(** The connect-name table of the engine for [world_20]: the
    registered name maps to the payload [(0, 1)]. *)
Definition multidata_20 : gmap str (gmap str (Z * Z)) :=
  {[py "connect_names" := {[name_20 := (0, 1)]}]}.

(** A small catalog: two items share a name, and the two gourds share
    their native name before the fix-up of the texts. *)
Definition sample_main (a : pyevermizer.main_args) (fs : FS) : FS * Z :=
  (<[pyevermizer.out_file a := [83; 70; 67]]> fs, 0).

Definition sample_ev : pyevermizer.t :=
  pyevermizer.mk 0 1 2 3 4 11
    [RawItem.mk 1 0 (py "Flash") true;
     RawItem.mk 3 5 (py "Wings") false;
     RawItem.mk 3 6 (py "Wings") false]
    [RawLocation.mk 1 0 (py "Flash") [];
     RawLocation.mk 3 5 (py "Gourd") [(1, 7)];
     RawLocation.mk 3 6 (py "Gourd") [(2, 8); (1, 7)]]
    sample_main.

(** The class attributes built from the small catalog. *)
Definition sample_cls : SoE.class_attrs :=
  match SoE.SoEWorld_class sample_ev with
  | Ok cls => cls
  | Raise _ => SoE.mk_class ∅ ∅ ∅ ∅
  end.

(** The locations of a filled two-player world.  Player 1 holds an item
    of its own at 'Flash' and at 'Gourd #6', an item of player 2 at
    'Gourd #5', and the event at 'Done'; the last location belongs to
    player 2. *)
Definition sample_filled : list Location.t :=
  [Location.mk 1 (py "Flash") (Some 64000) false
     (Some (Item.mk (py "Wings") false (Some 64105) 1)) false
     (fun _ => true) (fun _ => Ok true);
   Location.mk 1 (py "Gourd #5") (Some 64105) false
     (Some (Item.mk (py "Foreign") true (Some 77) 2)) false
     (fun _ => true) (fun _ => Ok true);
   Location.mk 1 (py "Gourd #6") (Some 64106) false
     (Some (Item.mk (py "Flash") true (Some 64000) 1)) false
     (fun _ => true) (fun _ => Ok true);
   Location.mk 1 (py "Done") None true
     (Some (Item.mk (py "Victory") true None 1)) true
     (fun _ => true) (fun _ => Ok true);
   Location.mk 2 (py "Elsewhere") (Some 5) false
     (Some (Item.mk (py "Flash") true (Some 64000) 1)) false
     (fun _ => true) (fun _ => Ok true)].

(** A world in which player 1 is registered and has no region yet. *)
Definition sample_world : MultiWorld.t :=
  MultiWorld.mk [] ∅ {[1 := py "Hero"]} (py "seed") ∅ [7].

(** Player 1 in category-restricted placement mode. *)
Definition sample_restricted : SoE.t := SoE.mk 1 true None false None.

(** A host that writes below the output directory and whose compressor
    prefixes a tag byte. *)
Definition sample_host : Host.t :=
  Host.mk [py "difficulty"] (Ok (py "rom.sfc"))
          (fun directory name => directory ++ py "/" ++ name)
          (fun data => 253 :: data).

(** Player 1 after [generate_basic] drew the seed 7. *)
Definition sample_self : SoE.t := SoE.mk 1 false None false (Some 7).

(** The filled world with the options of player 1. *)
Definition sample_world_filled : MultiWorld.t :=
  MultiWorld.mk
    [Region.mk (py "Ingame") 1 [] sample_filled]
    ∅ {[1 := py "Hero"]} (py "seed")
    (<[py "money_modifier" := {[1 := OptionValue.mk 100 None]}]>
     (<[py "exp_modifier" := {[1 := OptionValue.mk 100 None]}]>
      {[py "difficulty" := {[1 := OptionValue.mk 1 (Some (py "n"))]}]}))
    [].

(** A build tool whose run fails after it has written its spoiler log
    and before it writes the output image. *)
Definition failing_main (a : pyevermizer.main_args) (fs : FS) : FS * Z :=
  (<[slice_to (-4) (pyevermizer.out_file a) ++ py "_SPOILER.log" := [76]]> fs,
   1).

Definition failing_ev : pyevermizer.t :=
  pyevermizer.mk 0 1 2 3 4 11
    (pyevermizer.get_items sample_ev) (pyevermizer.get_locations sample_ev)
    failing_main.

(** A catalog with a location of a type that has no id offset. *)
Definition untyped_ev : pyevermizer.t :=
  pyevermizer.mk 0 1 2 3 4 11 [] [RawLocation.mk 0 0 (py "Nowhere") []]
                 sample_main.

(** A world after a restricted fill: player 1 holds its 'Wings', forced
    to advancement at creation, and an item of player 2. *)
Definition sample_world_forced : MultiWorld.t :=
  MultiWorld.mk
    [Region.mk (py "Ingame") 1 []
       [Location.mk 1 (py "Flash") (Some 64000) false
          (Some (Item.mk (py "Wings") true (Some 64105) 1)) false
          (fun _ => true) (fun _ => Ok true);
        Location.mk 1 (py "Gourd #5") (Some 64105) false
          (Some (Item.mk (py "Foreign") true (Some 77) 2)) false
          (fun _ => true) (fun _ => Ok true)]]
    ∅ {[1 := py "Hero"]} (py "seed") ∅ [].

(** A world in which player 1 is registered under a lone surrogate. *)
Definition surrogate_world : MultiWorld.t :=
  MultiWorld.mk [] ∅ {[1 := [0xD800]]} (py "seed") ∅ [].

(** The filled world in which the option of the flag string has no
    entry for player 1. *)
Definition sample_world_unflagged : MultiWorld.t :=
  MultiWorld.mk
    [Region.mk (py "Ingame") 1 [] sample_filled]
    ∅ {[1 := py "Hero"]} (py "seed")
    (<[py "money_modifier" := {[1 := OptionValue.mk 100 None]}]>
     (<[py "exp_modifier" := {[1 := OptionValue.mk 100 None]}]>
      {[py "difficulty" := ∅]}))
    [40000; 70000].

(** A location of player 1 that the fill has left empty. *)
Definition sample_unfilled : Location.t :=
  Location.mk 1 (py "Gourd #7") (Some 64107) false None false
    (fun _ => true) (fun _ => Ok true).

(** * Properties *)

(** ** The Python runtime *)

Section Utf8.

Lemma utf8_char_length c b :
  utf8_char c = Some b -> (1 <= length b <= 4)%nat.
Proof.
  unfold utf8_char. intros H.
  repeat match type of H with
         | (if ?c then _ else _) = _ => destruct c
         end; inversion H; subst; simpl; lia.
Qed.

Lemma utf8_app s1 s2 :
  utf8 (s1 ++ s2) =
  match utf8 s1, utf8 s2 with
  | Some b1, Some b2 => Some (b1 ++ b2)
  | _, _ => None
  end.
Proof.
  induction s1 as [|c s1 IH]; simpl.
  - destruct (utf8 s2); reflexivity.
  - rewrite IH. destruct (utf8_char c), (utf8 s1), (utf8 s2); simpl;
      rewrite ?app_assoc; reflexivity.
Qed.

Lemma utf8_length s b :
  utf8 s = Some b -> (length s <= length b <= 4 * length s)%nat.
Proof.
  revert b. induction s as [|c s IH]; simpl; intros b H.
  - inversion H; subst; simpl; lia.
  - destruct (utf8_char c) as [bc|] eqn:Hc; [|discriminate].
    destruct (utf8 s) as [bs|]; [|discriminate].
    inversion H; subst. rewrite length_app.
    pose proof (utf8_char_length _ _ Hc). specialize (IH _ eq_refl). lia.
Qed.

Lemma utf8_prefix p s b :
  p `prefix_of` s -> utf8 s = Some b ->
  exists bp, utf8 p = Some bp /\ (length bp <= length b)%nat.
Proof.
  intros [k ->] H. rewrite utf8_app in H.
  destruct (utf8 p) as [bp|]; [|discriminate].
  destruct (utf8 k) as [bk|]; [|discriminate].
  inversion H; subst. exists bp. split; [reflexivity|].
  rewrite length_app. lia.
Qed.

Lemma utf8_two_byte s :
  two_byte_chars s ->
  exists b, utf8 s = Some b /\ length b = (2 * length s)%nat.
Proof.
  induction 1 as [|c s Hc _ (b & Hb & Hlen)]; simpl.
  - exists []. split; reflexivity.
  - rewrite Hb. unfold utf8_char.
    destruct (Z.ltb_spec c 0); [lia|].
    destruct (Z.ltb_spec c 128); [lia|].
    destruct (Z.ltb_spec c 2048); [|lia].
    eexists. split; [reflexivity|]. simpl. lia.
Qed.

Lemma fits_prefix p s : p `prefix_of` s -> fits s -> fits p.
Proof.
  intros Hp (b & Hb & Hle).
  destruct (utf8_prefix p s b Hp Hb) as (bp & Hbp & Hlen).
  exists bp. split; [assumption | lia].
Qed.

Lemma fits_length s : fits s -> (length s <= 32)%nat.
Proof. intros (b & Hb & Hle). pose proof (utf8_length _ _ Hb). lia. Qed.

Lemma slice_to_take {A} (n : nat) (s : list A) :
  slice_to (Z.of_nat n) s = take n s.
Proof.
  unfold slice_to. destruct (Z.ltb_spec (Z.of_nat n) 0); [lia|].
  now rewrite Nat2Z.id.
Qed.

Lemma slice_to_drop_last {A} (s : list A) :
  slice_to (-1) s = take (length s - 1) s.
Proof. unfold slice_to. simpl. f_equal. lia. Qed.

End Utf8.

(** ** Name finalization *)

Section NameFinalize.

(** One test of the loop condition that holds shortens the name by
    exactly one character. *)
Lemma shrink_step_shortens s b :
  utf8 s = Some b -> (32 < length b)%nat ->
  (length (slice_to (-1) s) + 1)%nat = length s.
Proof.
  intros Hb Hlong. rewrite slice_to_drop_last, length_take.
  destruct s; [inversion Hb; subst; simpl in Hlong; lia | simpl; lia].
Qed.

(** On an encodable name the loop returns the longest prefix that fits. *)
Lemma shrink_connect_name_spec fuel s :
  is_Some (utf8 s) -> (length s < fuel)%nat ->
  exists k, SoE.shrink_connect_name fuel s = Some (Ok tt, take k s)
            /\ (k <= length s)%nat
            /\ fits (take k s)
            /\ forall j, (j <= length s)%nat -> fits (take j s) -> (j <= k)%nat.
Proof.
  revert s. induction fuel as [|fuel IH]; intros s [b Hb] Hlen; [lia|].
  simpl. unfold encode. rewrite Hb.
  destruct (Z.ltb_spec 32 (Z.of_nat (length b))) as [Hlong|Hshort].
  - pose proof (shrink_step_shortens s b Hb ltac:(lia)) as Hstep.
    rewrite slice_to_drop_last in *. rewrite length_take in Hstep.
    destruct (utf8_prefix (take (length s - 1) s) s b) as (bp & Hbp & _);
      [apply prefix_take | assumption |].
    destruct (IH (take (length s - 1) s)) as (k & Hrun & Hk & Hfit & Hmax).
    { eauto. }
    { rewrite length_take. lia. }
    rewrite length_take in Hk, Hmax.
    rewrite take_take in Hrun, Hfit.
    replace (k `min` (length s - 1))%nat with k in * by lia.
    exists k. repeat split; [assumption | lia | assumption |].
    intros j Hj Hfj.
    assert (j <> length s).
    { intros ->. rewrite firstn_all in Hfj. destruct Hfj as (b' & Hb' & Hle).
      rewrite Hb in Hb'. inversion Hb'; subst. lia. }
    apply Hmax; [lia|]. rewrite take_take.
    replace (j `min` (length s - 1))%nat with j by lia. assumption.
  - exists (length s). rewrite firstn_all.
    repeat split; [lia | exists b; split; [assumption | lia] | auto].
Qed.

(** The finalized name on an encodable display name. *)
Lemma finalize_name_spec fuel self w name :
  MultiWorld.player_name w !! SoE.player self = Some name ->
  is_Some (utf8 (take 32 name)) ->
  (32 < fuel)%nat ->
  exists r,
    SoE.finalize_name fuel self w =
      Some (Ok name,
            SoE.set_connect_name_available_event (SoE.with_connect_name r self))
    /\ r `prefix_of` name
    /\ fits r
    /\ (forall p, p `prefix_of` name -> fits p -> p `prefix_of` r).
Proof.
  intros Hname Henc Hfuel.
  destruct (shrink_connect_name_spec fuel (take 32 name) Henc)
    as (k & Hrun & Hk & Hfit & Hmax).
  { rewrite length_take. lia. }
  exists (take k (take 32 name)).
  unfold SoE.finalize_name, MultiWorld.get_player_name, getitem. rewrite Hname.
  change 32 with (Z.of_nat 32). rewrite slice_to_take, Hrun.
  repeat split; [| assumption |].
  - etrans; apply prefix_take.
  - intros p Hp Hfp.
    pose proof (fits_length p Hfp) as Hlen.
    pose proof (prefix_length _ _ Hp) as Hlen'.
    assert (Hp32 : p = take (length p) (take 32 name)).
    { destruct Hp as [q ->]. rewrite take_take.
      replace (length p `min` 32)%nat with (length p) by lia.
      now rewrite take_app_length. }
    assert (length p <= k)%nat.
    { apply Hmax; [rewrite length_take; lia | now rewrite <- Hp32]. }
    rewrite Hp32.
    replace (length p) with (length p `min` k)%nat by lia.
    rewrite <- take_take. apply prefix_take.
Qed.

End NameFinalize.

(** C5: name finalization maps an encodable display name to the longest
    prefix of the name whose UTF-8 encoding is at most 32 bytes: the
    result is a prefix, it fits, and every prefix that fits is a prefix
    of it.  A name of 20 characters of two bytes each is cut to its
    first 16 characters, 32 bytes exactly. *)
Theorem finalize_name_longest_prefix fuel self w name :
  MultiWorld.player_name w !! SoE.player self = Some name ->
  is_Some (utf8 (take 32 name)) ->
  (32 < fuel)%nat ->
  exists r,
    SoE.finalize_name fuel self w =
      Some (Ok name,
            SoE.set_connect_name_available_event (SoE.with_connect_name r self))
    /\ r `prefix_of` name
    /\ fits r
    /\ (forall p, p `prefix_of` name -> fits p -> p `prefix_of` r)
    /\ (length name = 20%nat -> two_byte_chars name ->
        r = take 16 name
        /\ exists b, utf8 r = Some b /\ length b = 32%nat).
Proof.
  intros Hname Henc Hfuel.
  destruct (finalize_name_spec fuel self w name Hname Henc Hfuel)
    as (r & Hrun & Hpre & Hfit & Hmax).
  exists r. do 4 (split; [assumption|]).
  intros Hlen Htwo.
  assert (H16 : take 16 name `prefix_of` r).
  { apply Hmax; [apply prefix_take|].
    destruct (utf8_two_byte (take 16 name)) as (b & Hb & Hlb).
    { apply Forall_take, Htwo. }
    exists b. split; [assumption|]. rewrite Hlb, length_take. lia. }
  pose proof (prefix_length _ _ H16) as Hge. rewrite length_take in Hge.
  destruct (utf8_two_byte r) as (b & Hb & Hlb).
  { destruct Hpre as [q Hq]. unfold two_byte_chars in Htwo.
    rewrite Hq in Htwo. apply Forall_app in Htwo. tauto. }
  assert (Hr : (length r <= 16)%nat).
  { destruct Hfit as (b' & Hb' & Hle). rewrite Hb in Hb'.
    inversion Hb'; subst. lia. }
  split.
  - destruct H16 as [q Hq].
    assert (q = []).
    { apply nil_length_inv. apply (f_equal length) in Hq.
      rewrite length_app, length_take in Hq. lia. }
    subst q. now rewrite app_nil_r in Hq.
  - exists b. split; [assumption | lia].
Qed.

Lemma finalize_name_longest_prefix_witness :
  exists r,
    SoE.finalize_name 33 (SoE.__init__ 1) world_20 =
      Some (Ok name_20,
            SoE.set_connect_name_available_event
              (SoE.with_connect_name r (SoE.__init__ 1)))
    /\ r = take 16 name_20.
Proof.
  destruct (finalize_name_longest_prefix 33 (SoE.__init__ 1) world_20 name_20)
    as (r & Hrun & _ & _ & _ & H20).
  - reflexivity.
  - eexists. vm_compute. reflexivity.
  - lia.
  - exists r. split; [exact Hrun|].
    apply H20; [reflexivity|].
    unfold name_20, two_byte_chars. simpl. repeat constructor; lia.
Defined.

(** C10: the character-at-a-time loop terminates on every string.  The
    empty string fits the bound; an iteration whose test holds shortens
    the name by exactly one character; and [length s + 1] tests are
    enough: on an encodable name the loop ends with a name that fits,
    and otherwise it ends at its first test with the encoder's error. *)
Theorem shrink_connect_name_terminates (s : str) :
  fits []
  /\ (forall b, utf8 s = Some b -> (32 < length b)%nat ->
      (length (slice_to (-1) s) + 1)%nat = length s)
  /\ (forall fuel, (length s < fuel)%nat ->
      exists r s',
        SoE.shrink_connect_name fuel s = Some (r, s')
        /\ (is_Some (utf8 s) -> r = Ok tt /\ fits s')
        /\ (utf8 s = None -> r = Raise UnicodeEncodeError /\ s' = s)).
Proof.
  split; [exists []; split; [reflexivity | simpl; lia]|].
  split; [apply shrink_step_shortens|].
  intros fuel Hfuel. destruct (utf8 s) as [b|] eqn:Hb.
  - destruct (shrink_connect_name_spec fuel s) as (k & Hrun & _ & Hfit & _);
      [eauto | assumption |].
    exists (Ok tt), (take k s). split; [assumption|].
    split; [auto | discriminate].
  - destruct fuel as [|fuel]; [lia|].
    exists (Raise UnicodeEncodeError), s. simpl. unfold encode. rewrite Hb.
    split; [reflexivity|]. split; [intros [? ?]; discriminate | auto].
Qed.

Lemma shrink_connect_name_terminates_witness :
  exists r s',
    SoE.shrink_connect_name 21 name_20 = Some (r, s') /\ r = Ok tt /\ fits s'.
Proof.
  destruct (shrink_connect_name_terminates name_20) as (_ & _ & H).
  destruct (H 21%nat) as (r & s' & Hrun & Henc & _).
  - vm_compute. lia.
  - exists r, s'. split; [exact Hrun|].
    apply Henc. eexists. vm_compute. reflexivity.
Defined.

(** ** The rule compiler *)

(** C4: the compiled access rule returns true on a state if and only if
    the oracle [_soe_has token player count] holds for every
    [(count, token)] pair of the requirement list; the rule compiled
    from the empty list is true on every state. *)
Theorem make_rule_iff_all_requirements self requires state :
  (SoE.make_rule self requires state = true <->
   Forall (fun '(count, token) =>
             CollectionState._soe_has state token (SoE.player self) count
             = true) requires)
  /\ SoE.make_rule self [] state = true.
Proof.
  split; [|reflexivity].
  induction requires as [|[count token] requires IH]; simpl.
  - split; [constructor | reflexivity].
  - destruct (CollectionState._soe_has state token (SoE.player self) count)
      eqn:Hhas; simpl.
    + rewrite IH. split; [intros; constructor; assumption|].
      intros H. inversion H; assumption.
    + split; [discriminate|]. intros H. inversion H; subst. congruence.
Qed.

(** ** The connect-name handoff *)

Section Handoff.

(** A run of the loop that ends normally started from an encodable
    name, and ends with its longest prefix that fits. *)
Lemma shrink_connect_name_ok_inv fuel s r :
  SoE.shrink_connect_name fuel s = Some (Ok tt, r) ->
  is_Some (utf8 s)
  /\ r `prefix_of` s
  /\ fits r
  /\ (forall j, (j <= length s)%nat -> fits (take j s) -> (j <= length r)%nat).
Proof.
  revert s. induction fuel as [|fuel IH]; intros s; simpl; [discriminate|].
  unfold encode. destruct (utf8 s) as [b|] eqn:Hb; [|discriminate].
  destruct (Z.ltb_spec 32 (Z.of_nat (length b))) as [Hlong|Hshort].
  - intros Hrun. apply IH in Hrun as (_ & Hpre & Hfit & Hmax).
    rewrite slice_to_drop_last in *. rewrite length_take in Hmax.
    split; [eauto|]. split; [etrans; [exact Hpre | apply prefix_take]|].
    split; [assumption|].
    intros j Hj Hfj.
    assert (j <> length s).
    { intros ->. rewrite firstn_all in Hfj. destruct Hfj as (b' & Hb' & Hle).
      rewrite Hb in Hb'. inversion Hb'; subst. lia. }
    apply Hmax; [lia|]. rewrite take_take.
    replace (j `min` (length s - 1))%nat with j by lia. assumption.
  - intros Hrun. inversion Hrun; subst r.
    split; [eauto|]. split; [reflexivity|].
    split; [exists b; split; [assumption | lia] | auto].
Qed.

(** The finalized name is empty only if the display name is. *)
Lemma shrink_connect_name_nonempty fuel s r :
  SoE.shrink_connect_name fuel s = Some (Ok tt, r) -> r = [] -> s = [].
Proof.
  intros Hrun ->.
  apply shrink_connect_name_ok_inv in Hrun as ([b Hb] & _ & _ & Hmax).
  destruct s as [|c s]; [reflexivity|].
  specialize (Hmax 1%nat). simpl in Hmax.
  assert ((1 <= 0)%nat); [|lia].
  apply Hmax; [lia|].
  rewrite take_0. simpl in Hb.
  destruct (utf8_char c) as [bc|] eqn:Hc; [|discriminate].
  exists (bc ++ []). simpl. rewrite Hc. split; [reflexivity|].
  rewrite app_nil_r. pose proof (utf8_char_length _ _ Hc). lia.
Qed.

End Handoff.

(** C9: once name finalization has set the handoff event, the step on
    the shared connect-name table behaves as follows.  If the finalized
    name differs from the registered name, the registered key is removed
    and the finalized name is inserted with the payload the registered
    key held; every other key is kept.  If the two names are equal,
    [multidata] is unchanged. *)
Theorem modify_multidata_rewrites_key {Payload : Type}
    (fuel : nat) (self self' : SoE.t) (w : MultiWorld.t) (name : str)
    (multidata : gmap str (gmap str Payload)) (table : gmap str Payload)
    (payload : Payload) :
  MultiWorld.player_name w !! SoE.player self = Some name ->
  SoE.finalize_name fuel self w = Some (Ok name, self') ->
  multidata !! py "connect_names" = Some table ->
  table !! name = Some payload ->
  exists finalized,
    SoE.connect_name self' = Some finalized
    /\ SoE.modify_multidata self' w multidata =
       Some (Ok (if decide (finalized = name) then multidata
                 else <[py "connect_names" :=
                          delete name (<[finalized := payload]> table)]>
                        multidata)).
Proof.
  intros Hname Hfin Htable Hpayload.
  unfold SoE.finalize_name, MultiWorld.get_player_name, getitem in Hfin. rewrite Hname in Hfin.
  destruct (SoE.shrink_connect_name fuel (slice_to 32 name))
    as [[[[]|e] cn]|] eqn:Hrun; inversion Hfin; subst self'; clear Hfin.
  exists cn. split; [reflexivity|].
  assert (Hpl : forall x, SoE.player
                  (SoE.set_connect_name_available_event
                     (SoE.with_connect_name x self)) = SoE.player self)
    by reflexivity.
  unfold SoE.modify_multidata. simpl. unfold getitem.
  rewrite Hname. simpl.
  destruct (decide (cn = [])) as [Hnil|Hnn].
  - rewrite bool_decide_eq_true_2 by assumption. simpl.
    pose proof (shrink_connect_name_nonempty _ _ _ Hrun Hnil) as Hs.
    change 32 with (Z.of_nat 32) in Hs. rewrite slice_to_take in Hs.
    assert (name = []) by (destruct name; [reflexivity | discriminate]).
    subst. rewrite decide_True by reflexivity. reflexivity.
  - rewrite bool_decide_eq_false_2 by assumption. simpl.
    destruct (decide (cn = name)) as [Heq|Hne].
    + rewrite bool_decide_eq_true_2 by assumption. reflexivity.
    + rewrite bool_decide_eq_false_2 by assumption. simpl.
      rewrite Htable. simpl. rewrite Hpayload. simpl.
      rewrite lookup_insert_ne by assumption. rewrite Hpayload. reflexivity.
Qed.

Lemma modify_multidata_rewrites_key_witness :
  SoE.modify_multidata
    (SoE.set_connect_name_available_event
       (SoE.with_connect_name (take 16 name_20) (SoE.__init__ 1)))
    world_20 multidata_20
  = Some (Ok (<[py "connect_names" :=
                  delete name_20 (<[take 16 name_20 := (0, 1)]>
                                    {[name_20 := (0, 1)]})]>
                multidata_20)).
Proof.
  destruct (modify_multidata_rewrites_key 33 (SoE.__init__ 1)
              (SoE.set_connect_name_available_event
                 (SoE.with_connect_name (take 16 name_20) (SoE.__init__ 1)))
              world_20 name_20 multidata_20 {[name_20 := (0, 1)]} (0, 1))
    as (finalized & Hcn & Hrun).
  - reflexivity.
  - vm_compute. reflexivity.
  - reflexivity.
  - reflexivity.
  - simpl in Hcn. inversion Hcn; subst finalized.
    rewrite Hrun. rewrite decide_False; [reflexivity|].
    vm_compute. discriminate.
Defined.

(** ** The catalog adapter *)

Section CatalogIds.
Context (ev : pyevermizer.t).
Hypothesis Hcats :
  NoDup [pyevermizer.CHECK_ALCHEMY ev; pyevermizer.CHECK_BOSS ev;
         pyevermizer.CHECK_GOURD ev; pyevermizer.CHECK_NPC ev].

Lemma categories_distinct :
  pyevermizer.CHECK_ALCHEMY ev <> pyevermizer.CHECK_BOSS ev
  /\ pyevermizer.CHECK_ALCHEMY ev <> pyevermizer.CHECK_GOURD ev
  /\ pyevermizer.CHECK_ALCHEMY ev <> pyevermizer.CHECK_NPC ev
  /\ pyevermizer.CHECK_BOSS ev <> pyevermizer.CHECK_GOURD ev
  /\ pyevermizer.CHECK_BOSS ev <> pyevermizer.CHECK_NPC ev
  /\ pyevermizer.CHECK_GOURD ev <> pyevermizer.CHECK_NPC ev.
Proof.
  pose proof Hcats as Hc.
  apply NoDup_cons in Hc as [H1 Hc]. apply NoDup_cons in Hc as [H2 Hc].
  apply NoDup_cons in Hc as [H3 _]. set_solver.
Qed.

Lemma id_offset_reserved type off n :
  reserved_range ev type = Some (off, n) ->
  SoE._id_offset ev !! type = Some (SoE._id_base + off).
Proof.
  destruct categories_distinct as (? & ? & ? & ? & ? & ?).
  unfold reserved_range, SoE._id_offset.
  repeat match goal with
         | |- context [?a =? ?b] => destruct (Z.eqb_spec a b); subst
         end; intros Hr; inversion Hr; subst;
    repeat (rewrite lookup_insert_eq || rewrite lookup_insert_ne by congruence);
    reflexivity.
Qed.

Lemma apid_in_slots type index :
  in_slots ev type index ->
  exists off n,
    reserved_range ev type = Some (off, n)
    /\ SoE.apid ev type index = Ok (SoE._id_base + off + index)
    /\ SoE._id_base + off <= SoE._id_base + off + index < SoE._id_base + off + n.
Proof.
  intros (off & n & Hr & Hi). exists off, n. split; [assumption|].
  unfold SoE.apid, getitem. rewrite (id_offset_reserved _ _ _ Hr). simpl.
  split; [reflexivity | lia].
Qed.

Lemma apid_injective t1 i1 t2 i2 :
  in_slots ev t1 i1 -> in_slots ev t2 i2 ->
  SoE.apid ev t1 i1 = SoE.apid ev t2 i2 -> (t1, i1) = (t2, i2).
Proof.
  intros H1 H2 Heq.
  destruct (apid_in_slots _ _ H1) as (o1 & n1 & Hr1 & Ha1 & Hb1).
  destruct (apid_in_slots _ _ H2) as (o2 & n2 & Hr2 & Ha2 & Hb2).
  rewrite Ha1, Ha2 in Heq. inversion Heq as [Hid]. clear Heq Ha1 Ha2.
  unfold reserved_range in Hr1, Hr2. unfold SoE._id_base in *.
  repeat match goal with
         | H : context [?a =? ?b] |- _ => destruct (Z.eqb_spec a b)
         end; inversion Hr1; inversion Hr2; subst; try lia;
    f_equal; lia.
Qed.

Lemma apid_NoDup {E} (type index : E -> Z) (l : list E) :
  Forall (fun e => in_slots ev (type e) (index e)) l ->
  NoDup (map (fun e => (type e, index e)) l) ->
  NoDup (map (fun e => SoE.apid ev (type e) (index e)) l).
Proof.
  induction l as [|e l IH]; simpl; intros Hin Hkey; [constructor|].
  apply Forall_cons in Hin as [He Hin]. apply NoDup_cons in Hkey as [Hne Hkey].
  apply NoDup_cons. split; [|auto].
  intros Hdup. apply Hne.
  apply list_elem_of_In, in_map_iff in Hdup as (e' & Heq & He').
  apply list_elem_of_In, in_map_iff. exists e'. split; [|assumption].
  apply apid_injective; [| assumption | assumption].
  rewrite Forall_forall in Hin. apply Hin, list_elem_of_In, He'.
Qed.
End CatalogIds.

Section MappingInvariant.
Context {E : Type} (ename : E -> str) (eid : E -> result Z).

Lemma mapping_inv_empty : mapping_inv ename eid [] ∅ ∅.
Proof.
  split; intros ? ? H; rewrite lookup_empty in H; discriminate.
Qed.

(** An entry that the loop passes over. *)
Lemma mapping_inv_skip done e name_to_id id_to_raw :
  mapping_inv ename eid done name_to_id id_to_raw ->
  mapping_inv ename eid (done ++ [e]) name_to_id id_to_raw.
Proof.
  intros [HA HB]. split; [exact HA|].
  intros n raw H. destruct (HB n raw H) as (? & ? & ?).
  repeat split; try assumption. apply elem_of_app. now left.
Qed.

(** An entry that the loop registers under a fresh name and id. *)
Lemma mapping_inv_insert done e a name_to_id id_to_raw :
  mapping_inv ename eid done name_to_id id_to_raw ->
  eid e = Ok a ->
  name_to_id !! ename e = None ->
  (forall raw, raw ∈ done -> eid raw <> Ok a) ->
  mapping_inv ename eid (done ++ [e])
    (<[ename e := Some a]> name_to_id) (<[a := e]> id_to_raw).
Proof.
  intros [HA HB] He Hfresh Hid. split.
  - intros nm v Hnm. destruct (decide (ename e = nm)) as [<-|Hne].
    + rewrite lookup_insert_eq in Hnm. inversion Hnm; subst.
      exists a, e. rewrite lookup_insert_eq. auto.
    + rewrite lookup_insert_ne in Hnm by assumption.
      destruct (HA nm v Hnm) as (n & raw & -> & Hraw & Hname).
      exists n, raw. repeat split; try assumption.
      destruct (HB n raw Hraw) as (_ & Hn & Hdone).
      rewrite lookup_insert_ne; [assumption|].
      intros <-. exact (Hid raw Hdone Hn).
  - intros n raw Hn. destruct (decide (a = n)) as [<-|Hne].
    + rewrite lookup_insert_eq in Hn. inversion Hn; subst.
      rewrite lookup_insert_eq. repeat split; try assumption.
      apply elem_of_app. right. now apply list_elem_of_singleton.
    + rewrite lookup_insert_ne in Hn by assumption.
      destruct (HB n raw Hn) as (Hname & Hraw & Hdone).
      repeat split; try assumption.
      * rewrite lookup_insert_ne; [assumption|].
        intros Heq. rewrite <- Heq, Hfresh in Hname. discriminate.
      * apply elem_of_app. now left.
Qed.

(** With pairwise distinct names, the name of the next entry is fresh. *)
Lemma mapping_inv_fresh_name done e rest name_to_id id_to_raw :
  mapping_inv ename eid done name_to_id id_to_raw ->
  NoDup (map ename (done ++ e :: rest)) ->
  name_to_id !! ename e = None.
Proof.
  intros [HA HB] Hnd.
  destruct (name_to_id !! ename e) as [v|] eqn:Hv; [|reflexivity].
  destruct (HA _ _ Hv) as (n & raw & _ & Hraw & Hname).
  destruct (HB _ _ Hraw) as (_ & _ & Hdone).
  rewrite map_app in Hnd. apply NoDup_app in Hnd as (_ & Hdisj & _).
  exfalso. apply (Hdisj (ename e)).
  - rewrite <- Hname. apply list_elem_of_In, in_map, list_elem_of_In, Hdone.
  - simpl. apply list_elem_of_here.
Qed.

(** With pairwise distinct ids, the id of the next entry is fresh. *)
Lemma mapping_inv_fresh_id done e rest a :
  NoDup (map eid (done ++ e :: rest)) ->
  eid e = Ok a ->
  forall raw, raw ∈ done -> eid raw <> Ok a.
Proof.
  intros Hnd He raw Hdone Hraw.
  rewrite map_app in Hnd. apply NoDup_app in Hnd as (_ & Hdisj & _).
  apply (Hdisj (Ok a)).
  - rewrite <- Hraw. apply list_elem_of_In, in_map, list_elem_of_In, Hdone.
  - simpl. rewrite He. apply list_elem_of_here.
Qed.

End MappingInvariant.

Section Mappings.
Context (ev : pyevermizer.t).

Lemma fix_up_type loc :
  RawLocation.type (SoE.fix_up ev loc) = RawLocation.type loc.
Proof. unfold SoE.fix_up. destruct (_ =? _); reflexivity. Qed.

Lemma fix_up_index loc :
  RawLocation.index (SoE.fix_up ev loc) = RawLocation.index loc.
Proof. unfold SoE.fix_up. destruct (_ =? _); reflexivity. Qed.

Lemma fix_up_requires loc :
  RawLocation.requires (SoE.fix_up ev loc) = RawLocation.requires loc.
Proof. unfold SoE.fix_up. destruct (_ =? _); reflexivity. Qed.

Lemma locations_keys :
  map (fun l => (RawLocation.type l, RawLocation.index l)) (SoE._locations ev)
  = map (fun l => (RawLocation.type l, RawLocation.index l))
        (pyevermizer.get_locations ev).
Proof.
  unfold SoE._locations. rewrite map_map. apply map_ext.
  intros l. now rewrite fix_up_type, fix_up_index.
Qed.

Lemma locations_in_slots :
  Forall (fun l => in_slots ev (RawLocation.type l) (RawLocation.index l))
         (pyevermizer.get_locations ev) ->
  Forall (fun l => in_slots ev (RawLocation.type l) (RawLocation.index l))
         (SoE._locations ev).
Proof.
  unfold SoE._locations. intros H. apply Forall_map.
  eapply Forall_impl; [exact H|]. intros l Hl. simpl.
  now rewrite fix_up_type, fix_up_index.
Qed.

Lemma id_in_reserved_range_of_slots type index :
  NoDup [pyevermizer.CHECK_ALCHEMY ev; pyevermizer.CHECK_BOSS ev;
         pyevermizer.CHECK_GOURD ev; pyevermizer.CHECK_NPC ev] ->
  in_slots ev type index -> id_in_reserved_range ev type index.
Proof.
  intros Hcats Hin.
  destruct (apid_in_slots ev Hcats _ _ Hin) as (off & n & Hr & Ha & Hb).
  exists (SoE._id_base + off), (SoE._id_base + off + index).
  split; [now apply (id_offset_reserved ev Hcats _ _ n)|].
  split; [assumption|]. split; [reflexivity|].
  unfold reserved_range in Hr. unfold SoE._id_base in *.
  repeat match type of Hr with
         | context [?a =? ?b] => destruct (Z.eqb_spec a b)
         end; inversion Hr; subst off n; clear Hr.
  - left. repeat split; try assumption; lia.
  - right; left. repeat split; try assumption; lia.
  - right; right; left. repeat split; try assumption; lia.
  - right; right; right. repeat split; try assumption; lia.
Qed.

(** The location loop registers every entry when names and ids are
    pairwise distinct. *)
Lemma location_mapping_loop_inv rest :
  forall done name_to_id id_to_raw,
    Forall (fun l => exists a, location_id ev l = Ok a) rest ->
    NoDup (map RawLocation.name (done ++ rest)) ->
    NoDup (map (location_id ev) (done ++ rest)) ->
    mapping_inv RawLocation.name (location_id ev) done name_to_id id_to_raw ->
    exists name_to_id' id_to_raw',
      SoE.location_mapping_loop ev rest name_to_id id_to_raw
      = Ok (name_to_id', id_to_raw')
      /\ mapping_inv RawLocation.name (location_id ev) (done ++ rest)
                     name_to_id' id_to_raw'.
Proof.
  induction rest as [|loc rest IH]; intros done n2i i2r Hok Hnames Hids Hinv.
  - rewrite app_nil_r. simpl. eauto.
  - apply Forall_cons in Hok as [[a Ha] Hok]. simpl.
    unfold location_id in Ha. rewrite Ha. simpl.
    rewrite (cons_middle loc done rest), app_assoc in *.
    apply IH; try assumption.
    apply mapping_inv_insert; try assumption.
    + eapply mapping_inv_fresh_name; [exact Hinv|].
      rewrite <- app_assoc in Hnames. exact Hnames.
    + eapply mapping_inv_fresh_id; [|exact Ha].
      rewrite <- app_assoc in Hids. exact Hids.
Qed.

(** The item loop registers the first entry of every name when ids are
    pairwise distinct. *)
Lemma item_mapping_loop_inv rest :
  forall done name_to_id id_to_raw,
    Forall (fun i => exists a, item_id ev i = Ok a) rest ->
    NoDup (map (item_id ev) (done ++ rest)) ->
    mapping_inv RawItem.name (item_id ev) done name_to_id id_to_raw ->
    exists name_to_id' id_to_raw',
      SoE.item_mapping_loop ev rest name_to_id id_to_raw
      = Ok (name_to_id', id_to_raw')
      /\ mapping_inv RawItem.name (item_id ev) (done ++ rest)
                     name_to_id' id_to_raw'.
Proof.
  induction rest as [|item rest IH]; intros done n2i i2r Hok Hids Hinv.
  - rewrite app_nil_r. simpl. eauto.
  - apply Forall_cons in Hok as [[a Ha] Hok]. simpl.
    rewrite (cons_middle item done rest), app_assoc in *.
    destruct (n2i !! RawItem.name item) as [v|] eqn:Hv.
    + apply IH; try assumption. now apply mapping_inv_skip.
    + unfold item_id in Ha. rewrite Ha. simpl.
      apply IH; try assumption.
      apply mapping_inv_insert; try assumption.
      eapply mapping_inv_fresh_id; [|exact Ha].
      rewrite <- app_assoc in Hids. exact Hids.
Qed.

End Mappings.

(** On a catalog that keeps to its slots every id is defined, and the
    ids of the items, and those of the locations, are pairwise distinct. *)
Lemma numeric_id_ranges_aux (ev : pyevermizer.t) :
  catalog_wf ev ->
  Forall (fun i => exists a, item_id ev i = Ok a) (SoE._items ev)
  /\ Forall (fun l => exists a, location_id ev l = Ok a) (SoE._locations ev)
  /\ NoDup (map (item_id ev) (SoE._items ev))
  /\ NoDup (map (location_id ev) (SoE._locations ev)).
Proof.
  intros (Hcats & Hitems & Hikeys & Hlocs & Hlkeys).
  pose proof (locations_in_slots ev Hlocs) as Hlocs'.
  split; [|split; [|split]].
  - eapply Forall_impl; [exact Hitems|]. intros i Hin.
    destruct (apid_in_slots ev Hcats _ _ Hin) as (? & ? & _ & Ha & _).
    eexists. exact Ha.
  - eapply Forall_impl; [exact Hlocs'|]. intros l Hin.
    destruct (apid_in_slots ev Hcats _ _ Hin) as (? & ? & _ & Ha & _).
    eexists. exact Ha.
  - apply (apid_NoDup ev Hcats RawItem.type RawItem.index); assumption.
  - apply (apid_NoDup ev Hcats RawLocation.type RawLocation.index);
      [assumption|]. now rewrite locations_keys.
Qed.

Lemma sample_catalog_wf : catalog_wf sample_ev.
Proof.
  unfold catalog_wf, sample_ev; simpl.
  repeat split;
    try (apply (bool_decide_unpack _); vm_compute; exact I);
    repeat (apply Forall_cons; split;
            [eexists _, _; split; [reflexivity | simpl; lia]|]);
    apply Forall_nil_2.
Defined.

Lemma sample_location_names :
  NoDup (map RawLocation.name (SoE._locations sample_ev)).
Proof. apply (bool_decide_unpack _). vm_compute. exact I. Defined.

(** C2: the two mappings built for the items, and the two built for the
    locations, are mutual inverses away from the synthetic names.  Every
    name other than the synthetic one leads to an id whose entry is a
    catalog entry bearing that name; every id leads to an entry whose
    name leads back to the id; and 'Victory' and 'Done' map to [None]. *)
Theorem mappings_mutually_inverse (ev : pyevermizer.t) :
  catalog_wf ev ->
  NoDup (map RawLocation.name (SoE._locations ev)) ->
  exists cls,
    SoE.SoEWorld_class ev = Ok cls
    /\ (forall name id,
         name <> py "Victory" ->
         SoE.item_name_to_id cls !! name = Some id ->
         exists n raw,
           id = Some n /\ SoE.item_id_to_raw cls !! n = Some raw
           /\ RawItem.name raw = name /\ raw ∈ SoE._items ev)
    /\ (forall n raw,
         SoE.item_id_to_raw cls !! n = Some raw ->
         RawItem.name raw <> py "Victory" ->
         SoE.item_name_to_id cls !! RawItem.name raw = Some (Some n))
    /\ SoE.item_name_to_id cls !! py "Victory" = Some None
    /\ (forall name id,
         name <> py "Done" ->
         SoE.location_name_to_id cls !! name = Some id ->
         exists n raw,
           id = Some n /\ SoE.location_id_to_raw cls !! n = Some raw
           /\ RawLocation.name raw = name /\ raw ∈ SoE._locations ev)
    /\ (forall n raw,
         SoE.location_id_to_raw cls !! n = Some raw ->
         RawLocation.name raw <> py "Done" ->
         SoE.location_name_to_id cls !! RawLocation.name raw = Some (Some n))
    /\ SoE.location_name_to_id cls !! py "Done" = Some None.
Proof.
  intros Hwf Hnames.
  destruct (numeric_id_ranges_aux ev Hwf) as (Hi & Hl & Hni & Hnl).
  destruct (item_mapping_loop_inv ev (SoE._items ev) [] ∅ ∅)
    as (in2i & ii2r & Hirun & HiA & HiB);
    [exact Hi | exact Hni | apply mapping_inv_empty |].
  destruct (location_mapping_loop_inv ev (SoE._locations ev) [] ∅ ∅)
    as (ln2i & li2r & Hlrun & HlA & HlB);
    [exact Hl | exact Hnames | exact Hnl | apply mapping_inv_empty |].
  simpl in HiB, HlB.
  eexists. split.
  { unfold SoE.SoEWorld_class, SoE._get_item_mapping,
      SoE._get_location_mapping.
    rewrite Hirun, Hlrun. simpl. reflexivity. }
  simpl. repeat split.
  - intros name id Hne Hlook. rewrite lookup_insert_ne in Hlook by congruence.
    destruct (HiA _ _ Hlook) as (n & raw & -> & Hraw & Hname).
    exists n, raw. repeat split; try assumption. now apply (HiB n raw).
  - intros n raw Hraw Hne. rewrite lookup_insert_ne by congruence.
    now apply (HiB n raw).
  - apply lookup_insert_eq.
  - intros name id Hne Hlook. rewrite lookup_insert_ne in Hlook by congruence.
    destruct (HlA _ _ Hlook) as (n & raw & -> & Hraw & Hname).
    exists n, raw. repeat split; try assumption. now apply (HlB n raw).
  - intros n raw Hraw Hne. rewrite lookup_insert_ne by congruence.
    now apply (HlB n raw).
  - apply lookup_insert_eq.
Qed.

Lemma mappings_mutually_inverse_witness :
  exists cls,
    SoE.SoEWorld_class sample_ev = Ok cls
    /\ SoE.item_name_to_id cls !! py "Wings" = Some (Some 64105)
    /\ SoE.location_name_to_id cls !! py "Done" = Some None.
Proof.
  destruct (mappings_mutually_inverse sample_ev
              sample_catalog_wf sample_location_names)
    as (cls & Hcls & _ & Hkey & _ & _ & _ & Hdone).
  exists cls. split; [exact Hcls|]. split; [|exact Hdone].
  apply (Hkey 64105 (RawItem.mk 3 5 (py "Wings") false)).
  - vm_compute in Hcls. inversion Hcls; subst cls. vm_compute. reflexivity.
  - vm_compute. discriminate.
Defined.

(** ** The placement file *)

Section Placement.

Lemma utf8_ascii s : Forall (fun c => 0 <= c < 128) s -> utf8 s = Some s.
Proof.
  induction 1 as [|c s Hc _ IH]; simpl; [reflexivity|].
  rewrite IH. unfold utf8_char.
  destruct (Z.ltb_spec c 0); [lia|].
  destruct (Z.ltb_spec c 128); [|lia]. reflexivity.
Qed.

Lemma string_of_uint_digits d :
  Forall (fun c => 48 <= c <= 57) (py (NilEmpty.string_of_uint d)).
Proof.
  induction d; simpl; constructor; try assumption; simpl; lia.
Qed.

Lemma str_of_Z_chars n : Forall (fun c => 45 <= c <= 57) (str_of_Z n).
Proof.
  assert (Hu : forall d, Forall (fun c => 45 <= c <= 57)
                           (py (NilZero.string_of_uint d))).
  { intros d. unfold NilZero.string_of_uint.
    assert (Forall (fun c => 45 <= c <= 57) (py (NilEmpty.string_of_uint d))).
    { eapply Forall_impl; [apply string_of_uint_digits|].
      intros c Hc. cbv beta in *. lia. }
    destruct d; try assumption.
    constructor; [vm_compute; split; discriminate | constructor]. }
  unfold str_of_Z, NilZero.string_of_int.
  destruct (Z.to_int n); [apply Hu|].
  change (py (String "-" (NilZero.string_of_uint d)))
    with (Z.of_N (N_of_ascii "-") :: py (NilZero.string_of_uint d)).
  constructor; [vm_compute; split; discriminate | apply Hu].
Qed.

Lemma separator_chars :
  Forall (fun c => 44 <= c <= 58) (py ",")
  /\ Forall (fun c => 44 <= c <= 58) (py ":").
Proof.
  split; (constructor; [vm_compute; split; discriminate | constructor]).
Qed.

Lemma str_of_Z_body n : Forall (fun c => 44 <= c <= 58) (str_of_Z n).
Proof.
  eapply Forall_impl; [apply str_of_Z_chars|].
  intros c Hc. cbv beta in *. lia.
Qed.

Lemma same_player_line_wf loc item :
  well_formed_line (same_player_line loc item).
Proof.
  destruct separator_chars as [Hcomma Hcolon].
  eexists. unfold same_player_line. split.
  - rewrite !app_assoc. reflexivity.
  - repeat apply Forall_app_2; auto using str_of_Z_body.
Qed.

Lemma foreign_line_wf ev loc code owner :
  well_formed_line (foreign_line ev loc code owner).
Proof.
  destruct separator_chars as [Hcomma Hcolon].
  eexists. unfold foreign_line. split.
  - rewrite !app_assoc. reflexivity.
  - repeat apply Forall_app_2; auto using str_of_Z_body.
Qed.

Lemma well_formed_line_encode line :
  well_formed_line line -> encode line = Ok line.
Proof.
  intros (body & -> & Hbody). unfold encode. rewrite utf8_ascii; [reflexivity|].
  apply Forall_app_2.
  - eapply Forall_impl; [exact Hbody|]. intros c Hc. cbv beta in *. lia.
  - constructor; [lia | constructor].
Qed.

Lemma well_formed_line_newline line :
  well_formed_line line -> exists body, line = body ++ nl /\ 10 ∉ body.
Proof.
  intros (body & -> & Hbody). exists body. split; [reflexivity|].
  intros Hin. rewrite Forall_forall in Hbody. specialize (Hbody _ Hin). lia.
Qed.

End Placement.

Section PlacementLoop.
Context (ev : pyevermizer.t) (cls : SoE.class_attrs) (self : SoE.t).

Lemma with_fs_with_fs f g s :
  Pipeline.with_fs f (Pipeline.with_fs g s) = Pipeline.with_fs f s.
Proof. reflexivity. Qed.

(** The loop body on a resolved location: the record it contributes and
    the line the code computes. *)
Lemma placement_line_resolved location :
  Location.player location = SoE.player self ->
  resolved cls self location ->
  exists record,
    placement_record ev cls self location record
    /\ SoE.placement_line ev cls self location = Ok (head record)
    /\ (length record <= 1)%nat.
Proof.
  intros Hplayer Hres. destruct (Hres Hplayer) as (item & Hitem & Hcode).
  unfold SoE.placement_line. rewrite Hitem. simpl.
  destruct (Item.code item) as [code|] eqn:Hc.
  - destruct (Hcode code eq_refl) as ((address & loc & Haddr & Hloc) & Hraw).
    rewrite Haddr. unfold getitem. rewrite Hloc. simpl.
    destruct (Z.eqb_spec (Item.player item) (SoE.player self)) as [Heq|Hne];
      simpl.
    + destruct (Hraw Heq) as [raw Hr]. rewrite Hr. simpl.
      exists [same_player_line loc raw]. split; [|split; [reflexivity | simpl; lia]].
      eapply record_same_player; eassumption.
    + exists [foreign_line ev loc code (Item.player item)].
      split; [|split; [reflexivity | simpl; lia]].
      eapply record_foreign; eassumption.
  - exists []. split; [|split; [reflexivity | simpl; lia]].
    eapply record_event; eassumption.
Qed.

Lemma placement_record_wf location record :
  placement_record ev cls self location record ->
  Forall well_formed_line record.
Proof.
  destruct 1; repeat constructor;
    auto using same_player_line_wf, foreign_line_wf.
Qed.

End PlacementLoop.

(** C1: the placement loop writes, for every location of this player
    whose item has a code, exactly one line to the open placement file,
    and nothing for the locations of other players and for event items.
    The line of an item of this player is
    "<loc_type>,<loc_index>:<item_type>,<item_index>" and the line of an
    item of another player is
    "<loc_type>,<loc_index>:<CHECK_NONE>,<item_code>,<item_player>";
    every line ends with its only newline. *)
Theorem write_placement_one_line_per_item
    (ev : pyevermizer.t) (cls : SoE.class_attrs) (self : SoE.t)
    (f : str) (locations : list Location.t) (s : Pipeline.state)
    (old : bytes) :
  Pipeline.fs s !! f = Some old ->
  Forall (resolved cls self) locations ->
  exists records : list (list str),
    Forall2 (placement_record ev cls self) locations records
    /\ SoE.write_placement ev cls self f locations s
       = (Ok tt,
          Pipeline.with_fs
            (<[f := old ++ concat (concat records)]> (Pipeline.fs s)) s)
    /\ Forall (fun line => exists body, line = body ++ nl /\ 10 ∉ body)
              (concat records).
Proof.
  intros Hold Hres. revert s old Hold.
  induction Hres as [|location locations Hloc _ IH]; intros s old Hold.
  - exists []. split; [constructor|]. split; [|constructor].
    simpl. rewrite app_nil_r, insert_id by assumption.
    destruct s; reflexivity.
  - simpl.
    destruct (Z.eqb_spec (Location.player location) (SoE.player self))
      as [Hplayer|Hplayer].
    + destruct (placement_line_resolved ev cls self location Hplayer Hloc)
        as (record & Hrec & Hline & Hlen).
      pose proof (placement_record_wf ev cls self _ _ Hrec) as Hwf.
      unfold Pipeline.bind at 1. unfold Pipeline.lift at 1. rewrite Hline.
      destruct record as [|line [|? ?]]; simpl in Hlen; [| |lia]; simpl.
      * destruct (IH s old Hold) as (records & Hall & Hrun & Hnl).
        exists ([] :: records). split; [constructor; assumption|].
        split; [exact Hrun | exact Hnl].
      * apply Forall_cons in Hwf as [Hwf _].
        unfold Pipeline.bind at 1. unfold Pipeline.lift at 1.
        rewrite (well_formed_line_encode _ Hwf).
        unfold Pipeline.bind at 1. unfold Pipeline.write at 1.
        rewrite Hold. simpl.
        destruct (IH (Pipeline.with_fs (<[f := old ++ line]> (Pipeline.fs s)) s)
                     (old ++ line)) as (records & Hall & Hrun & Hnl).
        { simpl. apply lookup_insert_eq. }
        exists ([line] :: records). split; [constructor; assumption|].
        split.
        -- rewrite Hrun. simpl. rewrite insert_insert_eq, <- app_assoc.
           reflexivity.
        -- simpl. constructor; [|exact Hnl].
           now apply well_formed_line_newline.
    + destruct (IH s old Hold) as (records & Hall & Hrun & Hnl).
      exists ([] :: records).
      split; [constructor; [now apply record_other_player | assumption]|].
      split; [exact Hrun | exact Hnl].
Qed.

Lemma sample_filled_resolved :
  Forall (resolved sample_cls (SoE.__init__ 1)) sample_filled.
Proof.
  unfold sample_filled.
  repeat (apply Forall_cons; split); try apply Forall_nil_2;
    intros Hplayer; try discriminate Hplayer;
    (eexists; split; [reflexivity|]);
    intros code Hcode; try discriminate Hcode;
    injection Hcode as <-;
    (split; [eexists _, _; split; [reflexivity | vm_compute; reflexivity]
            | intros Hown; try discriminate Hown;
              eexists; vm_compute; reflexivity]).
Defined.

Lemma write_placement_one_line_per_item_witness :
  exists records : list (list str),
    Forall2 (placement_record sample_ev sample_cls (SoE.__init__ 1))
            sample_filled records
    /\ SoE.write_placement sample_ev sample_cls (SoE.__init__ 1) (py "p.txt")
         sample_filled (Pipeline.mk {[py "p.txt" := []]} None None)
       = (Ok tt,
          Pipeline.mk (<[py "p.txt" := concat (concat records)]>
                         {[py "p.txt" := []]}) None None).
Proof.
  destruct (write_placement_one_line_per_item sample_ev sample_cls
              (SoE.__init__ 1) (py "p.txt") sample_filled
              (Pipeline.mk {[py "p.txt" := []]} None None) [])
    as (records & Hall & Hrun & _).
  - vm_compute. reflexivity.
  - exact sample_filled_resolved.
  - exists records. split; [exact Hall | exact Hrun].
Defined.

(** The placement file of the filled sample world: one line for each of
    the three items with a code that player 1 holds. *)
Example sample_placement_file :
  SoE.write_placement sample_ev sample_cls (SoE.__init__ 1) (py "p.txt")
    sample_filled (Pipeline.mk {[py "p.txt" := []]} None None)
  = (Ok tt,
     Pipeline.mk {[py "p.txt" :=
                     py "1,0:3,5" ++ nl ++ py "3,5:0,77,2" ++ nl
                     ++ py "3,6:1,0" ++ nl]} None None).
Proof. vm_compute. reflexivity. Qed.

(** ** The engine's world *)

Section AlterFirst.
Context {A : Type} (P : A -> bool) (f : A -> A).

Lemma alter_first_app (l1 l2 : list A) :
  MultiWorld.alter_first P f (l1 ++ l2) =
  match MultiWorld.alter_first P f l1 with
  | Some l1' => Some (l1' ++ l2)
  | None =>
      match MultiWorld.alter_first P f l2 with
      | Some l2' => Some (l1 ++ l2')
      | None => None
      end
  end.
Proof.
  induction l1 as [|x l1 IH]; simpl.
  - destruct (MultiWorld.alter_first P f l2); reflexivity.
  - destruct (P x); [reflexivity|]. rewrite IH.
    destruct (MultiWorld.alter_first P f l1); [reflexivity|].
    destruct (MultiWorld.alter_first P f l2); reflexivity.
Qed.

Lemma alter_first_none (l : list A) :
  Forall (fun x => P x = false) l -> MultiWorld.alter_first P f l = None.
Proof.
  induction 1 as [|x l Hx _ IH]; simpl; [reflexivity|].
  now rewrite Hx, IH.
Qed.

Lemma alter_first_hit (l1 l2 : list A) (x : A) :
  Forall (fun y => P y = false) l1 -> P x = true ->
  MultiWorld.alter_first P f (l1 ++ x :: l2) = Some (l1 ++ f x :: l2).
Proof.
  intros Hl1 Hx. rewrite alter_first_app, alter_first_none by assumption.
  simpl. now rewrite Hx.
Qed.

Lemma find_hit (l1 l2 : list A) (x : A) :
  Forall (fun y => P y = false) l1 -> P x = true ->
  find P (l1 ++ x :: l2) = Some x.
Proof.
  induction 1 as [|y l1 Hy _ IH]; simpl; intros Hx.
  - now rewrite Hx.
  - rewrite Hy. auto.
Qed.

End AlterFirst.

Section Nested.
Context (P : Location.t -> bool) (f : Location.t -> Location.t).

Lemma alter_location_flat (rs : list Region.t) :
  match MultiWorld.alter_location P f rs with
  | Some rs' =>
      MultiWorld.alter_first P f (concat (map Region.locations rs))
      = Some (concat (map Region.locations rs'))
      /\ map Region.exits rs' = map Region.exits rs
      /\ map Region.name rs' = map Region.name rs
      /\ map Region.player rs' = map Region.player rs
  | None =>
      MultiWorld.alter_first P f (concat (map Region.locations rs)) = None
  end.
Proof.
  induction rs as [|r rs IH]; simpl; [reflexivity|].
  rewrite alter_first_app.
  destruct (MultiWorld.alter_first P f (Region.locations r)) as [ls|];
    simpl; [auto|].
  destruct (MultiWorld.alter_location P f rs) as [rs'|].
  - destruct IH as (IH1 & IH2 & IH3 & IH4). rewrite IH1. simpl.
    rewrite IH2, IH3, IH4. auto.
  - now rewrite IH.
Qed.
End Nested.

Section NestedE.
Context (P : Entrance.t -> bool) (f : Entrance.t -> Entrance.t).

Lemma alter_entrance_flat (rs : list Region.t) :
  match MultiWorld.alter_entrance P f rs with
  | Some rs' =>
      MultiWorld.alter_first P f (concat (map Region.exits rs))
      = Some (concat (map Region.exits rs'))
      /\ map Region.locations rs' = map Region.locations rs
      /\ map Region.name rs' = map Region.name rs
      /\ map Region.player rs' = map Region.player rs
  | None =>
      MultiWorld.alter_first P f (concat (map Region.exits rs)) = None
  end.
Proof.
  induction rs as [|r rs IH]; simpl; [reflexivity|].
  rewrite alter_first_app.
  destruct (MultiWorld.alter_first P f (Region.exits r)) as [ls|];
    simpl; [auto|].
  destruct (MultiWorld.alter_entrance P f rs) as [rs'|].
  - destruct IH as (IH1 & IH2 & IH3 & IH4). rewrite IH1. simpl.
    rewrite IH2, IH3, IH4. auto.
  - now rewrite IH.
Qed.
End NestedE.

(** The flat view of [update_location]. *)
Lemma update_location_flat name player f w ls :
  MultiWorld.alter_first (MultiWorld.is_location name player) f
    (MultiWorld.get_locations w) = Some ls ->
  exists w',
    MultiWorld.update_location name player f w = Ok w'
    /\ MultiWorld.get_locations w' = ls
    /\ MultiWorld.get_entrances w' = MultiWorld.get_entrances w
    /\ MultiWorld.completion_condition w' = MultiWorld.completion_condition w
    /\ MultiWorld.random w' = MultiWorld.random w.
Proof.
  intros Hls. unfold MultiWorld.update_location.
  pose proof (alter_location_flat (MultiWorld.is_location name player) f
                (MultiWorld.regions w)) as H.
  unfold MultiWorld.get_locations in Hls.
  destruct (MultiWorld.alter_location _ f (MultiWorld.regions w)) as [rs'|].
  - destruct H as (H & He & _). rewrite Hls in H. inversion H; subst.
    eexists. split; [reflexivity|].
    unfold MultiWorld.get_locations, MultiWorld.get_entrances. simpl.
    rewrite He. auto.
  - congruence.
Qed.

Lemma update_entrance_flat name player f w es :
  MultiWorld.alter_first (MultiWorld.is_entrance name player) f
    (MultiWorld.get_entrances w) = Some es ->
  exists w',
    MultiWorld.update_entrance name player f w = Ok w'
    /\ MultiWorld.get_entrances w' = es
    /\ MultiWorld.get_locations w' = MultiWorld.get_locations w
    /\ MultiWorld.completion_condition w' = MultiWorld.completion_condition w
    /\ MultiWorld.random w' = MultiWorld.random w.
Proof.
  intros Hes. unfold MultiWorld.update_entrance.
  pose proof (alter_entrance_flat (MultiWorld.is_entrance name player) f
                (MultiWorld.regions w)) as H.
  unfold MultiWorld.get_entrances in Hes.
  destruct (MultiWorld.alter_entrance _ f (MultiWorld.regions w)) as [rs'|].
  - destruct H as (H & He & _). rewrite Hes in H. inversion H; subst.
    eexists. split; [reflexivity|].
    unfold MultiWorld.get_locations, MultiWorld.get_entrances. simpl.
    rewrite He. auto.
  - congruence.
Qed.

Lemma is_location_key name player x :
  MultiWorld.is_location name player x = true <-> location_key x = (name, player).
Proof.
  unfold MultiWorld.is_location, location_key.
  rewrite andb_true_iff, bool_decide_eq_true, Z.eqb_eq.
  split; [intros [-> ->]; reflexivity | intros [= -> ->]; auto].
Qed.

Lemma is_location_false name player x :
  location_key x <> (name, player) ->
  MultiWorld.is_location name player x = false.
Proof.
  intros H. destruct (MultiWorld.is_location name player x) eqn:E;
    [|reflexivity].
  apply is_location_key in E. contradiction.
Qed.

Lemma no_match_of_keys name player (l : list Location.t) :
  (name, player) ∉ map location_key l ->
  Forall (fun x => MultiWorld.is_location name player x = false) l.
Proof.
  intros H. apply Forall_forall. intros x Hx. apply is_location_false.
  intros Heq. apply H. rewrite <- Heq.
  apply list_elem_of_In, in_map, list_elem_of_In, Hx.
Qed.

Section KeyPreserving.
Context (f : Location.t -> Location.t).
Hypothesis f_key : forall x, location_key (f x) = location_key x.

(** An update by name finds its location in [pre] when the key is
    there, changes no key and leaves the rest of the list alone. *)
Lemma alter_first_in_prefix name player (pre rest : list Location.t) :
  (name, player) ∈ map location_key pre ->
  exists pre',
    MultiWorld.alter_first (MultiWorld.is_location name player) f (pre ++ rest)
    = Some (pre' ++ rest)
    /\ map location_key pre' = map location_key pre.
Proof.
  induction pre as [|x pre IH]; simpl; intros Hin.
  - apply elem_of_nil in Hin. contradiction.
  - destruct (MultiWorld.is_location name player x) eqn:Hx.
    + exists (f x :: pre). simpl. now rewrite f_key.
    + apply elem_of_cons in Hin as [Heq|Hin].
      * symmetry in Heq. apply is_location_key in Heq. congruence.
      * destruct (IH Hin) as (pre' & -> & Hkeys).
        exists (x :: pre'). simpl. now rewrite Hkeys.
Qed.
End KeyPreserving.

Section World.
Context (ev : pyevermizer.t) (cls : SoE.class_attrs) (self : SoE.t).

Lemma location_rules_key loc x :
  location_key (SoE.location_rules cls self loc x) = location_key x.
Proof.
  unfold SoE.location_rules. destruct (SoE.restrict_item_placement self);
    reflexivity.
Qed.

Lemma created_location_key loc :
  location_key (created_location cls self loc)
  = (RawLocation.name loc, SoE.player self).
Proof. reflexivity. Qed.

Lemma fresh_player_keys w name :
  fresh_player self w ->
  (name, SoE.player self) ∉ map location_key (MultiWorld.get_locations w).
Proof.
  intros Hfresh Hin. apply list_elem_of_In, in_map_iff in Hin as (x & Hk & Hx).
  unfold fresh_player in Hfresh. rewrite Forall_forall in Hfresh.
  apply list_elem_of_In in Hx. specialize (Hfresh x Hx).
  inversion Hk. contradiction.
Qed.

Lemma create_locations_ok locs :
  Forall (fun loc => is_Some (SoE.location_name_to_id cls
                                !! RawLocation.name loc)) locs ->
  SoE.create_locations cls self locs
  = Ok (map (created_location cls self) locs).
Proof.
  induction 1 as [|loc locs [a Ha] _ IH]; simpl; [reflexivity|].
  unfold getitem. rewrite Ha. simpl. rewrite IH. simpl.
  unfold created_location. now rewrite Ha.
Qed.

Lemma is_region_mk name player exits locations :
  MultiWorld.is_region name player (Region.mk name player exits locations)
  = true.
Proof.
  unfold MultiWorld.is_region. cbn [Region.name Region.player].
  rewrite bool_decide_eq_true_2 by reflexivity. apply Z.eqb_refl.
Qed.

Lemma is_entrance_new name player :
  MultiWorld.is_entrance name player (new_entrance player name) = true.
Proof.
  unfold MultiWorld.is_entrance, new_entrance.
  cbn [Entrance.name Entrance.player].
  rewrite bool_decide_eq_true_2 by reflexivity. apply Z.eqb_refl.
Qed.

Lemma alter_first_is_Some {A} (P : A -> bool) (f : A -> A) (l : list A) :
  Exists (fun x => P x = true) l ->
  (forall x, P (f x) = P x) ->
  exists l', MultiWorld.alter_first P f l = Some l'
             /\ Exists (fun x => P x = true) l'.
Proof.
  intros Hex Hf. induction Hex as [x l Hx|x l _ IH]; simpl.
  - rewrite Hx. eexists. split; [reflexivity|]. constructor. now rewrite Hf.
  - destruct (P x) eqn:Hx.
    + eexists. split; [reflexivity|]. constructor. now rewrite Hf.
    + destruct IH as (l' & -> & Hl'). eexists. split; [reflexivity|].
      now apply Exists_cons_tl.
Qed.

(** [create_regions] appends the locations of the catalog and 'Done' to
    the locations of the world, and leaves an entrance 'New Game'. *)
Lemma create_regions_flat w :
  Forall (fun loc => is_Some (SoE.location_name_to_id cls
                                !! RawLocation.name loc))
         (SoE._locations ev) ->
  exists w',
    SoE.create_regions ev cls self w = Ok w'
    /\ MultiWorld.get_locations w'
       = (MultiWorld.get_locations w
          ++ map (created_location cls self) (SoE._locations ev))
         ++ [SoE.SoELocation (SoE.player self) (py "Done") None]
    /\ Exists (fun e => MultiWorld.is_entrance (py "New Game")
                          (SoE.player self) e = true)
              (MultiWorld.get_entrances w')
    /\ MultiWorld.completion_condition w' = MultiWorld.completion_condition w
    /\ MultiWorld.random w' = MultiWorld.random w.
Proof.
  intros Hmapped. unfold SoE.create_regions.
  rewrite (create_locations_ok _ Hmapped). simpl.
  set (menu := Region.mk (py "Menu") (SoE.player self)
                 [new_entrance (SoE.player self) (py "New Game")] []).
  set (ingame := Region.mk (py "Ingame") (SoE.player self) [] _).
  assert (Hregion : exists n,
             MultiWorld.get_region (py "Ingame") (SoE.player self)
               (MultiWorld.with_regions
                  ((MultiWorld.regions w ++ [menu]) ++ [ingame])
                  (MultiWorld.with_regions (MultiWorld.regions w ++ [menu]) w))
             = Ok n).
  { unfold MultiWorld.get_region. simpl.
    destruct (find _ _) as [r|] eqn:Hfind; [eauto|].
    assert (Hin : In ingame ((MultiWorld.regions w ++ [menu]) ++ [ingame])).
    { apply in_or_app. right. left. reflexivity. }
    pose proof (find_none _ _ Hfind ingame Hin) as Hno.
    unfold ingame in Hno. rewrite is_region_mk in Hno. discriminate. }
  destruct Hregion as [n ->]. simpl.
  set (w2 := MultiWorld.with_regions _ _).
  destruct (alter_first_is_Some
              (MultiWorld.is_entrance (py "New Game") (SoE.player self))
              (Entrance.connect n) (MultiWorld.get_entrances w2))
    as (es & Hes & Hex).
  { unfold MultiWorld.get_entrances, w2. simpl.
    rewrite !map_app, !concat_app. simpl.
    apply Exists_app. left. apply Exists_app. right.
    constructor. apply is_entrance_new. }
  { intros e. reflexivity. }
  destruct (update_entrance_flat _ _ _ _ _ Hes)
    as (w' & Hrun & Hent & Hloc & Hcc & Hrnd).
  exists w'. split; [exact Hrun|].
  split; [|split; [now rewrite Hent | split; [exact Hcc | exact Hrnd]]].
  rewrite Hloc. unfold MultiWorld.get_locations, w2. simpl.
  rewrite !map_app, !concat_app. simpl. rewrite !app_nil_r.
  now rewrite <- !app_assoc.
Qed.

(** The loop of [set_rules] finds every location whose key is in [pre];
    it changes no key and nothing after [pre]. *)
Lemma set_location_rules_keys locs :
  forall w pre rest,
    MultiWorld.get_locations w = pre ++ rest ->
    Forall (fun loc => (RawLocation.name loc, SoE.player self)
                       ∈ map location_key pre) locs ->
    exists w' pre',
      SoE.set_location_rules cls self locs w = Ok w'
      /\ MultiWorld.get_locations w' = pre' ++ rest
      /\ map location_key pre' = map location_key pre
      /\ MultiWorld.completion_condition w' = MultiWorld.completion_condition w
      /\ MultiWorld.random w' = MultiWorld.random w.
Proof.
  induction locs as [|loc locs IH]; intros w pre rest Hflat Hin; simpl.
  - exists w, pre. auto.
  - apply Forall_cons in Hin as [Hloc Hin].
    destruct (alter_first_in_prefix (SoE.location_rules cls self loc)
                (location_rules_key loc) _ _ pre rest Hloc)
      as (pre1 & Halter & Hkeys).
    rewrite <- Hflat in Halter.
    destruct (update_location_flat _ _ _ _ _ Halter)
      as (w1 & Hrun & Hflat1 & _ & Hcc & Hrnd).
    rewrite Hrun. simpl.
    destruct (IH w1 pre1 rest Hflat1) as (w' & pre' & Hrun' & ? & ? & ? & ?).
    { now rewrite Hkeys. }
    exists w', pre'. repeat split; try assumption; congruence.
Qed.


Lemma location_mapping_loop_names locs :
  forall n2i i2r n2i' i2r',
    SoE.location_mapping_loop ev locs n2i i2r = Ok (n2i', i2r') ->
    (forall nm, is_Some (n2i !! nm) -> is_Some (n2i' !! nm))
    /\ Forall (fun loc => is_Some (n2i' !! RawLocation.name loc)) locs.
Proof.
  induction locs as [|loc locs IH]; simpl; intros n2i i2r n2i' i2r' Hrun.
  - inversion Hrun; subst. split; [auto | constructor].
  - destruct (SoE.apid ev (RawLocation.type loc) (RawLocation.index loc))
      as [a|e]; simpl in Hrun; [|discriminate].
    apply IH in Hrun as [Hmono Hall]. split.
    + intros nm Hnm. apply Hmono.
      destruct (decide (RawLocation.name loc = nm)) as [->|Hne].
      * rewrite lookup_insert_eq. eauto.
      * now rewrite lookup_insert_ne.
    + constructor; [|exact Hall]. apply Hmono. rewrite lookup_insert_eq. eauto.
Qed.

Lemma class_location_names :
  SoE.SoEWorld_class ev = Ok cls ->
  Forall (fun loc => is_Some (SoE.location_name_to_id cls
                                !! RawLocation.name loc))
         (SoE._locations ev).
Proof.
  unfold SoE.SoEWorld_class, SoE._get_location_mapping. intros Hcls.
  destruct (SoE._get_item_mapping ev) as [[in2i ii2r]|]; simpl in Hcls;
    [|discriminate].
  destruct (SoE.location_mapping_loop ev (SoE._locations ev) ∅ ∅)
    as [[ln2i li2r]|] eqn:Hloop; simpl in Hcls; [|discriminate].
  inversion Hcls; subst cls; simpl.
  apply location_mapping_loop_names in Hloop as [_ Hall].
  eapply Forall_impl; [exact Hall|]. intros loc Hloc. cbv beta in *.
  destruct (decide (py "Done" = RawLocation.name loc)) as [<-|Hne].
  - rewrite lookup_insert_eq. eauto.
  - now rewrite lookup_insert_ne.
Qed.

Lemma randint_frame lo hi w n w' :
  MultiWorld.randint lo hi w = (n, w') ->
  MultiWorld.get_locations w' = MultiWorld.get_locations w
  /\ MultiWorld.completion_condition w' = MultiWorld.completion_condition w.
Proof.
  unfold MultiWorld.randint. destruct (MultiWorld.random w);
    intros H; inversion H; subst; auto.
Qed.

(** The keys of the locations before 'Done' after [create_regions]. *)
Lemma done_not_before w :
  fresh_player self w ->
  py "Done" ∉ map RawLocation.name (SoE._locations ev) ->
  (py "Done", SoE.player self)
  ∉ map location_key
        (MultiWorld.get_locations w
         ++ map (created_location cls self) (SoE._locations ev)).
Proof.
  intros Hfresh Hdone Hin. rewrite map_app in Hin.
  apply elem_of_app in Hin as [Hin|Hin].
  - exact (fresh_player_keys w _ Hfresh Hin).
  - apply Hdone. rewrite map_map in Hin.
    apply list_elem_of_In, in_map_iff in Hin as (loc & Hk & Hloc).
    rewrite created_location_key in Hk. injection Hk as Hname.
    apply list_elem_of_In, in_map_iff. exists loc. auto.
Qed.

Lemma is_location_done :
  MultiWorld.is_location (py "Done") (SoE.player self)
    (SoE.SoELocation (SoE.player self) (py "Done") None) = true.
Proof. apply is_location_key. reflexivity. Qed.

(** The statements of [set_rules] before its loop. *)
Lemma set_rules_prelude w1 pre :
  MultiWorld.get_locations w1
  = pre ++ [SoE.SoELocation (SoE.player self) (py "Done") None] ->
  (py "Done", SoE.player self) ∉ map location_key pre ->
  Exists (fun e => MultiWorld.is_entrance (py "New Game")
                     (SoE.player self) e = true)
         (MultiWorld.get_entrances w1) ->
  exists we,
    SoE.set_rules ev cls self w1
    = SoE.set_location_rules cls self (SoE._locations ev) we
    /\ MultiWorld.get_locations we
       = pre ++ [Location.set_rule
                   (fun state =>
                      CollectionState._soe_has_default state
                        (pyevermizer.P_FINAL_BOSS ev) (SoE.player self))
                   (SoE.SoELocation (SoE.player self) (py "Done") None)]
    /\ MultiWorld.completion_condition we
       = <[SoE.player self :=
             fun state =>
               CollectionState.has state (py "Victory") (SoE.player self)]>
           (MultiWorld.completion_condition w1).
Proof.
  intros Hflat1 Hpre Hent1. unfold SoE.set_rules.
  set (wc := MultiWorld.with_completion_condition _ w1).
  set (rule := fun state => CollectionState._soe_has_default state _ _).
  destruct (update_location_flat (py "Done") (SoE.player self)
              (Location.set_rule rule) wc
              (pre ++ [Location.set_rule rule
                         (SoE.SoELocation (SoE.player self) (py "Done") None)]))
    as (wd & Hrund & Hflatd & Hentd & Hccd & _).
  { change (MultiWorld.get_locations wc) with (MultiWorld.get_locations w1).
    rewrite Hflat1. apply alter_first_hit;
      [now apply no_match_of_keys | apply is_location_done]. }
  rewrite Hrund. simpl.
  destruct (alter_first_is_Some
              (MultiWorld.is_entrance (py "New Game") (SoE.player self))
              (Entrance.set_rule (fun _ => true))
              (MultiWorld.get_entrances wd))
    as (es & Hes & _); [rewrite Hentd; exact Hent1 | reflexivity |].
  destruct (update_entrance_flat _ _ _ _ _ Hes)
    as (we & Hrune & _ & Hflate & Hcce & _).
  rewrite Hrune. simpl. exists we. split; [reflexivity|].
  split; [now rewrite Hflate, Hflatd | now rewrite Hcce, Hccd].
Qed.

(** The world after [create_regions], [set_rules] and [generate_basic]
    on a fresh player: the locations before 'Done' keep their keys, and
    'Done' has its rule and holds the locked event. *)
Lemma wiring_flat w0 :
  SoE.SoEWorld_class ev = Ok cls ->
  fresh_player self w0 ->
  py "Done" ∉ map RawLocation.name (SoE._locations ev) ->
  exists w1 w2 w3 self' pre,
    SoE.create_regions ev cls self w0 = Ok w1
    /\ SoE.set_rules ev cls self w1 = Ok w2
    /\ SoE.generate_basic self w2 = Ok (self', w3)
    /\ MultiWorld.get_locations w3
       = (pre ++ [Location.place_locked_item
                    (SoE.create_event self (py "Victory"))
                    (Location.set_rule
                       (fun state =>
                          CollectionState._soe_has_default state
                            (pyevermizer.P_FINAL_BOSS ev) (SoE.player self))
                       (SoE.SoELocation (SoE.player self) (py "Done") None))])
    /\ ((py "Done", SoE.player self) ∉ map location_key pre)
    /\ MultiWorld.completion_condition w3
       = <[SoE.player self :=
             fun state =>
               CollectionState.has state (py "Victory") (SoE.player self)]>
           (MultiWorld.completion_condition w0).
Proof.
  intros Hcls Hfresh Hdone.
  destruct (create_regions_flat w0 (class_location_names Hcls))
    as (w1 & Hrun1 & Hflat1 & Hent1 & Hcc1 & _).
  pose proof (done_not_before w0 Hfresh Hdone) as Hpre.
  set (pre := MultiWorld.get_locations w0
              ++ map (created_location cls self) (SoE._locations ev)) in *.
  destruct (set_rules_prelude w1 pre Hflat1 Hpre Hent1)
    as (we & Hset & Hflate & Hcce).
  set (rule := fun state => CollectionState._soe_has_default state _ _) in *.
  destruct (set_location_rules_keys (SoE._locations ev) we pre
              [Location.set_rule rule
                 (SoE.SoELocation (SoE.player self) (py "Done") None)])
    as (w2 & pre' & Hrun2 & Hflat2 & Hkeys2 & Hcc2 & _).
  { exact Hflate. }
  { apply Forall_forall. intros loc Hloc. unfold pre. rewrite map_app.
    apply elem_of_app. right. rewrite map_map.
    apply list_elem_of_In, in_map_iff. exists loc.
    split; [reflexivity | now apply list_elem_of_In]. }
  exists w1, w2. unfold SoE.generate_basic.
  destruct (update_location_flat (py "Done") (SoE.player self)
              (Location.place_locked_item
                 (SoE.create_event self (py "Victory"))) w2
              (pre' ++ [Location.place_locked_item
                          (SoE.create_event self (py "Victory"))
                          (Location.set_rule rule
                             (SoE.SoELocation (SoE.player self)
                                (py "Done") None))]))
    as (w3 & Hrun3 & Hflat3 & _ & Hcc3 & _).
  { rewrite Hflat2. apply alter_first_hit;
      [apply no_match_of_keys; now rewrite Hkeys2 | apply is_location_done]. }
  rewrite Hrun3. simpl.
  destruct (MultiWorld.randint 0 (2 ^ 16 - 1) w3) as [n w4] eqn:Hrand.
  destruct (randint_frame _ _ _ _ _ Hrand) as [Hflat4 Hcc4].
  exists w4, (SoE.with_evermizer_seed n self), pre'.
  split; [exact Hrun1|]. split; [now rewrite Hset|]. split; [reflexivity|].
  split; [now rewrite Hflat4, Hflat3|].
  split; [now rewrite Hkeys2|].
  rewrite Hcc4, Hcc3, Hcc2, Hcce. now rewrite Hcc1.
Qed.

(** With pairwise distinct names the loop of [set_rules] installs the
    rules of every catalog location on the location created for it. *)
Lemma set_location_rules_installs locs :
  forall w A B,
    MultiWorld.get_locations w
    = A ++ map (created_location cls self) locs ++ B ->
    NoDup (map RawLocation.name locs) ->
    Forall (fun loc => (RawLocation.name loc, SoE.player self)
                       ∉ map location_key A) locs ->
    exists w',
      SoE.set_location_rules cls self locs w = Ok w'
      /\ MultiWorld.get_locations w'
         = A ++ map (fun loc => SoE.location_rules cls self loc
                                  (created_location cls self loc)) locs
             ++ B.
Proof.
  induction locs as [|loc locs IH]; intros w A B Hflat Hnd HA; simpl.
  - exists w. auto.
  - apply NoDup_cons in Hnd as [Hloc Hnd].
    apply Forall_cons in HA as [HlocA HA].
    destruct (update_location_flat (RawLocation.name loc) (SoE.player self)
                (SoE.location_rules cls self loc) w
                (A ++ SoE.location_rules cls self loc
                        (created_location cls self loc)
                   :: map (created_location cls self) locs ++ B))
      as (w1 & Hrun & Hflat1 & _).
    { rewrite Hflat. simpl. apply alter_first_hit;
        [now apply no_match_of_keys | now apply is_location_key]. }
    rewrite Hrun. simpl.
    destruct (IH w1 (A ++ [SoE.location_rules cls self loc
                             (created_location cls self loc)]) B)
      as (w' & Hrun' & Hflat').
    { rewrite Hflat1, <- app_assoc. reflexivity. }
    { exact Hnd. }
    { apply Forall_forall. intros loc' Hloc'. rewrite map_app.
      intros Hin. apply elem_of_app in Hin as [Hin|Hin].
      - rewrite Forall_forall in HA. exact (HA loc' Hloc' Hin).
      - simpl in Hin. apply list_elem_of_singleton in Hin.
        rewrite location_rules_key, created_location_key in Hin.
        injection Hin as Hname. apply Hloc. rewrite <- Hname.
        apply list_elem_of_In, in_map, list_elem_of_In, Hloc'. }
    exists w'. split; [exact Hrun'|].
    rewrite Hflat', <- app_assoc. reflexivity.
Qed.

Lemma find_installed locs A B loc :
  NoDup (map RawLocation.name locs) ->
  Forall (fun loc => (RawLocation.name loc, SoE.player self)
                     ∉ map location_key A) locs ->
  loc ∈ locs ->
  find (MultiWorld.is_location (RawLocation.name loc) (SoE.player self))
       (A ++ map (fun loc => SoE.location_rules cls self loc
                               (created_location cls self loc)) locs
          ++ B)
  = Some (SoE.location_rules cls self loc (created_location cls self loc)).
Proof.
  intros Hnd HA Hin.
  apply list_elem_of_split in Hin as (l1 & l2 & ->).
  rewrite map_app. simpl. rewrite <- app_assoc, app_assoc. simpl.
  apply find_hit;
    [|apply is_location_key; now rewrite location_rules_key].
  apply Forall_app_2.
  - apply no_match_of_keys. rewrite Forall_forall in HA. apply HA.
    apply elem_of_app. right. apply list_elem_of_here.
  - apply Forall_map. apply Forall_forall. intros loc' Hloc'.
    apply is_location_false.
    rewrite location_rules_key, created_location_key.
    intros Heq. injection Heq as Hname.
    rewrite map_app in Hnd. apply NoDup_app in Hnd as (_ & Hdisj & _).
    apply (Hdisj (RawLocation.name loc')).
    + apply list_elem_of_In, in_map, list_elem_of_In, Hloc'.
    + simpl. rewrite Hname. apply list_elem_of_here.
Qed.

(** The filter of [make_item_type_limit_rule]. *)
Lemma make_item_type_limit_rule_accepts item_type candidate :
  SoE.make_item_type_limit_rule cls self item_type candidate = Ok true <->
  Item.player candidate <> SoE.player self
  \/ exists code raw,
       Item.code candidate = Some code
       /\ SoE.item_id_to_raw cls !! code = Some raw
       /\ RawItem.type raw = item_type.
Proof.
  unfold SoE.make_item_type_limit_rule.
  destruct (Z.eqb_spec (Item.player candidate) (SoE.player self))
    as [Hsame|Hother]; simpl; [|split; [auto | reflexivity]].
  destruct (Item.code candidate) as [code|] eqn:Hcode; simpl.
  - unfold getitem.
    destruct (SoE.item_id_to_raw cls !! code) as [raw|] eqn:Hraw; simpl.
    + destruct (Z.eqb_spec (RawItem.type raw) item_type) as [Ht|Ht].
      * split; [intros _; right; exists code, raw; auto | reflexivity].
      * split; [discriminate|].
        intros [?|(c & r & Hc & Hr & Hty)]; [contradiction|].
        inversion Hc; subst c. rewrite Hraw in Hr. inversion Hr; subst r.
        contradiction.
    + split; [discriminate|].
      intros [?|(c & r & Hc & Hr & _)]; [contradiction|].
      inversion Hc; subst c. rewrite Hraw in Hr. discriminate.
  - split; [discriminate|].
    intros [?|(c & r & Hc & _)]; [contradiction | discriminate].
Qed.

(** The filter installed on a created location in restricted mode. *)
Lemma installed_item_rule loc candidate :
  SoE.restrict_item_placement self = true ->
  Location.item_rule
    (SoE.location_rules cls self loc (created_location cls self loc))
    candidate
  = match SoE.make_item_type_limit_rule cls self (RawLocation.type loc)
            candidate with
    | Ok b => Ok b
    | Raise e => Raise e
    end.
Proof.
  intros Hr. unfold SoE.location_rules. rewrite Hr. simpl.
  destruct (SoE.make_item_type_limit_rule _ _ _ _) as [[|]|]; reflexivity.
Qed.

End World.

(** C7: after [create_regions], [set_rules] and [generate_basic] on a
    player that is new to the world, the player's 'Done' location holds
    the 'Victory' event item (no code, progression) in a locked binding;
    its access rule is the oracle on the final-boss token with count 1;
    and the completion condition of the player holds exactly when the
    state has 'Victory'. *)
Theorem done_holds_locked_victory
    (ev : pyevermizer.t) (cls : SoE.class_attrs) (self : SoE.t)
    (w0 : MultiWorld.t) :
  SoE.SoEWorld_class ev = Ok cls ->
  fresh_player self w0 ->
  py "Done" ∉ map RawLocation.name (SoE._locations ev) ->
  exists w1 w2 w3 self' done goal,
    SoE.create_regions ev cls self w0 = Ok w1
    /\ SoE.set_rules ev cls self w1 = Ok w2
    /\ SoE.generate_basic self w2 = Ok (self', w3)
    /\ MultiWorld.get_location (py "Done") (SoE.player self) w3 = Ok done
    /\ Location.item done
       = Some (Item.mk (py "Victory") true None (SoE.player self))
    /\ Location.locked done = true
    /\ (forall state,
         Location.access_rule done state
         = CollectionState._soe_has state (pyevermizer.P_FINAL_BOSS ev)
             (SoE.player self) 1)
    /\ MultiWorld.completion_condition w3 !! SoE.player self = Some goal
    /\ (forall state,
         goal state
         = CollectionState.has state (py "Victory") (SoE.player self)).
Proof.
  intros Hcls Hfresh Hdone.
  destruct (wiring_flat ev cls self w0 Hcls Hfresh Hdone)
    as (w1 & w2 & w3 & self' & pre & H1 & H2 & H3 & Hflat & Hpre & Hcc).
  exists w1, w2, w3, self'. eexists. eexists.
  split; [exact H1|]. split; [exact H2|]. split; [exact H3|].
  split.
  { unfold MultiWorld.get_location. rewrite Hflat.
    rewrite find_hit; [reflexivity | now apply no_match_of_keys|].
    apply is_location_key. reflexivity. }
  split; [reflexivity|]. split; [reflexivity|]. split; [reflexivity|].
  split; [rewrite Hcc; apply lookup_insert_eq | reflexivity].
Qed.

Lemma sample_class : SoE.SoEWorld_class sample_ev = Ok sample_cls.
Proof. vm_compute. reflexivity. Defined.

Lemma sample_world_fresh : fresh_player (SoE.__init__ 1) sample_world.
Proof. constructor. Defined.

Lemma sample_no_done :
  py "Done" ∉ map RawLocation.name (SoE._locations sample_ev).
Proof. apply (bool_decide_unpack _). vm_compute. exact I. Defined.

Lemma done_holds_locked_victory_witness :
  exists w3 done,
    MultiWorld.get_location (py "Done") 1 w3 = Ok done
    /\ Location.item done = Some (Item.mk (py "Victory") true None 1)
    /\ Location.locked done = true.
Proof.
  destruct (done_holds_locked_victory sample_ev sample_cls (SoE.__init__ 1)
              sample_world sample_class sample_world_fresh sample_no_done)
    as (_ & _ & w3 & _ & done & _ & _ & _ & _ & Hget & Hitem & Hlocked & _).
  exists w3, done. split; [exact Hget|]. split; [exact Hitem | exact Hlocked].
Defined.

(** C8: in category-restricted placement mode, the filter installed on
    the location of every catalog location accepts a candidate item if
    and only if the candidate belongs to another player or its native
    category is the native category of the location; an item of this
    player of another category is rejected. *)
Theorem item_type_limit_rule_installed
    (ev : pyevermizer.t) (cls : SoE.class_attrs) (self : SoE.t)
    (w0 : MultiWorld.t) :
  SoE.restrict_item_placement self = true ->
  SoE.SoEWorld_class ev = Ok cls ->
  fresh_player self w0 ->
  NoDup (map RawLocation.name (SoE._locations ev)) ->
  py "Done" ∉ map RawLocation.name (SoE._locations ev) ->
  exists w1 w2,
    SoE.create_regions ev cls self w0 = Ok w1
    /\ SoE.set_rules ev cls self w1 = Ok w2
    /\ forall loc,
         loc ∈ SoE._locations ev ->
         exists location,
           MultiWorld.get_location (RawLocation.name loc) (SoE.player self) w2
           = Ok location
           /\ (forall candidate,
                 Location.item_rule location candidate = Ok true <->
                 Item.player candidate <> SoE.player self
                 \/ exists code raw,
                      Item.code candidate = Some code
                      /\ SoE.item_id_to_raw cls !! code = Some raw
                      /\ RawItem.type raw = RawLocation.type loc)
           /\ (forall candidate code raw,
                 Item.player candidate = SoE.player self ->
                 Item.code candidate = Some code ->
                 SoE.item_id_to_raw cls !! code = Some raw ->
                 RawItem.type raw <> RawLocation.type loc ->
                 Location.item_rule location candidate = Ok false).
Proof.
  intros Hrestrict Hcls Hfresh Hnames Hdone.
  destruct (create_regions_flat ev cls self w0
              (class_location_names ev cls Hcls))
    as (w1 & Hrun1 & Hflat1 & Hent1 & _).
  pose proof (done_not_before ev cls self w0 Hfresh Hdone) as Hpre.
  destruct (set_rules_prelude ev cls self w1 _ Hflat1 Hpre Hent1)
    as (we & Hset & Hflate & _).
  assert (HA : Forall (fun loc => (RawLocation.name loc, SoE.player self)
                                  ∉ map location_key
                                        (MultiWorld.get_locations w0))
                      (SoE._locations ev)).
  { apply Forall_forall. intros loc _. now apply fresh_player_keys. }
  rewrite <- app_assoc in Hflate.
  destruct (set_location_rules_installs cls self (SoE._locations ev)
              we _ _ Hflate Hnames HA) as (w2 & Hrun2 & Hflat2).
  exists w1, w2. split; [exact Hrun1|]. split; [now rewrite Hset|].
  intros loc Hloc. eexists. split.
  { unfold MultiWorld.get_location. rewrite Hflat2.
    rewrite (find_installed cls self _ _ _ loc Hnames HA Hloc). reflexivity. }
  split.
  - intros candidate. rewrite (installed_item_rule cls self _ _ Hrestrict).
    rewrite <- make_item_type_limit_rule_accepts.
    destruct (SoE.make_item_type_limit_rule _ _ _ _) as [b|e];
      [|split; discriminate].
    split; congruence.
  - intros candidate code raw Hplayer Hcode Hraw Htype.
    rewrite (installed_item_rule cls self _ _ Hrestrict).
    unfold SoE.make_item_type_limit_rule, getitem.
    rewrite Hplayer, Z.eqb_refl, Hcode, Hraw. simpl.
    destruct (Z.eqb_spec (RawItem.type raw) (RawLocation.type loc));
      [contradiction | reflexivity].
Qed.

Lemma sample_restricted_fresh : fresh_player sample_restricted sample_world.
Proof. constructor. Defined.

Lemma item_type_limit_rule_installed_witness :
  exists w2 location,
    MultiWorld.get_location (py "Flash") 1 w2 = Ok location
    /\ Location.item_rule location (Item.mk (py "Wings") false (Some 64105) 1)
       = Ok false.
Proof.
  destruct (item_type_limit_rule_installed sample_ev sample_cls
              sample_restricted sample_world eq_refl sample_class
              sample_restricted_fresh sample_location_names sample_no_done)
    as (_ & w2 & _ & _ & Hall).
  destruct (Hall (RawLocation.mk 1 0 (py "Flash") []))
    as (location & Hget & _ & Hreject).
  - vm_compute. apply list_elem_of_here.
  - exists w2, location. split; [exact Hget|].
    apply (Hreject _ 64105 (RawItem.mk 3 5 (py "Wings") false));
      [reflexivity | reflexivity | vm_compute; reflexivity
       | vm_compute; discriminate].
Defined.

(** ** The output pipeline *)

Section Cleanup.
Context (ev : pyevermizer.t) (cls : SoE.class_attrs) (host : Host.t).

(** The [finally] block never raises. *)
Lemma finally_block_never_raises s : (SoE.finally_block s).1 = Ok tt.
Proof. reflexivity. Qed.

(** Once the name is finalized, the outcome of [generate_output] is the
    outcome of its [try] block, and the file system is the one the
    [finally] block leaves: the cleanup runs on every exit of the [try]
    block and never replaces its outcome. *)
Lemma generate_output_outcome fuel self self1 w output_directory fs name :
  SoE.finalize_name fuel self w = Some (Ok name, self1) ->
  SoE.generate_output ev cls host fuel self w output_directory fs
  = let tried := SoE.try_block ev cls host self1 w output_directory name
                   (Pipeline.mk fs None None) in
    Some (tried.1, self1, Pipeline.fs (SoE.finally_block tried.2).2).
Proof.
  intros Hname. unfold SoE.generate_output. rewrite Hname.
  unfold Pipeline.try_finally.
  destruct (SoE.try_block ev cls host self1 w output_directory name _)
    as [r s1]. reflexivity.
Qed.

(** When the three deletions succeed one after the other, the three
    files are gone and nothing else has changed. *)
Lemma finally_block_deletes_all s placement out :
  Pipeline.placement_file s = Some placement ->
  Pipeline.out_file s = Some out ->
  is_Some (Pipeline.fs s !! placement) ->
  is_Some (delete placement (Pipeline.fs s) !! out) ->
  is_Some (delete out (delete placement (Pipeline.fs s))
           !! (slice_to (-4) out ++ py "_SPOILER.log")) ->
  Pipeline.fs (SoE.finally_block s).2
  = delete (slice_to (-4) out ++ py "_SPOILER.log")
      (delete out (delete placement (Pipeline.fs s))).
Proof.
  intros Hp Ho [a Ha] [b Hb] [c Hc].
  unfold SoE.finally_block, Pipeline.try_except_pass, Pipeline.bind,
    Pipeline.get_placement_file, Pipeline.get_out_file, Pipeline.unlink,
    Pipeline.lift.
  rewrite Hp. cbn -[slice_to py]. rewrite Ha. cbn -[slice_to py].
  rewrite Ho. cbn -[slice_to py]. rewrite Hb. cbn -[slice_to py].
  rewrite Ho, Hc. reflexivity.
Qed.

(** A failed deletion ends the cleanup: with the placement file missing,
    the file system is left as it is. *)
Lemma finally_block_stops_at_first_failure s placement :
  Pipeline.placement_file s = Some placement ->
  Pipeline.fs s !! placement = None ->
  Pipeline.fs (SoE.finally_block s).2 = Pipeline.fs s.
Proof.
  intros Hp Hmissing.
  unfold SoE.finally_block, Pipeline.try_except_pass, Pipeline.bind,
    Pipeline.get_placement_file, Pipeline.unlink.
  rewrite Hp. cbn -[slice_to py]. now rewrite Hmissing.
Qed.

End Cleanup.

(** On success the three intermediate files are gone and the patch
    holds the compressed image. *)
Example sample_generate_output :
  SoE.generate_output sample_ev sample_cls sample_host 33 sample_self
    sample_world_filled (py "out")
    {[py "out/AP_seed_P1_Hero_SPOILER.log" := [76]]}
  = Some (Ok tt,
          SoE.mk 1 false (Some (py "Hero")) true (Some 7),
          {[py "out/AP_seed_P1_Hero.apsoe" := [253; 83; 70; 67]]}).
Proof. vm_compute. reflexivity. Qed.

(** C6, at a failing input: the build tool returns a failure status
    after it has written the spoiler log and before it writes the
    image.  The error propagates and the placement file is deleted, but
    the deletion of the missing image ends the cleanup, and the spoiler
    log is still there when [generate_output] returns. *)
Theorem cleanup_leaves_spoiler_log :
  SoE.generate_output failing_ev sample_cls sample_host 33 sample_self
    sample_world_filled (py "out") ∅
  = Some (Raise RuntimeError,
          SoE.mk 1 false (Some (py "Hero")) true (Some 7),
          {[py "out/AP_seed_P1_Hero_SPOILER.log" := [76]]}).
Proof. vm_compute. reflexivity. Qed.

(** * Further properties *)

(** ** Printing of integers *)

Section Printing.

Lemma py_inj s1 s2 : py s1 = py s2 -> s1 = s2.
Proof.
  unfold py. intros H.
  rewrite <- (string_of_list_ascii_of_string s1),
          <- (string_of_list_ascii_of_string s2).
  f_equal. revert H.
  generalize (list_ascii_of_string s1) (list_ascii_of_string s2).
  induction l as [|a l IH]; intros [|b l']; simpl; intros H;
    try discriminate; [reflexivity|].
  injection H as Hab Hl. f_equal; [|auto].
  apply N2Z.inj in Hab.
  rewrite <- (ascii_N_embedding a), <- (ascii_N_embedding b). now f_equal.
Qed.

(** Decimal printing loses nothing: distinct integers print differently. *)
Lemma str_of_Z_inj n m : str_of_Z n = str_of_Z m -> n = m.
Proof.
  unfold str_of_Z. intros H. apply py_inj in H.
  assert (Hnn : forall z, Z.to_int z <> Decimal.Pos Decimal.Nil
                          /\ Z.to_int z <> Decimal.Neg Decimal.Nil).
  { intros [|p|p]; simpl; split; try discriminate;
      intros [= Hp]; exact (Unsigned.to_uint_nonnil p Hp). }
  apply to_int_inj.
  destruct (Hnn n) as [Hn1 Hn2], (Hnn m) as [Hm1 Hm2].
  pose proof (NilZero.isi _ Hn1 Hn2) as Hn.
  pose proof (NilZero.isi _ Hm1 Hm2) as Hm.
  rewrite H in Hn. rewrite Hn in Hm. now injection Hm.
Qed.

End Printing.

Section Loops.
Context (ev : pyevermizer.t).

Lemma id_offset_None type :
  SoE._id_offset ev !! type = None <-> type ∉ categories ev.
Proof.
  unfold SoE._id_offset, categories.
  rewrite !lookup_insert_None, lookup_empty, !not_elem_of_cons.
  split.
  - intros H. destruct H as [[[[_ H1] H2] H3] H4].
    repeat split; try congruence. apply not_elem_of_nil.
  - intros H. destruct H as (H1 & H2 & H3 & H4 & _).
    repeat split; congruence.
Qed.

Lemma apid_raises type index :
  type ∉ categories ev -> SoE.apid ev type index = Raise KeyError.
Proof.
  intros H. apply id_offset_None in H. unfold SoE.apid, getitem.
  now rewrite H.
Qed.

Lemma apid_defined type index :
  type ∈ categories ev -> exists id, SoE.apid ev type index = Ok id.
Proof.
  intros H. unfold SoE.apid, getitem.
  destruct (SoE._id_offset ev !! type) as [o|] eqn:Ho; simpl; [eauto|].
  apply id_offset_None in Ho. contradiction.
Qed.

Lemma item_mapping_loop_app l1 l2 n i :
  SoE.item_mapping_loop ev (l1 ++ l2) n i
  = match SoE.item_mapping_loop ev l1 n i with
    | Ok (n1, i1) => SoE.item_mapping_loop ev l2 n1 i1
    | Raise e => Raise e
    end.
Proof.
  revert n i. induction l1 as [|x l1 IH]; intros n i; simpl; [reflexivity|].
  destruct (n !! RawItem.name x); [apply IH|].
  destruct (SoE.apid ev _ _); simpl; [apply IH | reflexivity].
Qed.

Lemma item_mapping_loop_keeps items :
  forall n i n' i' nm v,
    SoE.item_mapping_loop ev items n i = Ok (n', i') ->
    n !! nm = Some v -> n' !! nm = Some v.
Proof.
  induction items as [|x items IH]; simpl; intros n i n' i' nm v Hrun Hnm.
  - now inversion Hrun; subst.
  - destruct (n !! RawItem.name x) eqn:Hx; [eauto|].
    destruct (SoE.apid ev _ _); simpl in Hrun; [|discriminate].
    eapply IH; [exact Hrun|].
    rewrite lookup_insert_ne; [assumption | congruence].
Qed.

Lemma item_mapping_loop_absent items :
  forall n i n' i' nm,
    SoE.item_mapping_loop ev items n i = Ok (n', i') ->
    n !! nm = None -> nm ∉ map RawItem.name items -> n' !! nm = None.
Proof.
  induction items as [|x items IH]; simpl; intros n i n' i' nm Hrun Hnm Hin.
  - now inversion Hrun; subst.
  - apply not_elem_of_cons in Hin as [Hne Hin].
    destruct (n !! RawItem.name x) eqn:Hx; [eauto|].
    destruct (SoE.apid ev _ _); simpl in Hrun; [|discriminate].
    eapply IH; [exact Hrun | | exact Hin].
    rewrite lookup_insert_ne; [assumption | congruence].
Qed.

Lemma location_mapping_loop_app l1 l2 n i :
  SoE.location_mapping_loop ev (l1 ++ l2) n i
  = match SoE.location_mapping_loop ev l1 n i with
    | Ok (n1, i1) => SoE.location_mapping_loop ev l2 n1 i1
    | Raise e => Raise e
    end.
Proof.
  revert n i. induction l1 as [|x l1 IH]; intros n i; simpl; [reflexivity|].
  destruct (SoE.apid ev _ _); simpl; [apply IH | reflexivity].
Qed.

Lemma location_mapping_loop_untouched locs :
  forall n i n' i',
    SoE.location_mapping_loop ev locs n i = Ok (n', i') ->
    (forall nm, nm ∉ map RawLocation.name locs -> n' !! nm = n !! nm)
    /\ (forall id, Ok id ∉ map (location_id ev) locs -> i' !! id = i !! id).
Proof.
  induction locs as [|x locs IH]; simpl; intros n i n' i' Hrun.
  - inversion Hrun; subst. auto.
  - unfold location_id at 1.
    destruct (SoE.apid ev _ _) as [a|] eqn:Ha; simpl in Hrun; [|discriminate].
    apply IH in Hrun as [Hn Hi]. split.
    + intros nm Hnm. apply not_elem_of_cons in Hnm as [Hne Hnm].
      rewrite Hn by assumption. now rewrite lookup_insert_ne.
    + intros id Hid. apply not_elem_of_cons in Hid as [Hne Hid].
      rewrite Hi by assumption. rewrite lookup_insert_ne; congruence.
Qed.

Lemma location_mapping_loop_raises locs :
  forall n i,
    match SoE.location_mapping_loop ev locs n i with
    | Ok _ => Forall (fun l => RawLocation.type l ∈ categories ev) locs
    | Raise e =>
        e = KeyError
        /\ Exists (fun l => RawLocation.type l ∉ categories ev) locs
    end.
Proof.
  induction locs as [|x locs IH]; simpl; intros n i; [constructor|].
  unfold SoE.apid, getitem.
  destruct (SoE._id_offset ev !! RawLocation.type x) as [o|] eqn:Ho; simpl.
  - specialize (IH (<[RawLocation.name x := Some (o + RawLocation.index x)]> n)
                   (<[o + RawLocation.index x := x]> i)).
    destruct (SoE.location_mapping_loop ev locs _ _) as [m|e].
    + constructor; [|exact IH].
      destruct (decide (RawLocation.type x ∈ categories ev)); [assumption|].
      apply id_offset_None in n0. congruence.
    + destruct IH as [-> IH]. split; [reflexivity|]. now apply Exists_cons_tl.
  - split; [reflexivity|]. apply Exists_cons_hd. now apply id_offset_None.
Qed.

End Loops.


Section CatalogExtras.
Context (ev : pyevermizer.t).

Lemma item_mapping_loop_KeyError items :
  forall n i e, SoE.item_mapping_loop ev items n i = Raise e -> e = KeyError.
Proof.
  induction items as [|x items IH]; simpl; intros n i e Hrun; [discriminate|].
  destruct (n !! RawItem.name x); [eauto|].
  unfold SoE.apid, getitem in Hrun.
  destruct (SoE._id_offset ev !! RawItem.type x); simpl in Hrun; [eauto|].
  now inversion Hrun.
Qed.

End CatalogExtras.

(** X1: a name of the item catalog maps to the numeric id of the first
    item that bears it, whatever the items after it are: later items of
    the same name are passed over. *)
Theorem item_name_maps_to_first
    (ev : pyevermizer.t) (n2i : gmap str (option Z)) (i2r : gmap Z RawItem.t)
    (pre post : list RawItem.t) (item : RawItem.t) :
  SoE._items ev = pre ++ item :: post ->
  RawItem.name item ∉ map RawItem.name pre ->
  RawItem.name item <> py "Victory" ->
  SoE._get_item_mapping ev = Ok (n2i, i2r) ->
  exists id,
    item_id ev item = Ok id /\ n2i !! RawItem.name item = Some (Some id).
Proof.
  intros Hitems Hfirst Hne. unfold SoE._get_item_mapping.
  destruct (SoE.item_mapping_loop ev (SoE._items ev) ∅ ∅)
    as [[n i]|] eqn:Hloop; simpl; [|discriminate].
  intros [= <- <-].
  rewrite Hitems, item_mapping_loop_app in Hloop.
  destruct (SoE.item_mapping_loop ev pre ∅ ∅) as [[n1 i1]|] eqn:Hpre;
    [|discriminate].
  pose proof (item_mapping_loop_absent ev pre _ _ _ _ _ Hpre
                (lookup_empty _) Hfirst) as Hnone.
  simpl in Hloop. rewrite Hnone in Hloop. unfold item_id.
  destruct (SoE.apid ev (RawItem.type item) (RawItem.index item)) as [id|];
    simpl in Hloop; [|discriminate].
  exists id. split; [reflexivity|].
  rewrite lookup_insert_ne by congruence.
  eapply item_mapping_loop_keeps; [exact Hloop|]. apply lookup_insert_eq.
Qed.

Lemma item_name_maps_to_first_witness :
  exists id,
    item_id sample_ev (RawItem.mk 3 5 (py "Wings") false) = Ok id
    /\ SoE.item_name_to_id sample_cls !! py "Wings" = Some (Some id).
Proof.
  apply (item_name_maps_to_first sample_ev _ (SoE.item_id_to_raw sample_cls)
           [RawItem.mk 1 0 (py "Flash") true]
           [RawItem.mk 3 6 (py "Wings") false]).
  - reflexivity.
  - apply (bool_decide_unpack _). vm_compute. exact I.
  - vm_compute. discriminate.
  - vm_compute. reflexivity.
Defined.

(** X2: a name of the location catalog maps to the numeric id of the last
    location that bears it, and a numeric id leads to the last location
    that has it: the location loop has no guard against duplicates. *)
Theorem location_name_maps_to_last
    (ev : pyevermizer.t) (n2i : gmap str (option Z))
    (i2r : gmap Z RawLocation.t)
    (pre post : list RawLocation.t) (loc : RawLocation.t) :
  SoE._locations ev = pre ++ loc :: post ->
  RawLocation.name loc ∉ map RawLocation.name post ->
  RawLocation.name loc <> py "Done" ->
  SoE._get_location_mapping ev = Ok (n2i, i2r) ->
  exists id,
    location_id ev loc = Ok id
    /\ n2i !! RawLocation.name loc = Some (Some id)
    /\ (Ok id ∉ map (location_id ev) post -> i2r !! id = Some loc).
Proof.
  intros Hlocs Hlast Hne. unfold SoE._get_location_mapping.
  destruct (SoE.location_mapping_loop ev (SoE._locations ev) ∅ ∅)
    as [[n i]|] eqn:Hloop; simpl; [|discriminate].
  intros [= <- <-].
  rewrite Hlocs, location_mapping_loop_app in Hloop.
  destruct (SoE.location_mapping_loop ev pre ∅ ∅) as [[n1 i1]|];
    [|discriminate].
  simpl in Hloop. unfold location_id at 1.
  destruct (SoE.apid ev (RawLocation.type loc) (RawLocation.index loc))
    as [id|]; simpl in Hloop; [|discriminate].
  apply location_mapping_loop_untouched in Hloop as [Hn Hi].
  exists id. split; [reflexivity|]. split.
  - rewrite lookup_insert_ne by congruence.
    rewrite Hn by assumption. apply lookup_insert_eq.
  - intros Hid. rewrite Hi by assumption. apply lookup_insert_eq.
Qed.

Lemma location_name_maps_to_last_witness :
  exists id,
    location_id sample_ev (RawLocation.mk 3 5 (py "Gourd #5") [(1, 7)]) = Ok id
    /\ SoE.location_name_to_id sample_cls !! py "Gourd #5" = Some (Some id).
Proof.
  destruct (location_name_maps_to_last sample_ev
              (SoE.location_name_to_id sample_cls)
              (SoE.location_id_to_raw sample_cls)
              [RawLocation.mk 1 0 (py "Flash") []]
              [RawLocation.mk 3 6 (py "Gourd #6") [(2, 8); (1, 7)]]
              (RawLocation.mk 3 5 (py "Gourd #5") [(1, 7)]))
    as (id & Hid & Hname & _).
  - vm_compute. reflexivity.
  - apply (bool_decide_unpack _). vm_compute. exact I.
  - vm_compute. discriminate.
  - vm_compute. reflexivity.
  - exists id. split; [exact Hid | exact Hname].
Defined.

(** X3: building the location mapping raises exactly when some location
    has a type without an id offset, and then it raises [KeyError]; the
    class body raises with it. *)
Theorem location_mapping_raises_iff (ev : pyevermizer.t) :
  (SoE._get_location_mapping ev = Raise KeyError <->
   Exists (fun l => RawLocation.type l ∉ categories ev) (SoE._locations ev))
  /\ (forall e, SoE._get_location_mapping ev = Raise e -> e = KeyError)
  /\ (Exists (fun l => RawLocation.type l ∉ categories ev) (SoE._locations ev)
      -> SoE.SoEWorld_class ev = Raise KeyError).
Proof.
  pose proof (location_mapping_loop_raises ev (SoE._locations ev) ∅ ∅) as H.
  assert (Hiff : SoE._get_location_mapping ev = Raise KeyError <->
                 Exists (fun l => RawLocation.type l ∉ categories ev)
                        (SoE._locations ev)).
  { unfold SoE._get_location_mapping.
    destruct (SoE.location_mapping_loop ev (SoE._locations ev) ∅ ∅)
      as [[n i]|e]; simpl.
    - split; [discriminate|]. intros Hex. exfalso.
      apply Exists_exists in Hex as (l & Hl & Hbad).
      rewrite Forall_forall in H. exact (Hbad (H l Hl)).
    - destruct H as [-> H]. split; auto. }
  split; [exact Hiff|]. split.
  - unfold SoE._get_location_mapping. intros e.
    destruct (SoE.location_mapping_loop ev (SoE._locations ev) ∅ ∅)
      as [[n i]|e']; simpl; [discriminate|].
    destruct H as [-> _]. now intros [= <-].
  - intros Hex. apply Hiff in Hex. unfold SoE.SoEWorld_class.
    rewrite Hex. unfold SoE._get_item_mapping.
    destruct (SoE.item_mapping_loop ev (SoE._items ev) ∅ ∅)
      as [[n i]|e] eqn:Hloop; simpl; [reflexivity|].
    now rewrite (item_mapping_loop_KeyError ev _ _ _ _ Hloop).
Qed.

Lemma location_mapping_raises_iff_witness :
  SoE.SoEWorld_class untyped_ev = Raise KeyError.
Proof.
  apply (location_mapping_raises_iff untyped_ev).
  apply Exists_cons_hd. apply (bool_decide_unpack _). vm_compute. exact I.
Defined.

(** X4: the fix-up of the texts changes the name of gourds only, keeps
    type, index and requirements, and tells apart gourds that share
    their native name: their fixed names differ when their indices do. *)
Theorem fix_up_disambiguates_gourds (ev : pyevermizer.t) :
  (forall l, RawLocation.type l <> pyevermizer.CHECK_GOURD ev ->
             SoE.fix_up ev l = l)
  /\ (forall l,
        RawLocation.type (SoE.fix_up ev l) = RawLocation.type l
        /\ RawLocation.index (SoE.fix_up ev l) = RawLocation.index l
        /\ RawLocation.requires (SoE.fix_up ev l) = RawLocation.requires l)
  /\ (forall l1 l2,
        RawLocation.type l1 = pyevermizer.CHECK_GOURD ev ->
        RawLocation.type l2 = pyevermizer.CHECK_GOURD ev ->
        RawLocation.name l1 = RawLocation.name l2 ->
        RawLocation.name (SoE.fix_up ev l1) = RawLocation.name (SoE.fix_up ev l2) ->
        RawLocation.index l1 = RawLocation.index l2).
Proof.
  split; [|split].
  - intros l Hl. unfold SoE.fix_up.
    destruct (Z.eqb_spec (RawLocation.type l) (pyevermizer.CHECK_GOURD ev));
      [contradiction | reflexivity].
  - intros l. now rewrite fix_up_type, fix_up_index, fix_up_requires.
  - intros l1 l2 H1 H2 Hname. unfold SoE.fix_up.
    rewrite H1, H2, Z.eqb_refl.
    cbn [RawLocation.name RawLocation.with_name]. rewrite Hname. intros Heq.
    apply app_inv_head in Heq. apply app_inv_head in Heq.
    now apply str_of_Z_inj.
Qed.

Lemma fix_up_disambiguates_gourds_witness :
  RawLocation.index (RawLocation.mk 3 5 (py "Gourd") [])
  = RawLocation.index (RawLocation.mk 3 5 (py "Gourd") [(1, 7)]).
Proof.
  apply (fix_up_disambiguates_gourds sample_ev); reflexivity.
Defined.

(** ** The item pool *)

Section ItemPoolFacts.
Context (ev : pyevermizer.t) (cls : SoE.class_attrs) (self : SoE.t).

Lemma class_item_mapping :
  SoE.SoEWorld_class ev = Ok cls ->
  SoE._get_item_mapping ev
  = Ok (SoE.item_name_to_id cls, SoE.item_id_to_raw cls).
Proof.
  unfold SoE.SoEWorld_class.
  destruct (SoE._get_item_mapping ev) as [[n i]|]; simpl; [|discriminate].
  destruct (SoE._get_location_mapping ev) as [[ln li]|]; simpl;
    [|discriminate].
  now intros [= <-].
Qed.

(** The id of the first item of a name, as the item mapping has it. *)
Lemma item_name_first_id n2i i2r pre post item :
  SoE._items ev = pre ++ item :: post ->
  RawItem.name item ∉ map RawItem.name pre ->
  RawItem.name item <> py "Victory" ->
  SoE._get_item_mapping ev = Ok (n2i, i2r) ->
  exists id,
    item_id ev item = Ok id /\ n2i !! RawItem.name item = Some (Some id).
Proof.
  intros Hitems Hfirst Hne. unfold SoE._get_item_mapping.
  destruct (SoE.item_mapping_loop ev (SoE._items ev) ∅ ∅)
    as [[n i]|] eqn:Hloop; simpl; [|discriminate].
  intros [= <- <-].
  rewrite Hitems, item_mapping_loop_app in Hloop.
  destruct (SoE.item_mapping_loop ev pre ∅ ∅) as [[n1 i1]|] eqn:Hpre;
    [|discriminate].
  pose proof (item_mapping_loop_absent ev pre _ _ _ _ _ Hpre
                (lookup_empty _) Hfirst) as Hnone.
  simpl in Hloop. rewrite Hnone in Hloop. unfold item_id.
  destruct (SoE.apid ev (RawItem.type item) (RawItem.index item)) as [id|];
    simpl in Hloop; [|discriminate].
  exists id. split; [reflexivity|].
  rewrite lookup_insert_ne by congruence.
  eapply item_mapping_loop_keeps; [exact Hloop|]. apply lookup_insert_eq.
Qed.

Lemma item_mapping_loop_names items :
  forall n i n' i',
    SoE.item_mapping_loop ev items n i = Ok (n', i') ->
    Forall (fun x => is_Some (n' !! RawItem.name x)) items.
Proof.
  induction items as [|x items IH]; simpl; intros n i n' i' Hrun;
    [constructor|].
  destruct (n !! RawItem.name x) as [v|] eqn:Hx.
  - constructor; [|eauto]. exists v.
    eapply item_mapping_loop_keeps; eauto.
  - destruct (SoE.apid ev _ _) as [a|]; simpl in Hrun; [|discriminate].
    constructor; [|eauto]. exists (Some a).
    eapply item_mapping_loop_keeps; [exact Hrun|]. apply lookup_insert_eq.
Qed.

Lemma class_item_names :
  SoE.SoEWorld_class ev = Ok cls ->
  Forall (fun x => is_Some (SoE.item_name_to_id cls !! RawItem.name x))
         (SoE._items ev).
Proof.
  intros Hcls. apply class_item_mapping in Hcls.
  unfold SoE._get_item_mapping in Hcls.
  destruct (SoE.item_mapping_loop ev (SoE._items ev) ∅ ∅)
    as [[n i]|] eqn:Hloop; simpl in Hcls; [|discriminate].
  injection Hcls as Hn Hi. rewrite <- Hn.
  apply item_mapping_loop_names in Hloop.
  eapply Forall_impl; [exact Hloop|]. intros x [v Hv]. cbv beta.
  destruct (decide (py "Victory" = RawItem.name x)) as [<-|Hne].
  - rewrite lookup_insert_eq. eauto.
  - rewrite lookup_insert_ne by assumption. eauto.
Qed.

(** The items of the comprehension of [create_items]. *)
Lemma create_pool_items_ok items :
  Forall (fun x => is_Some (SoE.item_name_to_id cls !! RawItem.name x))
         items ->
  exists created,
    SoE.create_pool_items cls self items = Ok created
    /\ Forall2 (fun raw it =>
                  Item.name it = RawItem.name raw
                  /\ Item.advancement it
                     = SoE.restrict_item_placement self
                       || RawItem.progression raw
                  /\ Item.player it = SoE.player self
                  /\ SoE.item_name_to_id cls !! RawItem.name raw
                     = Some (Item.code it))
               items created.
Proof.
  induction 1 as [|x items [v Hv] _ (created & Hrun & Hall)]; simpl.
  - exists []. split; [reflexivity | constructor].
  - unfold SoE.create_item, getitem. simpl. rewrite Hv. simpl.
    rewrite Hrun. simpl. eexists. split; [reflexivity|].
    constructor; [|exact Hall]. simpl. auto.
Qed.

End ItemPoolFacts.

(** X5: [create_item] gives every item of a name the code of the first
    catalog item of that name: an item later in the catalog is created
    with the numeric id of the first one, so the pool cannot tell the
    two apart. *)
Theorem create_item_collapses_duplicates
    (ev : pyevermizer.t) (cls : SoE.class_attrs) (self : SoE.t)
    (pre post : list RawItem.t) (first item : RawItem.t)
    (force_progression : bool) :
  SoE.SoEWorld_class ev = Ok cls ->
  SoE._items ev = pre ++ first :: post ->
  RawItem.name first ∉ map RawItem.name pre ->
  RawItem.name first <> py "Victory" ->
  RawItem.name item = RawItem.name first ->
  exists id,
    item_id ev first = Ok id
    /\ SoE.create_item cls self (inl item) force_progression
       = Ok (Item.mk (RawItem.name first)
                     (force_progression || RawItem.progression item)
                     (Some id) (SoE.player self)).
Proof.
  intros Hcls Hitems Hfirst Hne Hname.
  destruct (item_name_first_id ev _ _ pre post first Hitems Hfirst Hne
              (class_item_mapping ev cls Hcls)) as (id & Hid & Hlook).
  exists id. split; [exact Hid|].
  unfold SoE.create_item, getitem. simpl. rewrite Hname, Hlook. reflexivity.
Qed.

Lemma create_item_collapses_duplicates_witness :
  exists id,
    item_id sample_ev (RawItem.mk 3 5 (py "Wings") false) = Ok id
    /\ SoE.create_item sample_cls (SoE.__init__ 1)
         (inl (RawItem.mk 3 6 (py "Wings") false)) false
       = Ok (Item.mk (py "Wings") false (Some id) 1).
Proof.
  apply (create_item_collapses_duplicates sample_ev sample_cls (SoE.__init__ 1)
           [RawItem.mk 1 0 (py "Flash") true]
           [RawItem.mk 3 6 (py "Wings") false]
           (RawItem.mk 3 5 (py "Wings") false)
           (RawItem.mk 3 6 (py "Wings") false) false).
  - exact sample_class.
  - reflexivity.
  - apply (bool_decide_unpack _). vm_compute. exact I.
  - vm_compute. discriminate.
  - reflexivity.
Defined.

(** X6: [create_item] by name.  A name that no catalog item bears, and
    the name 'Victory', raise [KeyError]; the name of a catalog item
    gives an item of that name whose code leads back, through
    [item_id_to_raw], to a catalog item of the name. *)
Theorem create_item_by_name
    (ev : pyevermizer.t) (cls : SoE.class_attrs) (self : SoE.t)
    (name : str) (force_progression : bool) :
  catalog_wf ev ->
  SoE.SoEWorld_class ev = Ok cls ->
  (name ∉ map RawItem.name (SoE._items ev) \/ name = py "Victory" ->
   SoE.create_item cls self (inr name) force_progression = Raise KeyError)
  /\ (name ∈ map RawItem.name (SoE._items ev) -> name <> py "Victory" ->
      exists raw id,
        raw ∈ SoE._items ev
        /\ RawItem.name raw = name
        /\ SoE.item_id_to_raw cls !! id = Some raw
        /\ SoE.create_item cls self (inr name) force_progression
           = Ok (Item.mk name (force_progression || RawItem.progression raw)
                         (Some id) (SoE.player self))).
Proof.
  intros Hwf Hcls.
  pose proof (class_item_mapping ev cls Hcls) as Hmap.
  destruct (numeric_id_ranges_aux ev Hwf) as (Hi & _ & Hni & _).
  destruct (item_mapping_loop_inv ev (SoE._items ev) [] ∅ ∅)
    as (n & i & Hloop & HA & HB);
    [exact Hi | exact Hni | apply mapping_inv_empty |].
  unfold SoE._get_item_mapping in Hmap. rewrite Hloop in Hmap.
  simpl in Hmap, HB. injection Hmap as Hn Hi'.
  unfold SoE.create_item, getitem. rewrite <- Hn, <- Hi'. split.
  - intros [Hout | ->]; [|now rewrite lookup_insert_eq].
    destruct (decide (py "Victory" = name)) as [<-|Hne];
      [now rewrite lookup_insert_eq|].
    rewrite lookup_insert_ne by assumption.
    rewrite (item_mapping_loop_absent ev _ _ _ _ _ _ Hloop
               (lookup_empty _) Hout). reflexivity.
  - intros Hin Hne.
    pose proof (item_mapping_loop_names ev _ _ _ _ _ Hloop) as Hnames.
    apply list_elem_of_In, in_map_iff in Hin as (x & Hx & Hxin).
    rewrite Forall_forall in Hnames.
    destruct (Hnames x (proj2 (list_elem_of_In _ _) Hxin)) as [v Hv].
    rewrite Hx in Hv.
    destruct (HA _ _ Hv) as (id & raw & -> & Hraw & Hrname).
    destruct (HB _ _ Hraw) as (Hback & _ & Hdone).
    exists raw, id. split; [exact Hdone|]. split; [exact Hrname|].
    split; [exact Hraw|].
    rewrite lookup_insert_ne by congruence. rewrite Hv. simpl.
    rewrite Hraw. simpl. rewrite lookup_insert_ne by congruence.
    rewrite Hback. simpl. now rewrite Hrname.
Qed.

Lemma create_item_by_name_witness :
  SoE.create_item sample_cls (SoE.__init__ 1) (inr (py "Victory")) false
  = Raise KeyError.
Proof.
  apply (create_item_by_name sample_ev sample_cls (SoE.__init__ 1)
           (py "Victory") false sample_catalog_wf sample_class).
  right. reflexivity.
Defined.

(** X7: [create_items] appends one item for every catalog item, in
    catalog order, to the pool it finds: each has the name of its
    catalog item, the player of the world, the code the class has for
    the name, and is an advancement item if the catalog says so or the
    placement is restricted.  A pre-collected dict is emptied for this
    player and kept for every other player; a list is kept. *)
Theorem create_items_appends_catalog
    (ev : pyevermizer.t) (cls : SoE.class_attrs) (self : SoE.t)
    (pool : ItemPool.t) :
  SoE.SoEWorld_class ev = Ok cls ->
  exists created,
    SoE.create_items ev cls self pool
    = (Ok tt,
       ItemPool.mk (ItemPool.itempool pool ++ created)
         (match ItemPool.precollected_items pool with
          | inl l => inl l
          | inr d => inr (<[SoE.player self := []]> d)
          end))
    /\ Forall2 (fun raw it =>
                  Item.name it = RawItem.name raw
                  /\ Item.advancement it
                     = SoE.restrict_item_placement self
                       || RawItem.progression raw
                  /\ Item.player it = SoE.player self
                  /\ SoE.item_name_to_id cls !! RawItem.name raw
                     = Some (Item.code it))
               (SoE._items ev) created
    /\ (forall d other,
          ItemPool.precollected_items pool = inr d ->
          other <> SoE.player self ->
          <[SoE.player self := ([] : list Item.t)]> d !! other = d !! other).
Proof.
  intros Hcls.
  destruct (create_pool_items_ok cls self (SoE._items ev)
              (class_item_names ev cls Hcls)) as (created & Hrun & Hall).
  exists created. unfold SoE.create_items. rewrite Hrun.
  split; [reflexivity|]. split; [exact Hall|].
  intros d other _ Hne. now rewrite lookup_insert_ne.
Qed.

Lemma create_items_appends_catalog_witness :
  exists created,
    SoE.create_items sample_ev sample_cls sample_restricted
      (ItemPool.mk [] (inr {[1 := [Item.mk (py "Flash") true (Some 64000) 1]]}))
    = (Ok tt, ItemPool.mk created (inr {[1 := []]}))
    /\ length created = 3%nat.
Proof.
  destruct (create_items_appends_catalog sample_ev sample_cls sample_restricted
              (ItemPool.mk [] (inr {[1 := [Item.mk (py "Flash") true
                                              (Some 64000) 1]]}))
              sample_class) as (created & Hrun & Hall & _).
  exists created. split.
  - rewrite Hrun. reflexivity.
  - apply Forall2_length in Hall. rewrite <- Hall. reflexivity.
Defined.

(** ** After the fill *)

Section PostFill.
Context (cls : SoE.class_attrs) (self : SoE.t).

Lemma post_fill_location_ok l :
  post_fill_ready cls self l ->
  exists l', SoE.post_fill_location cls self l = Ok l'
             /\ post_filled cls self l l'.
Proof.
  intros (it & Hit & Hknown). unfold SoE.post_fill_location, SoE.getattr.
  rewrite Hit. simpl.
  assert (Hsame : ~ own_coded self it
                  \/ (exists code raw,
                        Item.code it = Some code
                        /\ SoE.item_id_to_raw cls !! code = Some raw
                        /\ RawItem.progression raw = true) ->
                  post_filled cls self l l).
  { intros Hno. repeat split; try reflexivity.
    exists it, it. repeat split; try assumption; try reflexivity.
    intros code raw Hown Hcode Hraw.
    destruct Hno as [Hno|(code' & raw' & Hc' & Hr' & Hp')];
      [contradiction|].
    rewrite Hcode in Hc'. injection Hc' as <-. rewrite Hraw in Hr'.
    injection Hr' as <-. rewrite Hp'. now rewrite andb_true_r. }
  destruct (Item.code it) as [code|] eqn:Hcode; simpl.
  - destruct (Z.eqb_spec code 0) as [Hz|Hnz]; simpl.
    + exists l. split; [reflexivity|]. apply Hsame. left.
      intros (_ & c & Hc & Hne). rewrite Hcode in Hc.
      injection Hc as <-. contradiction.
    + destruct (Z.eqb_spec (Item.player it) (SoE.player self))
        as [Hpl|Hpl]; simpl.
      * destruct (Hknown code eq_refl Hnz Hpl) as [raw Hraw].
        unfold getitem. rewrite Hraw. simpl.
        destruct (RawItem.progression raw) eqn:Hprog; simpl.
        -- exists l. split; [reflexivity|]. apply Hsame. right.
           exists code, raw. auto.
        -- eexists. split; [reflexivity|].
           repeat split; try reflexivity.
           exists it. eexists. split; [exact Hit|]. split; [reflexivity|].
           simpl. repeat split; try (symmetry; assumption).
           ++ intros Hno. exfalso. apply Hno. split; [assumption|].
              exists code. auto.
           ++ intros code' raw' _ Hc' Hr'. rewrite Hcode in Hc'.
              injection Hc' as <-.
              rewrite Hraw in Hr'. injection Hr' as <-.
              rewrite Hprog. now rewrite andb_false_r.
      * exists l. split; [reflexivity|]. apply Hsame. left.
        intros (Hp & _). contradiction.
  - exists l. split; [reflexivity|]. apply Hsame. left.
    intros (_ & c & Hc & _). rewrite Hcode in Hc. discriminate.
Qed.

Lemma post_fill_locations_ok ls :
  Forall (post_fill_ready cls self) ls ->
  exists ls', SoE.post_fill_locations cls self ls = (Ok tt, ls')
              /\ Forall2 (post_filled cls self) ls ls'.
Proof.
  induction 1 as [|l ls Hl _ (ls' & Hrun & Hall)]; simpl.
  - exists []. split; [reflexivity | constructor].
  - destruct (post_fill_location_ok l Hl) as (l' & -> & Hl').
    rewrite Hrun. exists (l' :: ls'). split; [reflexivity|].
    now constructor.
Qed.

Lemma post_fill_regions_ok rs :
  Forall (post_fill_ready cls self) (concat (map Region.locations rs)) ->
  exists rs',
    SoE.post_fill_regions cls self rs = (Ok tt, rs')
    /\ Forall2 (post_filled cls self)
         (concat (map Region.locations rs)) (concat (map Region.locations rs'))
    /\ map Region.name rs' = map Region.name rs
    /\ map Region.player rs' = map Region.player rs
    /\ map Region.exits rs' = map Region.exits rs.
Proof.
  induction rs as [|r rs IH]; simpl; intros Hready.
  - exists []. repeat split; constructor.
  - apply Forall_app in Hready as [Hr Hrs].
    destruct (post_fill_locations_ok _ Hr) as (ls' & -> & Hls).
    destruct (IH Hrs) as (rs' & -> & Hall & Hn & Hp & He).
    eexists. split; [reflexivity|]. simpl.
    rewrite Hn, Hp, He. repeat split.
    now apply Forall2_app.
Qed.

(** A location that [post_fill] has handled is left alone by a second
    pass. *)
Lemma post_fill_location_idempotent l l' :
  SoE.post_fill_location cls self l = Ok l' ->
  SoE.post_fill_location cls self l' = Ok l'.
Proof.
  unfold SoE.post_fill_location, SoE.getattr.
  destruct (Location.item l) as [it|] eqn:Hit; simpl; [|discriminate].
  destruct (Item.code it) as [code|] eqn:Hcode; simpl;
    [|intros [= <-]; rewrite Hit; simpl; now rewrite Hcode].
  destruct (code =? 0) eqn:Hz; simpl;
    [intros [= <-]; rewrite Hit; simpl; rewrite Hcode; simpl;
     now rewrite Hz|].
  destruct (Item.player it =? SoE.player self) eqn:Hpl; simpl;
    [|intros [= <-]; rewrite Hit; simpl; rewrite Hcode; simpl;
      now rewrite Hz, Hpl].
  unfold getitem.
  destruct (SoE.item_id_to_raw cls !! code) as [raw|] eqn:Hraw; simpl;
    [|discriminate].
  destruct (RawItem.progression raw) eqn:Hprog; simpl; intros [= <-].
  - rewrite Hit. simpl. rewrite Hcode. simpl. rewrite Hz, Hpl. simpl.
    rewrite Hraw. simpl. now rewrite Hprog.
  - simpl. rewrite Hz, Hpl. simpl. rewrite Hraw. simpl. now rewrite Hprog.
Qed.

Lemma post_fill_locations_idempotent ls :
  forall ls',
    SoE.post_fill_locations cls self ls = (Ok tt, ls') ->
    SoE.post_fill_locations cls self ls' = (Ok tt, ls').
Proof.
  induction ls as [|l ls IH]; simpl; intros ls' Hrun.
  - now inversion Hrun.
  - destruct (SoE.post_fill_location cls self l) as [l1|] eqn:Hl;
      [|discriminate].
    destruct (SoE.post_fill_locations cls self ls) as [[[]|e] ls1] eqn:Hls;
      inversion Hrun; subst ls'.
    simpl. rewrite (post_fill_location_idempotent _ _ Hl).
    now rewrite (IH _ eq_refl).
Qed.

Lemma post_fill_regions_idempotent rs :
  forall rs',
    SoE.post_fill_regions cls self rs = (Ok tt, rs') ->
    SoE.post_fill_regions cls self rs' = (Ok tt, rs').
Proof.
  induction rs as [|r rs IH]; simpl; intros rs' Hrun.
  - now inversion Hrun.
  - destruct (SoE.post_fill_locations cls self (Region.locations r))
      as [[[]|e] ls1] eqn:Hls.
    + destruct (SoE.post_fill_regions cls self rs) as [[[]|e] rs1] eqn:Hrs;
        inversion Hrun; subst rs'.
      simpl. rewrite (post_fill_locations_idempotent _ _ Hls).
      now rewrite (IH _ eq_refl).
    + inversion Hrun.
Qed.

End PostFill.

(** X8: in restricted mode, on a world whose locations all hold an item
    known to the class, [post_fill] succeeds and changes nothing but
    advancement flags: an item of this player with a nonzero code stays
    an advancement item only if its native item is a progression item;
    every other item, every rule and every region is as before. *)
Theorem post_fill_restores_native_progression
    (cls : SoE.class_attrs) (self : SoE.t) (w : MultiWorld.t) :
  SoE.restrict_item_placement self = true ->
  Forall (post_fill_ready cls self) (MultiWorld.get_locations w) ->
  exists w',
    SoE.post_fill cls self w = (Ok tt, w')
    /\ Forall2 (post_filled cls self)
         (MultiWorld.get_locations w) (MultiWorld.get_locations w')
    /\ map Region.name (MultiWorld.regions w')
       = map Region.name (MultiWorld.regions w)
    /\ MultiWorld.get_entrances w' = MultiWorld.get_entrances w
    /\ MultiWorld.completion_condition w' = MultiWorld.completion_condition w.
Proof.
  intros Hr Hready. unfold SoE.post_fill. rewrite Hr.
  destruct (post_fill_regions_ok cls self _ Hready)
    as (rs' & -> & Hall & Hn & _ & He).
  eexists. split; [reflexivity|].
  split; [exact Hall|]. split; [exact Hn|].
  unfold MultiWorld.get_entrances. simpl. now rewrite He.
Qed.

Lemma sample_world_forced_ready :
  Forall (post_fill_ready sample_cls sample_restricted)
         (MultiWorld.get_locations sample_world_forced).
Proof.
  repeat (apply Forall_cons; split); try apply Forall_nil_2;
    (eexists; split; [reflexivity|]);
    intros code Hcode Hnz Hplayer; try discriminate Hplayer;
    injection Hcode as <-; eexists; vm_compute; reflexivity.
Defined.

Lemma post_fill_restores_native_progression_witness :
  exists w',
    SoE.post_fill sample_cls sample_restricted sample_world_forced = (Ok tt, w')
    /\ Forall2 (post_filled sample_cls sample_restricted)
         (MultiWorld.get_locations sample_world_forced)
         (MultiWorld.get_locations w').
Proof.
  destruct (post_fill_restores_native_progression sample_cls sample_restricted
              sample_world_forced eq_refl sample_world_forced_ready)
    as (w' & Hrun & Hall & _).
  exists w'. split; [exact Hrun | exact Hall].
Defined.

(** The forced 'Wings' is no advancement item after [post_fill]; the
    item of player 2 is as it was. *)
Example sample_post_fill :
  map (fun l => Item.advancement <$> Location.item l)
      (MultiWorld.get_locations
         (SoE.post_fill sample_cls sample_restricted sample_world_forced).2)
  = [Some false; Some true].
Proof. vm_compute. reflexivity. Qed.

(** X9: a second [post_fill] changes nothing: whenever [post_fill]
    succeeds, running it again on its result succeeds with the same
    world.  Outside restricted mode [post_fill] does nothing at all. *)
Theorem post_fill_idempotent
    (cls : SoE.class_attrs) (self : SoE.t) (w w' : MultiWorld.t) :
  SoE.post_fill cls self w = (Ok tt, w') ->
  SoE.post_fill cls self w' = (Ok tt, w')
  /\ (SoE.restrict_item_placement self = false -> w' = w).
Proof.
  unfold SoE.post_fill.
  destruct (SoE.restrict_item_placement self).
  - destruct (SoE.post_fill_regions cls self (MultiWorld.regions w))
      as [[[]|e] rs] eqn:Hrs; intros Hrun; inversion Hrun; subst w'.
    simpl. rewrite (post_fill_regions_idempotent cls self _ _ Hrs).
    split; [reflexivity | discriminate].
  - intros [= <-]. auto.
Qed.

Lemma post_fill_idempotent_witness :
  SoE.post_fill sample_cls sample_restricted
    (SoE.post_fill sample_cls sample_restricted sample_world_forced).2
  = (Ok tt, (SoE.post_fill sample_cls sample_restricted sample_world_forced).2).
Proof.
  apply (post_fill_idempotent sample_cls sample_restricted sample_world_forced).
  vm_compute. reflexivity.
Defined.

(** ** Regions and rules *)

Section RegionFacts.
Context (ev : pyevermizer.t) (cls : SoE.class_attrs) (self : SoE.t).

Lemma alter_entrance_skip P f rs rs2 :
  Forall (fun e => P e = false) (concat (map Region.exits rs)) ->
  MultiWorld.alter_entrance P f (rs ++ rs2)
  = match MultiWorld.alter_entrance P f rs2 with
    | Some rs2' => Some (rs ++ rs2')
    | None => None
    end.
Proof.
  induction rs as [|r rs IH]; simpl; intros Hno.
  - destruct (MultiWorld.alter_entrance P f rs2); reflexivity.
  - apply Forall_app in Hno as [Hr Hrs].
    rewrite (alter_first_none P f _ Hr), (IH Hrs).
    destruct (MultiWorld.alter_entrance P f rs2); reflexivity.
Qed.

Lemma get_region_name name player w n :
  MultiWorld.get_region name player w = Ok n -> n = name.
Proof.
  unfold MultiWorld.get_region.
  destruct (find _ _) as [r|] eqn:Hfind; [|discriminate].
  intros [= <-]. apply find_some in Hfind as [_ Hr].
  unfold MultiWorld.is_region in Hr.
  apply andb_true_iff in Hr as [Hr _]. now apply bool_decide_eq_true in Hr.
Qed.

Lemma make_rule_Forall requires state :
  SoE.make_rule self requires state = true <->
  Forall (fun '(count, token) =>
            CollectionState._soe_has state token (SoE.player self) count
            = true) requires.
Proof.
  induction requires as [|[count token] requires IH]; simpl.
  - split; [constructor | reflexivity].
  - destruct (CollectionState._soe_has state token (SoE.player self) count)
      eqn:Hhas; simpl.
    + rewrite IH. split; [intros; constructor; assumption|].
      intros H. inversion H; assumption.
    + split; [discriminate|]. intros H. inversion H; subst. congruence.
Qed.

(** The values of the location mapping are ids of catalog locations. *)
Lemma location_mapping_loop_values locs :
  forall n i n' i' nm v,
    SoE.location_mapping_loop ev locs n i = Ok (n', i') ->
    n' !! nm = Some v ->
    n !! nm = Some v
    \/ exists l id, l ∈ locs /\ location_id ev l = Ok id /\ v = Some id.
Proof.
  induction locs as [|x locs IH]; simpl; intros n i n' i' nm v Hrun Hv.
  - inversion Hrun; subst. auto.
  - destruct (SoE.apid ev _ _) as [a|] eqn:Ha; simpl in Hrun; [|discriminate].
    destruct (IH _ _ _ _ _ _ Hrun Hv) as [Hold|(l & id & Hl & Hid & ->)].
    + destruct (decide (RawLocation.name x = nm)) as [<-|Hne].
      * rewrite lookup_insert_eq in Hold. injection Hold as <-.
        right. exists x, a. split; [apply list_elem_of_here | auto].
      * rewrite lookup_insert_ne in Hold by assumption. auto.
    + right. exists l, id. split; [now apply list_elem_of_further | auto].
Qed.

End RegionFacts.

(** X10: on a world in which the player has no entrance 'New Game' yet,
    [create_regions] appends exactly two regions and changes nothing
    else: 'Menu', whose only exit 'New Game' is connected to 'Ingame',
    and 'Ingame', which holds one location for every catalog location,
    in catalog order, followed by 'Done'. *)
Theorem create_regions_appends_menu_and_ingame
    (ev : pyevermizer.t) (cls : SoE.class_attrs) (self : SoE.t)
    (w : MultiWorld.t) :
  SoE.SoEWorld_class ev = Ok cls ->
  Forall (fun e => MultiWorld.is_entrance (py "New Game") (SoE.player self) e
                   = false)
         (MultiWorld.get_entrances w) ->
  SoE.create_regions ev cls self w
  = Ok (MultiWorld.with_regions
          (MultiWorld.regions w
           ++ [Region.mk (py "Menu") (SoE.player self)
                 [Entrance.connect (py "Ingame")
                    (new_entrance (SoE.player self) (py "New Game"))] [];
               Region.mk (py "Ingame") (SoE.player self) []
                 (map (created_location cls self) (SoE._locations ev)
                  ++ [SoE.SoELocation (SoE.player self) (py "Done") None])])
          w).
Proof.
  intros Hcls Hnew. unfold SoE.create_regions.
  rewrite (create_locations_ok cls self _ (class_location_names ev cls Hcls)).
  simpl.
  destruct (MultiWorld.get_region (py "Ingame") (SoE.player self) _)
    as [n|] eqn:Hregion.
  - apply get_region_name in Hregion as ->. simpl.
    unfold MultiWorld.update_entrance. simpl.
    rewrite <- app_assoc. simpl.
    rewrite (alter_entrance_skip _ _ _ _ Hnew). simpl.
    rewrite is_entrance_new. reflexivity.
  - exfalso. unfold MultiWorld.get_region in Hregion. simpl in Hregion.
    destruct (find _ _) as [r|] eqn:Hfind; [discriminate|].
    pose proof (find_none _ _ Hfind
                  (Region.mk (py "Ingame") (SoE.player self) []
                     (map (created_location cls self) (SoE._locations ev)
                      ++ [SoE.SoELocation (SoE.player self) (py "Done") None])))
      as Hno.
    rewrite is_region_mk in Hno. discriminate Hno.
    apply in_or_app. right. left. reflexivity.
Qed.

Lemma create_regions_appends_menu_and_ingame_witness :
  map Region.name
      (MultiWorld.regions
         match SoE.create_regions sample_ev sample_cls (SoE.__init__ 1)
                 sample_world with
         | Ok w => w
         | Raise _ => sample_world
         end)
  = [py "Menu"; py "Ingame"].
Proof.
  rewrite (create_regions_appends_menu_and_ingame sample_ev sample_cls
             (SoE.__init__ 1) sample_world sample_class);
    [reflexivity | constructor].
Defined.

(** X11: after [create_regions] and [set_rules] on a player new to the
    world, the location of every catalog location is accessible in a
    state exactly when the state has every requirement of the catalog
    location; it is empty and not locked; outside restricted mode its
    item filter accepts every candidate; and the locations the world
    had before are as they were. *)
Theorem set_rules_installs_access_rules
    (ev : pyevermizer.t) (cls : SoE.class_attrs) (self : SoE.t)
    (w0 : MultiWorld.t) :
  SoE.SoEWorld_class ev = Ok cls ->
  fresh_player self w0 ->
  NoDup (map RawLocation.name (SoE._locations ev)) ->
  py "Done" ∉ map RawLocation.name (SoE._locations ev) ->
  exists w1 w2 own,
    SoE.create_regions ev cls self w0 = Ok w1
    /\ SoE.set_rules ev cls self w1 = Ok w2
    /\ MultiWorld.get_locations w2 = MultiWorld.get_locations w0 ++ own
    /\ forall loc,
         loc ∈ SoE._locations ev ->
         exists location,
           MultiWorld.get_location (RawLocation.name loc) (SoE.player self) w2
           = Ok location
           /\ (forall state,
                 Location.access_rule location state = true <->
                 Forall (fun '(count, token) =>
                           CollectionState._soe_has state token
                             (SoE.player self) count = true)
                        (RawLocation.requires loc))
           /\ Location.item location = None
           /\ Location.locked location = false
           /\ (SoE.restrict_item_placement self = false ->
               forall candidate,
                 Location.item_rule location candidate = Ok true).
Proof.
  intros Hcls Hfresh Hnames Hdone.
  destruct (create_regions_flat ev cls self w0
              (class_location_names ev cls Hcls))
    as (w1 & Hrun1 & Hflat1 & Hent1 & _).
  pose proof (done_not_before ev cls self w0 Hfresh Hdone) as Hpre.
  destruct (set_rules_prelude ev cls self w1 _ Hflat1 Hpre Hent1)
    as (we & Hset & Hflate & _).
  assert (HA : Forall (fun loc => (RawLocation.name loc, SoE.player self)
                                  ∉ map location_key
                                        (MultiWorld.get_locations w0))
                      (SoE._locations ev)).
  { apply Forall_forall. intros loc _. now apply fresh_player_keys. }
  rewrite <- app_assoc in Hflate.
  destruct (set_location_rules_installs cls self (SoE._locations ev)
              we _ _ Hflate Hnames HA) as (w2 & Hrun2 & Hflat2).
  exists w1, w2. eexists.
  split; [exact Hrun1|]. split; [now rewrite Hset|].
  split; [exact Hflat2|].
  intros loc Hloc. eexists. split.
  { unfold MultiWorld.get_location. rewrite Hflat2.
    rewrite (find_installed cls self _ _ _ loc Hnames HA Hloc). reflexivity. }
  unfold SoE.location_rules.
  destruct (SoE.restrict_item_placement self) eqn:Hr; simpl;
    (split; [intros state; apply make_rule_Forall|]);
    (split; [reflexivity|]); (split; [reflexivity|]);
    [discriminate | reflexivity].
Qed.

Lemma set_rules_installs_access_rules_witness :
  exists w2 location,
    MultiWorld.get_location (py "Gourd #5") 1 w2 = Ok location
    /\ Location.item location = None
    /\ forall candidate, Location.item_rule location candidate = Ok true.
Proof.
  destruct (set_rules_installs_access_rules sample_ev sample_cls
              (SoE.__init__ 1) sample_world sample_class sample_world_fresh
              sample_location_names sample_no_done)
    as (_ & w2 & _ & _ & _ & _ & Hall).
  destruct (Hall (RawLocation.mk 3 5 (py "Gourd #5") [(1, 7)]))
    as (location & Hget & _ & Hitem & _ & Hrule).
  - vm_compute. apply list_elem_of_further, list_elem_of_here.
  - exists w2, location. split; [exact Hget|]. split; [exact Hitem|].
    apply Hrule. reflexivity.
Defined.

(** X12: on a catalog that keeps to its slots and has no location named
    'Done', the locations [create_regions] builds for the catalog have a
    numeric address between 64000 and 64499 and are no event locations;
    'Done' has no address and is the one event location. *)
Theorem only_done_is_event
    (ev : pyevermizer.t) (cls : SoE.class_attrs) (self : SoE.t) :
  catalog_wf ev ->
  SoE.SoEWorld_class ev = Ok cls ->
  py "Done" ∉ map RawLocation.name (SoE._locations ev) ->
  (forall loc,
     loc ∈ SoE._locations ev ->
     Location.event (created_location cls self loc) = false
     /\ exists id,
          Location.address (created_location cls self loc) = Some id
          /\ 64000 <= id < 64500)
  /\ Location.event (SoE.SoELocation (SoE.player self) (py "Done") None) = true
  /\ Location.address (SoE.SoELocation (SoE.player self) (py "Done") None)
     = None.
Proof.
  intros Hwf Hcls Hdone. split; [|split; reflexivity].
  intros loc Hloc.
  pose proof (class_location_names ev cls Hcls) as Hnames.
  rewrite Forall_forall in Hnames. destruct (Hnames loc Hloc) as [v Hv].
  assert (Hne : py "Done" <> RawLocation.name loc).
  { intros Heq. apply Hdone. rewrite Heq.
    apply list_elem_of_In, in_map, list_elem_of_In, Hloc. }
  unfold SoE.SoEWorld_class, SoE._get_location_mapping in Hcls.
  destruct (SoE._get_item_mapping ev) as [[in2i ii2r]|]; simpl in Hcls;
    [|discriminate].
  destruct (SoE.location_mapping_loop ev (SoE._locations ev) ∅ ∅)
    as [[ln2i li2r]|] eqn:Hloop; simpl in Hcls; [|discriminate].
  injection Hcls as <-. simpl in Hv.
  rewrite lookup_insert_ne in Hv by assumption.
  destruct (location_mapping_loop_values ev _ _ _ _ _ _ _ Hloop Hv)
    as [Hempty|(l & id & Hl & Hid & ->)];
    [rewrite lookup_empty in Hempty; discriminate|].
  destruct Hwf as (Hcats & _ & _ & Hslots & _).
  pose proof (locations_in_slots ev Hslots) as Hslots'.
  rewrite Forall_forall in Hslots'.
  destruct (id_in_reserved_range_of_slots ev _ _ Hcats (Hslots' l Hl))
    as (off & id' & _ & Hid' & _ & Hrange).
  unfold location_id in Hid. rewrite Hid in Hid'. injection Hid' as <-.
  assert (Hbound : 64000 <= id < 64500).
  { destruct Hrange as [(_ & _ & ?)|[(_ & _ & ?)|[(_ & _ & ?)|(_ & _ & ?)]]];
      lia. }
  unfold created_location. simpl.
  rewrite lookup_insert_ne by assumption. rewrite Hv. simpl.
  split; [|eauto].
  destruct (Z.eqb_spec id 0); [lia | reflexivity].
Qed.

Lemma only_done_is_event_witness :
  Location.event
    (created_location sample_cls (SoE.__init__ 1)
       (RawLocation.mk 3 5 (py "Gourd #5") [(1, 7)])) = false.
Proof.
  apply (only_done_is_event sample_ev sample_cls (SoE.__init__ 1)
           sample_catalog_wf sample_class sample_no_done).
  vm_compute. apply list_elem_of_further, list_elem_of_here.
Defined.

(** ** The connect name *)

Section HandoffFacts.

Lemma slice_to_32_short {A} (s : list A) :
  (length s <= 32)%nat -> slice_to 32 s = s.
Proof.
  intros H. change 32 with (Z.of_nat 32). rewrite slice_to_take.
  now apply take_ge.
Qed.

Lemma shrink_connect_name_fits fuel s :
  fits s -> SoE.shrink_connect_name (S fuel) s = Some (Ok tt, s).
Proof.
  intros (b & Hb & Hle). simpl. unfold encode. rewrite Hb.
  destruct (Z.ltb_spec 32 (Z.of_nat (length b))); [lia | reflexivity].
Qed.

Lemma prefix_both_take {A} (r s : list A) (n : nat) :
  r `prefix_of` s -> take n s `prefix_of` r -> (length r <= n)%nat ->
  r = take n s.
Proof.
  intros [q ->] [q' Hq'] Hlen.
  rewrite take_app in Hq'. rewrite take_ge in Hq' by assumption.
  rewrite take_app, take_ge by assumption.
  apply (f_equal length) in Hq' as Hl. rewrite !length_app in Hl.
  assert (Hnil : take (n - length r) q = []) by (apply nil_length_inv; lia).
  now rewrite Hnil, app_nil_r.
Qed.

End HandoffFacts.

(** X13: a display name whose UTF-8 encoding is at most 32 bytes long is
    its own connect name: name finalization keeps it and sets the event,
    and [modify_multidata] then returns [multidata] as it is, whatever
    it holds. *)
Theorem short_name_is_kept {Payload : Type}
    (fuel : nat) (self : SoE.t) (w : MultiWorld.t) (name : str)
    (multidata : gmap str (gmap str Payload)) :
  MultiWorld.player_name w !! SoE.player self = Some name ->
  fits name ->
  SoE.finalize_name (S fuel) self w
  = Some (Ok name,
          SoE.set_connect_name_available_event
            (SoE.with_connect_name name self))
  /\ SoE.modify_multidata
       (SoE.set_connect_name_available_event (SoE.with_connect_name name self))
       w multidata
     = Some (Ok multidata).
Proof.
  intros Hname Hfits. split.
  - unfold SoE.finalize_name, MultiWorld.get_player_name, getitem.
    rewrite Hname, (slice_to_32_short name (fits_length _ Hfits)).
    now rewrite (shrink_connect_name_fits fuel name Hfits).
  - unfold SoE.modify_multidata. simpl. unfold getitem. rewrite Hname.
    destruct (decide (name = [])) as [Hnil|Hnn].
    + now rewrite bool_decide_eq_true_2.
    + rewrite bool_decide_eq_false_2 by assumption. simpl.
      now rewrite bool_decide_eq_true_2.
Qed.

Lemma short_name_is_kept_witness :
  SoE.finalize_name 1 (SoE.__init__ 1) sample_world
  = Some (Ok (py "Hero"),
          SoE.set_connect_name_available_event
            (SoE.with_connect_name (py "Hero") (SoE.__init__ 1))).
Proof.
  apply (@short_name_is_kept (Z * Z) 0 (SoE.__init__ 1) sample_world
           (py "Hero") ∅).
  - reflexivity.
  - eexists. split; [vm_compute; reflexivity | simpl; lia].
Defined.

(** X14: the finalized name has at most 32 characters and keeps at
    least the first 8 characters of the display name, or all of them if
    there are fewer; a display name of ASCII characters is cut to its
    first 32 characters. *)
Theorem finalized_name_length
    (fuel : nat) (self : SoE.t) (w : MultiWorld.t) (name : str) :
  MultiWorld.player_name w !! SoE.player self = Some name ->
  is_Some (utf8 (take 32 name)) ->
  (32 < fuel)%nat ->
  exists r,
    SoE.finalize_name fuel self w
    = Some (Ok name,
            SoE.set_connect_name_available_event (SoE.with_connect_name r self))
    /\ (length name `min` 8 <= length r <= 32)%nat
    /\ (Forall (fun c => 0 <= c < 128) name -> r = take 32 name).
Proof.
  intros Hname Henc Hfuel.
  destruct (finalize_name_spec fuel self w name Hname Henc Hfuel)
    as (r & Hrun & Hpre & Hfit & Hmax).
  exists r. split; [exact Hrun|]. split; [split|].
  - assert (H8 : take 8 name `prefix_of` r).
    { apply Hmax; [apply prefix_take|].
      destruct Henc as [b Hb].
      destruct (utf8_prefix (take 8 name) (take 32 name) b) as (b8 & Hb8 & _).
      { replace (take 8 name) with (take 8 (take 32 name))
          by (rewrite take_take; f_equal).
        apply prefix_take. }
      { exact Hb. }
      exists b8. split; [exact Hb8|].
      pose proof (utf8_length _ _ Hb8) as Hl. rewrite length_take in Hl. lia. }
    apply prefix_length in H8. rewrite length_take in H8. lia.
  - now apply fits_length.
  - intros Hascii. apply prefix_both_take; [exact Hpre | | now apply fits_length].
    apply Hmax; [apply prefix_take|].
    exists (take 32 name). split.
    + apply utf8_ascii. now apply Forall_take.
    + rewrite length_take. lia.
Qed.

Lemma finalized_name_length_witness :
  exists r,
    SoE.finalize_name 33 (SoE.__init__ 1) world_20
    = Some (Ok name_20,
            SoE.set_connect_name_available_event
              (SoE.with_connect_name r (SoE.__init__ 1)))
    /\ (8 <= length r <= 32)%nat.
Proof.
  destruct (finalized_name_length 33 (SoE.__init__ 1) world_20 name_20)
    as (r & Hrun & Hlen & _).
  - reflexivity.
  - eexists. vm_compute. reflexivity.
  - lia.
  - exists r. split; [exact Hrun | exact Hlen].
Defined.

(** X15: when name finalization raises, because the player has no
    registered name or because the name cannot be encoded, the event
    stays unset: [generate_output] raises the same error without
    touching a file, and [modify_multidata] waits without end and
    changes nothing. *)
Theorem failed_finalize_blocks_handoff {Payload : Type}
    (ev : pyevermizer.t) (cls : SoE.class_attrs) (host : Host.t)
    (fuel : nat) (self self' : SoE.t) (w : MultiWorld.t) (e : exn)
    (output_directory : str) (fs : FS)
    (multidata : gmap str (gmap str Payload)) :
  SoE.connect_name_available_event self = false ->
  SoE.finalize_name fuel self w = Some (Raise e, self') ->
  (e = KeyError \/ e = UnicodeEncodeError)
  /\ SoE.connect_name_available_event self' = false
  /\ SoE.generate_output ev cls host fuel self w output_directory fs
     = Some (Raise e, self', fs)
  /\ SoE.modify_multidata self' w multidata = None.
Proof.
  intros Hevent Hfin.
  assert (He : (e = KeyError \/ e = UnicodeEncodeError)
               /\ SoE.connect_name_available_event self' = false).
  { unfold SoE.finalize_name, MultiWorld.get_player_name, getitem in Hfin.
    destruct (MultiWorld.player_name w !! SoE.player self) as [name|].
    - destruct (SoE.shrink_connect_name fuel (slice_to 32 name))
        as [[[[]|e'] cn]|] eqn:Hrun; inversion Hfin; subst.
      split; [|exact Hevent]. right.
      clear Hfin. revert Hrun. generalize (slice_to 32 name).
      induction fuel as [|n IH]; simpl; intros s; [discriminate|].
      unfold encode. destruct (utf8 s) as [b|].
      + destruct (32 <? Z.of_nat (length b)); [apply IH | discriminate].
      + now intros [= <- _].
    - inversion Hfin; subst. auto. }
  destruct He as [He Hev]. split; [exact He|]. split; [exact Hev|].
  split.
  - unfold SoE.generate_output. now rewrite Hfin.
  - unfold SoE.modify_multidata. now rewrite Hev.
Qed.

Lemma failed_finalize_blocks_handoff_witness :
  SoE.modify_multidata (SoE.with_connect_name [0xD800] (SoE.__init__ 1))
    surrogate_world multidata_20
  = None.
Proof.
  apply (@failed_finalize_blocks_handoff (Z * Z) sample_ev sample_cls
           sample_host 33 (SoE.__init__ 1)
           (SoE.with_connect_name [0xD800] (SoE.__init__ 1))
           surrogate_world UnicodeEncodeError (py "out") ∅ multidata_20).
  - reflexivity.
  - vm_compute. reflexivity.
Defined.

(** X16: [modify_multidata] raises [KeyError], and returns no changed
    [multidata], when the finalized name differs from the registered
    name and [multidata] has no 'connect_names' table or the table has
    no entry for the registered name. *)
Theorem modify_multidata_missing_key {Payload : Type}
    (self : SoE.t) (w : MultiWorld.t) (finalized name : str)
    (multidata : gmap str (gmap str Payload)) :
  SoE.connect_name_available_event self = true ->
  SoE.connect_name self = Some finalized ->
  MultiWorld.player_name w !! SoE.player self = Some name ->
  finalized <> [] ->
  finalized <> name ->
  (multidata !! py "connect_names" = None
   \/ exists table,
        multidata !! py "connect_names" = Some table /\ table !! name = None) ->
  SoE.modify_multidata self w multidata = Some (Raise KeyError).
Proof.
  intros Hev Hcn Hname Hnn Hne Hmiss.
  unfold SoE.modify_multidata. rewrite Hev, Hcn. simpl. unfold getitem.
  rewrite Hname. rewrite bool_decide_eq_false_2 by assumption. simpl.
  rewrite bool_decide_eq_false_2 by assumption. simpl.
  destruct Hmiss as [Hnone|(table & Htable & Hnone)].
  - now rewrite Hnone.
  - rewrite Htable. simpl. now rewrite Hnone.
Qed.

Lemma modify_multidata_missing_key_witness :
  SoE.modify_multidata
    (SoE.set_connect_name_available_event
       (SoE.with_connect_name (take 16 name_20) (SoE.__init__ 1)))
    world_20 (∅ : gmap str (gmap str (Z * Z)))
  = Some (Raise KeyError).
Proof.
  apply (modify_multidata_missing_key _ world_20 (take 16 name_20) name_20).
  - reflexivity.
  - reflexivity.
  - reflexivity.
  - vm_compute. discriminate.
  - vm_compute. discriminate.
  - left. reflexivity.
Defined.

(** X17: when [modify_multidata] rewrites the key, it touches nothing
    but the 'connect_names' table, and in the table nothing but the two
    names: the finalized name holds the payload, also when another
    entry had that name before, the registered name is gone, and every
    other entry is kept. *)
Theorem modify_multidata_frame {Payload : Type}
    (self : SoE.t) (w : MultiWorld.t) (finalized name : str)
    (multidata : gmap str (gmap str Payload)) (table : gmap str Payload)
    (payload : Payload) :
  SoE.connect_name_available_event self = true ->
  SoE.connect_name self = Some finalized ->
  MultiWorld.player_name w !! SoE.player self = Some name ->
  finalized <> [] ->
  finalized <> name ->
  multidata !! py "connect_names" = Some table ->
  table !! name = Some payload ->
  exists multidata' table',
    SoE.modify_multidata self w multidata = Some (Ok multidata')
    /\ multidata' !! py "connect_names" = Some table'
    /\ (forall k, k <> py "connect_names" -> multidata' !! k = multidata !! k)
    /\ table' !! finalized = Some payload
    /\ table' !! name = None
    /\ (forall k, k <> finalized -> k <> name -> table' !! k = table !! k).
Proof.
  intros Hev Hcn Hname Hnn Hne Htable Hpayload.
  unfold SoE.modify_multidata. rewrite Hev, Hcn. simpl. unfold getitem.
  rewrite Hname. rewrite bool_decide_eq_false_2 by assumption. simpl.
  rewrite bool_decide_eq_false_2 by assumption. simpl.
  rewrite Htable. simpl. rewrite Hpayload. simpl.
  rewrite lookup_insert_ne by assumption. rewrite Hpayload. simpl.
  eexists. eexists. split; [reflexivity|].
  split; [apply lookup_insert_eq|].
  split; [intros k Hk; now rewrite lookup_insert_ne|].
  split; [rewrite lookup_delete_ne by congruence; apply lookup_insert_eq|].
  split; [apply lookup_delete_eq|].
  intros k Hk1 Hk2. rewrite lookup_delete_ne by congruence.
  now rewrite lookup_insert_ne.
Qed.

Lemma modify_multidata_frame_witness :
  exists multidata' table',
    SoE.modify_multidata
      (SoE.set_connect_name_available_event
         (SoE.with_connect_name (take 16 name_20) (SoE.__init__ 1)))
      world_20 multidata_20 = Some (Ok multidata')
    /\ multidata' !! py "connect_names" = Some table'
    /\ table' !! take 16 name_20 = Some (0, 1)
    /\ table' !! name_20 = None.
Proof.
  destruct (modify_multidata_frame
              (SoE.set_connect_name_available_event
                 (SoE.with_connect_name (take 16 name_20) (SoE.__init__ 1)))
              world_20 (take 16 name_20) name_20 multidata_20
              {[name_20 := (0, 1)]} (0, 1))
    as (multidata' & table' & Hrun & Htable & _ & Hnew & Hold & _).
  - reflexivity.
  - reflexivity.
  - reflexivity.
  - vm_compute. discriminate.
  - vm_compute. discriminate.
  - reflexivity.
  - reflexivity.
  - exists multidata', table'. auto.
Defined.

(** X18: the flag string is the flags so far followed by what the
    options that define [to_flag] contribute, in the order of the
    option names.  The loop stops at the first option name it cannot
    read for the player: a name that is no attribute of the world raises
    [AttributeError], an attribute without an entry for the player
    raises [KeyError]. *)
Theorem flags_loop_appends_option_flags
    (self : SoE.t) (w : MultiWorld.t) (names : list str) (flags : str) :
  (Forall (fun n => is_Some (MultiWorld.options w !! n
                             ≫= (.!! SoE.player self))) names ->
   SoE.flags_loop self w names flags
   = Ok (flags
         ++ concat (omap (fun n =>
                            (MultiWorld.options w !! n
                             ≫= (.!! SoE.player self))
                            ≫= OptionValue.to_flag) names)))
  /\ (forall before n after,
        names = before ++ n :: after ->
        Forall (fun n => is_Some (MultiWorld.options w !! n
                                  ≫= (.!! SoE.player self))) before ->
        (MultiWorld.options w !! n = None ->
         SoE.flags_loop self w names flags = Raise AttributeError)
        /\ (forall per_player,
              MultiWorld.options w !! n = Some per_player ->
              per_player !! SoE.player self = None ->
              SoE.flags_loop self w names flags = Raise KeyError)).
Proof.
  split.
  - intros Hall. revert flags.
    induction Hall as [|n names [o Ho] _ IH]; intros flags; simpl.
    + now rewrite app_nil_r.
    + unfold MultiWorld.get_option, getitem.
      destruct (MultiWorld.options w !! n) as [per_player|];
        simpl in Ho; [|discriminate].
      simpl. rewrite !Ho. simpl.
      destruct (OptionValue.to_flag o) as [flag|]; simpl; rewrite IH.
      * now rewrite <- app_assoc.
      * reflexivity.
  - intros before n after -> Hbefore. revert flags.
    induction Hbefore as [|x before [o Ho] _ IH]; intros flags; simpl.
    + unfold MultiWorld.get_option, getitem. split.
      * intros Hn. now rewrite Hn.
      * intros per_player Hn Hplayer. now rewrite Hn, Hplayer.
    + unfold MultiWorld.get_option, getitem.
      destruct (MultiWorld.options w !! x) as [per_player|];
        simpl in Ho; [|discriminate].
      rewrite Ho. simpl.
      destruct (OptionValue.to_flag o); apply IH.
Qed.

Lemma flags_loop_appends_option_flags_witness :
  SoE.flags_loop sample_self sample_world_filled
    [py "difficulty"; py "exp_modifier"] (py "l")
  = Ok (py "ln").
Proof.
  destruct (flags_loop_appends_option_flags sample_self sample_world_filled
              [py "difficulty"; py "exp_modifier"] (py "l")) as [Hok _].
  rewrite Hok; [vm_compute; reflexivity|].
  repeat (apply Forall_cons; split; [eexists; vm_compute; reflexivity|]).
  apply Forall_nil_2.
Defined.

(** ** The output pipeline *)

Section PipelineFacts.
Context (ev : pyevermizer.t) (cls : SoE.class_attrs) (host : Host.t).

Lemma write_placement_app self f l1 l2 s :
  SoE.write_placement ev cls self f (l1 ++ l2) s
  = match SoE.write_placement ev cls self f l1 s with
    | (Ok _, s1) => SoE.write_placement ev cls self f l2 s1
    | (Raise e, s1) => (Raise e, s1)
    end.
Proof.
  revert s. induction l1 as [|x l1 IH]; intros s; simpl; [reflexivity|].
  destruct (Location.player x =? SoE.player self); [|apply IH].
  unfold Pipeline.bind, Pipeline.lift.
  destruct (SoE.placement_line ev cls self x) as [[line|]|e];
    [| apply IH | reflexivity].
  destruct (encode line) as [data|e]; [|reflexivity].
  apply IH.
Qed.

(** The placement loop on resolved locations. *)
Lemma write_placement_resolved self f locations :
  forall s old,
    Pipeline.fs s !! f = Some old ->
    Forall (resolved cls self) locations ->
    exists records : list (list str),
      Forall2 (placement_record ev cls self) locations records
      /\ SoE.write_placement ev cls self f locations s
         = (Ok tt,
            Pipeline.with_fs
              (<[f := old ++ concat (concat records)]> (Pipeline.fs s)) s).
Proof.
  intros s old Hold Hres. revert s old Hold.
  induction Hres as [|location locations Hloc _ IH]; intros s old Hold.
  - exists []. split; [constructor|].
    simpl. rewrite app_nil_r, insert_id by assumption.
    destruct s; reflexivity.
  - simpl.
    destruct (Z.eqb_spec (Location.player location) (SoE.player self))
      as [Hplayer|Hplayer].
    + destruct (placement_line_resolved ev cls self location Hplayer Hloc)
        as (record & Hrec & Hline & Hlen).
      pose proof (placement_record_wf ev cls self _ _ Hrec) as Hwf.
      unfold Pipeline.bind at 1. unfold Pipeline.lift at 1. rewrite Hline.
      destruct record as [|line [|? ?]]; simpl in Hlen; [| |lia]; simpl.
      * destruct (IH s old Hold) as (records & Hall & Hrun).
        exists ([] :: records). split; [constructor; assumption|].
        exact Hrun.
      * apply Forall_cons in Hwf as [Hwf _].
        unfold Pipeline.bind at 1. unfold Pipeline.lift at 1.
        rewrite (well_formed_line_encode _ Hwf).
        unfold Pipeline.bind at 1. unfold Pipeline.write at 1.
        rewrite Hold. simpl.
        destruct (IH (Pipeline.with_fs (<[f := old ++ line]> (Pipeline.fs s)) s)
                     (old ++ line)) as (records & Hall & Hrun).
        { simpl. apply lookup_insert_eq. }
        exists ([line] :: records). split; [constructor; assumption|].
        rewrite Hrun. simpl. rewrite insert_insert_eq, <- app_assoc.
        reflexivity.
    + destruct (IH s old Hold) as (records & Hall & Hrun).
      exists ([] :: records).
      split; [constructor; [now apply record_other_player | assumption]|].
      exact Hrun.
Qed.

End PipelineFacts.

(** X19: the placement loop stops at the first location whose record
    cannot be written: the lines of the locations before it are in the
    file, nothing of the locations after it is, and the error is the one
    the location raised. *)
Theorem write_placement_stops_at_first_error
    (ev : pyevermizer.t) (cls : SoE.class_attrs) (self : SoE.t)
    (f : str) (before after : list Location.t) (bad : Location.t)
    (s : Pipeline.state) (old : bytes) (e : exn) :
  Pipeline.fs s !! f = Some old ->
  Forall (resolved cls self) before ->
  Location.player bad = SoE.player self ->
  SoE.placement_line ev cls self bad = Raise e ->
  exists records : list (list str),
    Forall2 (placement_record ev cls self) before records
    /\ SoE.write_placement ev cls self f (before ++ bad :: after) s
       = (Raise e,
          Pipeline.with_fs
            (<[f := old ++ concat (concat records)]> (Pipeline.fs s)) s).
Proof.
  intros Hold Hres Hplayer Hbad.
  destruct (write_placement_resolved ev cls self f before s old Hold Hres)
    as (records & Hall & Hrun).
  exists records. split; [exact Hall|].
  rewrite write_placement_app, Hrun. simpl.
  rewrite Hplayer, Z.eqb_refl.
  unfold Pipeline.bind, Pipeline.lift. now rewrite Hbad.
Qed.

Section OutputPipeline.
Context (ev : pyevermizer.t) (cls : SoE.class_attrs) (host : Host.t).

Lemma suffix_ne (base s1 s2 : str) :
  s1 <> s2 -> base ++ s1 <> base ++ s2.
Proof. intros Hne Heq. apply Hne. exact (app_inv_head _ _ _ Heq). Qed.

Lemma slice_to_sfc (base : str) : slice_to (-4) (base ++ py ".sfc") = base.
Proof.
  unfold slice_to. change (-4 <? 0) with true. cbv iota.
  rewrite length_app. change (length (py ".sfc")) with 4%nat.
  replace (Z.to_nat (Z.of_nat (length base + 4) + -4)) with (length base)
    by lia.
  apply take_app_length.
Qed.

(** The [try] block up to the call of the build tool. *)
Lemma try_block_reaches_tool self w dir name fs money exp rom flags cn seed :
  pipeline_ready cls host self w money exp rom flags cn seed ->
  exists records : list (list str),
    Forall2 (placement_record ev cls self) (MultiWorld.get_locations w) records
    /\ SoE.try_block ev cls host self w dir name (Pipeline.mk fs None None)
       = let base := out_base host w self dir name in
         let '(fs2, status) :=
           pyevermizer.main ev
             (build_args host w self dir name money exp rom flags cn seed)
             (<[base ++ py ".txt" := concat (concat records)]> fs) in
         let s2 := Pipeline.mk fs2 (Some (base ++ py ".txt"))
                               (Some (base ++ py ".sfc")) in
         if negb (status =? 0) then (Raise RuntimeError, s2)
         else SoE.lzma_file_write host (base ++ py ".apsoe")
                (SoE.generate_patch rom (base ++ py ".sfc")) s2.
Proof.
  intros ((om & Hom & Hmoney) & (oe & Hoe & Hexp) & Hrom & Hflags & Hres
          & Hcn & Hseed).
  set (base := out_base host w self dir name).
  destruct (write_placement_resolved ev cls self (base ++ py ".txt")
              (MultiWorld.get_locations w)
              (Pipeline.mk (<[base ++ py ".txt" := []]> fs)
                           (Some (base ++ py ".txt"))
                           (Some (base ++ py ".sfc"))) [])
    as (records & Hall & Hrun); [apply lookup_insert_eq | exact Hres |].
  exists records. split; [exact Hall|].
  unfold SoE.try_block.
  fold (out_base host w self dir name). fold base.
  unfold Pipeline.bind at 1. unfold Pipeline.lift at 1.
  rewrite Hom. cbn [rbind]. rewrite Hmoney.
  unfold Pipeline.bind at 1. unfold Pipeline.lift at 1.
  rewrite Hoe. cbn [rbind]. rewrite Hexp.
  unfold Pipeline.bind at 1. unfold Pipeline.lift at 1. rewrite Hrom.
  unfold Pipeline.bind at 1. unfold Pipeline.set_out_file at 1.
  unfold Pipeline.bind at 1. unfold Pipeline.set_placement_file at 1.
  unfold Pipeline.bind at 1. unfold Pipeline.lift at 1. rewrite Hflags.
  unfold Pipeline.bind at 1. unfold Pipeline.open_wb at 1.
  unfold Pipeline.bind at 1.
  cbn [Pipeline.fs Pipeline.placement_file Pipeline.out_file Pipeline.with_fs].
  unfold Pipeline.with_fs at 1.
  cbn [Pipeline.fs Pipeline.placement_file Pipeline.out_file].
  rewrite Hrun.
  unfold Pipeline.bind at 1. unfold Pipeline.lift at 1. rewrite Hcn.
  unfold Pipeline.bind at 1. unfold Pipeline.lift at 1. rewrite Hseed.
  unfold Pipeline.bind at 1. unfold Pipeline.call at 1.
  cbn [SoE.getattr Pipeline.fs Pipeline.placement_file Pipeline.out_file
       Pipeline.with_fs].
  rewrite insert_insert_eq. cbn [app].
  unfold build_args. fold base.
  destruct (pyevermizer.main ev _ _) as [fs2 status].
  unfold Pipeline.with_fs.
  cbn [Pipeline.fs Pipeline.placement_file Pipeline.out_file].
  destruct (negb (status =? 0)); reflexivity.
Qed.

(** The file system after the [finally] block, once both paths are
    assigned: each deletion runs only if the ones before it worked. *)
Lemma finally_block_cases s placement out :
  Pipeline.placement_file s = Some placement ->
  Pipeline.out_file s = Some out ->
  Pipeline.fs (SoE.finally_block s).2
  = match Pipeline.fs s !! placement with
    | None => Pipeline.fs s
    | Some _ =>
        match delete placement (Pipeline.fs s) !! out with
        | None => delete placement (Pipeline.fs s)
        | Some _ =>
            delete (slice_to (-4) out ++ py "_SPOILER.log")
              (delete out (delete placement (Pipeline.fs s)))
        end
    end.
Proof.
  intros Hp Ho.
  unfold SoE.finally_block, Pipeline.try_except_pass, Pipeline.bind,
    Pipeline.get_placement_file, Pipeline.get_out_file, Pipeline.unlink,
    Pipeline.lift.
  rewrite Hp. cbn -[slice_to py].
  destruct (Pipeline.fs s !! placement); cbn -[slice_to py]; [|reflexivity].
  rewrite Ho. cbn -[slice_to py].
  destruct (delete placement (Pipeline.fs s) !! out); cbn -[slice_to py];
    [|reflexivity].
  rewrite Ho.
  destruct (delete out (delete placement (Pipeline.fs s))
            !! (slice_to (-4) out ++ py "_SPOILER.log")) eqn:Hlog;
    cbn -[slice_to py]; [reflexivity|].
  symmetry. now apply delete_id.
Qed.

(** Before a path is assigned the cleanup deletes nothing: its first
    call is [os.unlink(None)]. *)
Lemma finally_block_unassigned fs out :
  Pipeline.fs (SoE.finally_block (Pipeline.mk fs None out)).2 = fs.
Proof. reflexivity. Qed.

Lemma resolved_player self self' location :
  SoE.player self = SoE.player self' ->
  resolved cls self location -> resolved cls self' location.
Proof. unfold resolved. intros <-. auto. Qed.

End OutputPipeline.

(** X20: when everything the [try] block reads is there and the build
    tool succeeds on the placement file, leaving it in place and writing
    the image, [generate_output] returns normally; the tool has been run
    on the file system with the placement file holding the records of
    the locations, the patch file holds the compressed image, and the
    placement file, the image and the spoiler log are gone. *)
Theorem generate_output_success
    (ev : pyevermizer.t) (cls : SoE.class_attrs) (host : Host.t)
    (fuel : nat) (self self1 : SoE.t) (w : MultiWorld.t)
    (output_directory : str) (fs : FS) (name : str)
    (money exp : Z) (rom flags connect_name : str) (seed : Z) :
  SoE.finalize_name fuel self w = Some (Ok name, self1) ->
  pipeline_ready cls host self1 w money exp rom flags connect_name seed ->
  (forall fs1,
     is_Some (fs1 !! (out_base host w self1 output_directory name
                      ++ py ".txt")) ->
     exists fs2 image,
       pyevermizer.main ev
         (build_args host w self1 output_directory name
                     money exp rom flags connect_name seed) fs1
       = (fs2, 0)
       /\ fs2 !! (out_base host w self1 output_directory name ++ py ".sfc")
          = Some image
       /\ is_Some (fs2 !! (out_base host w self1 output_directory name
                           ++ py ".txt"))) ->
  exists (records : list (list str)) (fs2 : FS) (image : bytes),
    Forall2 (placement_record ev cls self1) (MultiWorld.get_locations w)
            records
    /\ pyevermizer.main ev
         (build_args host w self1 output_directory name
                     money exp rom flags connect_name seed)
         (<[out_base host w self1 output_directory name ++ py ".txt"
            := concat (concat records)]> fs)
       = (fs2, 0)
    /\ fs2 !! (out_base host w self1 output_directory name ++ py ".sfc")
       = Some image
    /\ SoE.generate_output ev cls host fuel self w output_directory fs
       = Some (Ok tt, self1,
               delete (out_base host w self1 output_directory name
                       ++ py "_SPOILER.log")
                 (delete (out_base host w self1 output_directory name
                          ++ py ".sfc")
                    (delete (out_base host w self1 output_directory name
                             ++ py ".txt")
                       (<[out_base host w self1 output_directory name
                          ++ py ".apsoe"
                          := Host.lzma_compress host image]> fs2)))).
Proof.
  intros Hname Hready Htool.
  set (base := out_base host w self1 output_directory name) in *.
  destruct (try_block_reaches_tool ev cls host self1 w output_directory name
              fs money exp rom flags connect_name seed Hready)
    as (records & Hall & Htry).
  fold base in Htry. cbv zeta in Htry.
  destruct (Htool (<[base ++ py ".txt" := concat (concat records)]> fs))
    as (fs2 & image & Hmain & Himage & Hkept);
    [rewrite lookup_insert_eq; eauto|].
  exists records, fs2, image. do 3 (split; [assumption|]).
  rewrite (generate_output_outcome ev cls host _ _ _ _ _ _ _ Hname).
  cbv zeta. rewrite Htry, Hmain.
  change (negb (0 =? 0)) with false. cbv iota.
  assert (Hsfc : base ++ py ".apsoe" <> base ++ py ".sfc")
    by (apply suffix_ne; discriminate).
  assert (Htxt : base ++ py ".apsoe" <> base ++ py ".txt")
    by (apply suffix_ne; discriminate).
  assert (Hts : base ++ py ".txt" <> base ++ py ".sfc")
    by (apply suffix_ne; discriminate).
  unfold SoE.lzma_file_write, SoE.generate_patch, Pipeline.bind,
    Pipeline.open_wb, Pipeline.read, Pipeline.write, Pipeline.with_fs.
  cbn [Pipeline.fs Pipeline.placement_file Pipeline.out_file].
  rewrite lookup_insert_ne, Himage by exact Hsfc.
  cbn [Pipeline.fs Pipeline.placement_file Pipeline.out_file fst snd].
  rewrite lookup_insert_eq, insert_insert_eq. cbn [default app].
  rewrite (finally_block_cases _ (base ++ py ".txt") (base ++ py ".sfc"))
    by reflexivity.
  cbn [Pipeline.fs]. rewrite slice_to_sfc.
  destruct Hkept as [content Hcontent].
  rewrite lookup_insert_ne, Hcontent by exact Htxt.
  rewrite lookup_delete_ne, lookup_insert_ne, Himage by assumption.
  reflexivity.
Qed.

Lemma sample_filled_resolved_named :
  Forall (resolved sample_cls (SoE.mk 1 false (Some (py "Hero")) true (Some 7)))
         (MultiWorld.get_locations sample_world_filled).
Proof.
  eapply Forall_impl; [exact sample_filled_resolved|].
  intros location. now apply resolved_player.
Defined.

Lemma sample_pipeline_ready :
  pipeline_ready sample_cls sample_host
    (SoE.mk 1 false (Some (py "Hero")) true (Some 7)) sample_world_filled
    100 100 (py "rom.sfc") (py "ln") (py "Hero") 7.
Proof.
  split; [eexists; split; [vm_compute; reflexivity | reflexivity]|].
  split; [eexists; split; [vm_compute; reflexivity | reflexivity]|].
  split; [reflexivity|].
  split; [vm_compute; reflexivity|].
  split; [exact sample_filled_resolved_named|].
  split; reflexivity.
Defined.

Lemma generate_output_success_witness :
  exists (records : list (list str)) (fs2 : FS) (image : bytes),
    Forall2 (placement_record sample_ev sample_cls
               (SoE.mk 1 false (Some (py "Hero")) true (Some 7)))
            (MultiWorld.get_locations sample_world_filled) records
    /\ fs2 !! py "out/AP_seed_P1_Hero.sfc" = Some image
    /\ SoE.generate_output sample_ev sample_cls sample_host 33 sample_self
         sample_world_filled (py "out") ∅
       = Some (Ok tt, SoE.mk 1 false (Some (py "Hero")) true (Some 7),
               delete (py "out/AP_seed_P1_Hero_SPOILER.log")
                 (delete (py "out/AP_seed_P1_Hero.sfc")
                    (delete (py "out/AP_seed_P1_Hero.txt")
                       (<[py "out/AP_seed_P1_Hero.apsoe"
                          := Host.lzma_compress sample_host image]> fs2)))).
Proof.
  destruct (generate_output_success sample_ev sample_cls sample_host 33
              sample_self (SoE.mk 1 false (Some (py "Hero")) true (Some 7))
              sample_world_filled (py "out") ∅ (py "Hero")
              100 100 (py "rom.sfc") (py "ln") (py "Hero") 7)
    as (records & fs2 & image & Hall & _ & Himage & Hrun).
  - vm_compute. reflexivity.
  - exact sample_pipeline_ready.
  - intros fs1 Hplacement. eexists _, _. split; [reflexivity|].
    split; [apply lookup_insert_eq|].
    rewrite lookup_insert_ne; [exact Hplacement|].
    vm_compute. discriminate.
  - exists records, fs2, image. auto.
Defined.

(** X21: when the build tool returns a failure status, [generate_output]
    raises [RuntimeError]; the cleanup only deletes, the placement file
    is gone afterwards, and the patch file is not written. *)
Theorem generate_output_build_failure
    (ev : pyevermizer.t) (cls : SoE.class_attrs) (host : Host.t)
    (fuel : nat) (self self1 : SoE.t) (w : MultiWorld.t)
    (output_directory : str) (fs : FS) (name : str)
    (money exp : Z) (rom flags connect_name : str) (seed : Z) :
  SoE.finalize_name fuel self w = Some (Ok name, self1) ->
  pipeline_ready cls host self1 w money exp rom flags connect_name seed ->
  (forall fs1,
     (pyevermizer.main ev
        (build_args host w self1 output_directory name
                    money exp rom flags connect_name seed) fs1).2 <> 0) ->
  exists (records : list (list str)) (fs2 fs' : FS) (status : Z),
    Forall2 (placement_record ev cls self1) (MultiWorld.get_locations w)
            records
    /\ pyevermizer.main ev
         (build_args host w self1 output_directory name
                     money exp rom flags connect_name seed)
         (<[out_base host w self1 output_directory name ++ py ".txt"
            := concat (concat records)]> fs)
       = (fs2, status)
    /\ SoE.generate_output ev cls host fuel self w output_directory fs
       = Some (Raise RuntimeError, self1, fs')
    /\ fs' ⊆ fs2
    /\ fs' !! (out_base host w self1 output_directory name ++ py ".txt")
       = None
    /\ fs' !! (out_base host w self1 output_directory name ++ py ".apsoe")
       = fs2 !! (out_base host w self1 output_directory name ++ py ".apsoe").
Proof.
  intros Hname Hready Htool.
  set (base := out_base host w self1 output_directory name) in *.
  destruct (try_block_reaches_tool ev cls host self1 w output_directory name
              fs money exp rom flags connect_name seed Hready)
    as (records & Hall & Htry).
  fold base in Htry. cbv zeta in Htry.
  specialize (Htool (<[base ++ py ".txt" := concat (concat records)]> fs)).
  destruct (pyevermizer.main ev _ _) as [fs2 status] eqn:Hmain.
  cbn [snd] in Htool.
  exists records, fs2,
    (Pipeline.fs (SoE.finally_block
                    (Pipeline.mk fs2 (Some (base ++ py ".txt"))
                                 (Some (base ++ py ".sfc")))).2), status.
  split; [assumption|]. split; [exact Hmain|].
  assert (Hsfc : base ++ py ".sfc" <> base ++ py ".apsoe")
    by (apply suffix_ne; discriminate).
  assert (Htxt : base ++ py ".txt" <> base ++ py ".apsoe")
    by (apply suffix_ne; discriminate).
  assert (Hlog : base ++ py "_SPOILER.log" <> base ++ py ".apsoe")
    by (apply suffix_ne; discriminate).
  assert (Hts : base ++ py ".sfc" <> base ++ py ".txt")
    by (apply suffix_ne; discriminate).
  assert (Hlt : base ++ py "_SPOILER.log" <> base ++ py ".txt")
    by (apply suffix_ne; discriminate).
  split.
  { rewrite (generate_output_outcome ev cls host _ _ _ _ _ _ _ Hname).
    cbv zeta. rewrite Htry.
    apply Z.eqb_neq in Htool. rewrite Htool. reflexivity. }
  rewrite (finally_block_cases _ (base ++ py ".txt") (base ++ py ".sfc"))
    by reflexivity.
  cbn [Pipeline.fs]. rewrite slice_to_sfc.
  destruct (fs2 !! (base ++ py ".txt")) eqn:Hplacement.
  - destruct (delete (base ++ py ".txt") fs2 !! (base ++ py ".sfc")).
    + split; [|split].
      * etransitivity; [apply delete_subseteq|].
        etransitivity; apply delete_subseteq.
      * rewrite !lookup_delete_ne by assumption. apply lookup_delete_eq.
      * now rewrite !lookup_delete_ne by assumption.
    + split; [apply delete_subseteq|].
      split; [apply lookup_delete_eq | now apply lookup_delete_ne].
  - auto.
Qed.

Lemma generate_output_build_failure_witness :
  exists fs' : FS,
    SoE.generate_output failing_ev sample_cls sample_host 33 sample_self
      sample_world_filled (py "out") ∅
    = Some (Raise RuntimeError,
            SoE.mk 1 false (Some (py "Hero")) true (Some 7), fs')
    /\ fs' !! py "out/AP_seed_P1_Hero.txt" = None.
Proof.
  destruct (generate_output_build_failure failing_ev sample_cls sample_host 33
              sample_self (SoE.mk 1 false (Some (py "Hero")) true (Some 7))
              sample_world_filled (py "out") ∅ (py "Hero")
              100 100 (py "rom.sfc") (py "ln") (py "Hero") 7)
    as (records & fs2 & fs' & status & _ & _ & Hrun & _ & Hgone & _).
  - vm_compute. reflexivity.
  - exact sample_pipeline_ready.
  - intros fs1. discriminate.
  - exists fs'. split; [exact Hrun | exact Hgone].
Defined.

(** X22: an error raised before the output paths are assigned, by the
    lookup of the money or of the experience modifier or by the ROM
    setting, is the outcome of [generate_output], and the file system is
    left as it was: the first deletion of the cleanup is
    [os.unlink(None)], whose [TypeError] is swallowed. *)
Theorem generate_output_early_error
    (ev : pyevermizer.t) (cls : SoE.class_attrs) (host : Host.t)
    (fuel : nat) (self self1 : SoE.t) (w : MultiWorld.t)
    (output_directory : str) (fs : FS) (name : str) (e : exn) :
  SoE.finalize_name fuel self w = Some (Ok name, self1) ->
  MultiWorld.get_option (py "money_modifier") (SoE.player self1) w = Raise e
  \/ ((exists o, MultiWorld.get_option (py "money_modifier")
                   (SoE.player self1) w = Ok o)
      /\ MultiWorld.get_option (py "exp_modifier") (SoE.player self1) w
         = Raise e)
  \/ ((exists o, MultiWorld.get_option (py "money_modifier")
                   (SoE.player self1) w = Ok o)
      /\ (exists o, MultiWorld.get_option (py "exp_modifier")
                      (SoE.player self1) w = Ok o)
      /\ Host.rom_file host = Raise e) ->
  SoE.generate_output ev cls host fuel self w output_directory fs
  = Some (Raise e, self1, fs).
Proof.
  intros Hname Hearly.
  assert (Htry : SoE.try_block ev cls host self1 w output_directory name
                   (Pipeline.mk fs None None)
                 = (Raise e, Pipeline.mk fs None None)).
  { unfold SoE.try_block.
    unfold Pipeline.bind at 1. unfold Pipeline.lift at 1.
    destruct Hearly as [Hmoney | [([om Hmoney] & Hexp)
                                 | ([om Hmoney] & [oe Hexp] & Hrom)]];
      rewrite Hmoney; cbn [rbind]; [reflexivity | |];
      unfold Pipeline.bind at 1; unfold Pipeline.lift at 1;
      rewrite Hexp; cbn [rbind]; [reflexivity|].
    unfold Pipeline.bind at 1. unfold Pipeline.lift at 1. rewrite Hrom.
    reflexivity. }
  rewrite (generate_output_outcome ev cls host _ _ _ _ _ _ _ Hname).
  cbv zeta. rewrite Htry. reflexivity.
Qed.

Lemma generate_output_early_error_witness :
  SoE.generate_output sample_ev sample_cls sample_host 33 sample_self
    sample_world (py "out") {[py "out/AP_seed_P1_Hero.txt" := [1]]}
  = Some (Raise AttributeError,
          SoE.mk 1 false (Some (py "Hero")) true (Some 7),
          {[py "out/AP_seed_P1_Hero.txt" := [1]]}).
Proof.
  apply (generate_output_early_error sample_ev sample_cls sample_host 33
           sample_self (SoE.mk 1 false (Some (py "Hero")) true (Some 7))
           sample_world (py "out") _ (py "Hero") AttributeError).
  - vm_compute. reflexivity.
  - left. vm_compute. reflexivity.
Defined.

(** X23: when the flag loop raises, as it does for an option of the
    class that the world does not have for the player, the output paths
    are already assigned: the error is the outcome, nothing is written
    and the build tool is not run, and the cleanup deletes what the file
    system already held under the placement, image and spoiler-log
    paths, each one only if the one before it was there. *)
Theorem generate_output_flags_error
    (ev : pyevermizer.t) (cls : SoE.class_attrs) (host : Host.t)
    (fuel : nat) (self self1 : SoE.t) (w : MultiWorld.t)
    (output_directory : str) (fs : FS) (name : str) (rom : str) (e : exn) :
  SoE.finalize_name fuel self w = Some (Ok name, self1) ->
  (exists o, MultiWorld.get_option (py "money_modifier") (SoE.player self1) w
             = Ok o) ->
  (exists o, MultiWorld.get_option (py "exp_modifier") (SoE.player self1) w
             = Ok o) ->
  Host.rom_file host = Ok rom ->
  SoE.flags_loop self1 w (Host.soe_options host) (py "l") = Raise e ->
  SoE.generate_output ev cls host fuel self w output_directory fs
  = Some (Raise e, self1,
          match fs !! (out_base host w self1 output_directory name
                       ++ py ".txt") with
          | None => fs
          | Some _ =>
              match delete (out_base host w self1 output_directory name
                            ++ py ".txt") fs
                    !! (out_base host w self1 output_directory name
                        ++ py ".sfc") with
              | None => delete (out_base host w self1 output_directory name
                                ++ py ".txt") fs
              | Some _ =>
                  delete (out_base host w self1 output_directory name
                          ++ py "_SPOILER.log")
                    (delete (out_base host w self1 output_directory name
                             ++ py ".sfc")
                       (delete (out_base host w self1 output_directory name
                                ++ py ".txt") fs))
              end
          end).
Proof.
  intros Hname [om Hmoney] [oe Hexp] Hrom Hflags.
  set (base := out_base host w self1 output_directory name).
  rewrite (generate_output_outcome ev cls host _ _ _ _ _ _ _ Hname).
  cbv zeta.
  assert (Htry : SoE.try_block ev cls host self1 w output_directory name
                   (Pipeline.mk fs None None)
                 = (Raise e, Pipeline.mk fs (Some (base ++ py ".txt"))
                                         (Some (base ++ py ".sfc")))).
  { unfold SoE.try_block.
    fold (out_base host w self1 output_directory name). fold base.
    unfold Pipeline.bind at 1. unfold Pipeline.lift at 1.
    rewrite Hmoney. cbn [rbind].
    unfold Pipeline.bind at 1. unfold Pipeline.lift at 1.
    rewrite Hexp. cbn [rbind].
    unfold Pipeline.bind at 1. unfold Pipeline.lift at 1. rewrite Hrom.
    unfold Pipeline.bind at 1. unfold Pipeline.set_out_file at 1.
    unfold Pipeline.bind at 1. unfold Pipeline.set_placement_file at 1.
    unfold Pipeline.bind at 1. unfold Pipeline.lift at 1. rewrite Hflags.
    reflexivity. }
  rewrite Htry. cbn [fst snd].
  rewrite (finally_block_cases _ (base ++ py ".txt") (base ++ py ".sfc"))
    by reflexivity.
  cbn [Pipeline.fs]. now rewrite slice_to_sfc.
Qed.

Lemma write_placement_stops_at_first_error_witness :
  exists records : list (list str),
    Forall2 (placement_record sample_ev sample_cls (SoE.__init__ 1))
            sample_filled records
    /\ SoE.write_placement sample_ev sample_cls (SoE.__init__ 1) (py "p.txt")
         (sample_filled ++ sample_unfilled :: sample_filled)
         (Pipeline.mk {[py "p.txt" := []]} None None)
       = (Raise AttributeError,
          Pipeline.mk (<[py "p.txt" := concat (concat records)]>
                         {[py "p.txt" := []]}) None None).
Proof.
  destruct (write_placement_stops_at_first_error sample_ev sample_cls
              (SoE.__init__ 1) (py "p.txt") sample_filled sample_filled
              sample_unfilled (Pipeline.mk {[py "p.txt" := []]} None None)
              [] AttributeError)
    as (records & Hall & Hrun).
  - vm_compute. reflexivity.
  - exact sample_filled_resolved.
  - reflexivity.
  - reflexivity.
  - exists records. split; [exact Hall | exact Hrun].
Defined.

Lemma generate_output_flags_error_witness :
  SoE.generate_output sample_ev sample_cls sample_host 33 sample_self
    sample_world_unflagged (py "out")
    {[py "out/AP_seed_P1_Hero.txt" := [1]]}
  = Some (Raise KeyError, SoE.mk 1 false (Some (py "Hero")) true (Some 7), ∅).
Proof.
  rewrite (generate_output_flags_error sample_ev sample_cls sample_host 33
             sample_self (SoE.mk 1 false (Some (py "Hero")) true (Some 7))
             sample_world_unflagged (py "out") _ (py "Hero") (py "rom.sfc")
             KeyError).
  - vm_compute. reflexivity.
  - vm_compute. reflexivity.
  - eexists. vm_compute. reflexivity.
  - eexists. vm_compute. reflexivity.
  - reflexivity.
  - vm_compute. reflexivity.
Defined.

(** X24: [generate_basic] binds the locked 'Victory' event to the first
    location named 'Done' of the player and touches no other location,
    and the seed it stores is a 16-bit value; without such a location it
    raises [KeyError]. *)
Theorem generate_basic_places_victory_and_draws_seed
    (self : SoE.t) (w : MultiWorld.t) :
  (forall before done after,
     MultiWorld.get_locations w = before ++ done :: after ->
     Forall (fun x => MultiWorld.is_location (py "Done") (SoE.player self) x
                      = false) before ->
     MultiWorld.is_location (py "Done") (SoE.player self) done = true ->
     exists self' w' seed,
       SoE.generate_basic self w = Ok (self', w')
       /\ MultiWorld.get_locations w'
          = before
            ++ Location.place_locked_item
                 (SoE.create_event self (py "Victory")) done :: after
       /\ SoE.evermizer_seed self' = Some seed
       /\ 0 <= seed <= 65535
       /\ SoE.player self' = SoE.player self
       /\ SoE.connect_name self' = SoE.connect_name self)
  /\ (Forall (fun x => MultiWorld.is_location (py "Done") (SoE.player self) x
                       = false) (MultiWorld.get_locations w) ->
      SoE.generate_basic self w = Raise KeyError).
Proof.
  split.
  - intros before done after Hlocs Hbefore Hdone.
    pose proof (alter_first_hit _
                  (Location.place_locked_item
                     (SoE.create_event self (py "Victory")))
                  before after done Hbefore Hdone) as Halt.
    rewrite <- Hlocs in Halt.
    destruct (update_location_flat _ _ _ _ _ Halt)
      as (w1 & Hup & Hl1 & _ & _ & _).
    unfold SoE.generate_basic. rewrite Hup. cbn [rbind].
    destruct (MultiWorld.randint 0 (2 ^ 16 - 1) w1) as [n w2] eqn:Hrand.
    exists (SoE.with_evermizer_seed n self), w2, n.
    split; [reflexivity|].
    split; [destruct (randint_frame _ _ _ _ _ Hrand) as [-> _]; exact Hl1|].
    split; [reflexivity|].
    split; [|split; reflexivity].
    unfold MultiWorld.randint in Hrand.
    destruct (MultiWorld.random w1) as [|x r]; inversion Hrand; subst.
    + lia.
    + pose proof (Z.mod_pos_bound x (2 ^ 16 - 1 - 0 + 1) eq_refl). lia.
  - intros Hnone.
    unfold SoE.generate_basic, MultiWorld.update_location.
    pose proof (alter_location_flat
                  (MultiWorld.is_location (py "Done") (SoE.player self))
                  (Location.place_locked_item
                     (SoE.create_event self (py "Victory")))
                  (MultiWorld.regions w)) as Hflat.
    destruct (MultiWorld.alter_location _ _ (MultiWorld.regions w));
      [|reflexivity].
    destruct Hflat as [Hflat _].
    unfold MultiWorld.get_locations in Hnone.
    rewrite alter_first_none in Hflat by exact Hnone. discriminate.
Qed.

Lemma generate_basic_places_victory_and_draws_seed_witness :
  exists self' w' seed,
    SoE.generate_basic (SoE.__init__ 1) sample_world_unflagged
    = Ok (self', w')
    /\ SoE.evermizer_seed self' = Some seed
    /\ 0 <= seed <= 65535.
Proof.
  destruct (generate_basic_places_victory_and_draws_seed (SoE.__init__ 1)
              sample_world_unflagged) as [Hplace _].
  destruct (Hplace (take 3 sample_filled)
                   (Location.mk 1 (py "Done") None true
                      (Some (Item.mk (py "Victory") true None 1)) true
                      (fun _ => true) (fun _ => Ok true))
                   (drop 4 sample_filled))
    as (self' & w' & seed & Hrun & _ & Hseed & Hrange & _).
  - reflexivity.
  - repeat (apply Forall_cons; split; [vm_compute; reflexivity|]).
    apply Forall_nil_2.
  - vm_compute. reflexivity.
  - exists self', w', seed. auto.
Defined.

(** ** Registered numeric ids *)

Section FirstAndLast.
Context {A : Type} (f : A -> str).



End FirstAndLast.

Section OffsetPlusIndex.
Context (ev : pyevermizer.t).
Hypothesis Hcats : NoDup (categories ev).


End OffsetPlusIndex.

Section RegisteredIds.
Context (ev : pyevermizer.t) (cls : SoE.class_attrs).
Hypothesis Hcls : SoE.SoEWorld_class ev = Ok cls.



End RegisteredIds.



